(** * MamaCare backend: the account lifecycle and its request gates

    A shallow embedding of the two revisions of the Express server kept in the
    repository: the earlier [server.js] and the later, hardened entry point
    (helmet, rate limiting, start-up checks).  Both expose the same account
    workflow: signup, e-mail code verification and login over a [users]
    table, bcrypt digests and signed session tokens.

    Every [await] of a handler is one operation of a small instruction set;
    a handler is a tree of such operations ending in the response it sends.
    Operations are interpreted over an explicit [world] (the users table, the
    outbox of the mail transport, the rate limiter's counters, the clock),
    one at a time, so that requests in flight can be interleaved exactly at
    their [await]s.  The synchronous calls that read the clock or draw
    random bits ([Math.random], [jwt.sign], the limiter's count) are
    operations as well, which only adds interleavings. *)

From Stdlib Require Import NArith String Ascii List Bool Lia DecimalString.
From Stdlib Require DecimalPos.
From stdpp Require Import base strings gmap list.
Import ListNotations.

Open Scope string_scope.
Open Scope list_scope.
Open Scope N_scope.

(** ** JavaScript values as the handlers use them *)

Module Js.

(** [!v] is false exactly for a present, non-empty string: a request field
    is a JSON string or missing. *)
Definition truthy (v : option string) : bool :=
  match v with
  | Some s => negb (String.eqb s "")
  | None => false
  end.

(** [v || d] on strings. *)
Definition or_else (v : option string) (d : string) : string :=
  match v with
  | Some s => if String.eqb s "" then d else s
  | None => d
  end.

(** Text.  A JavaScript string is a sequence of UTF-16 code units.  The
    strings of this development are the bytes of the UTF-8 encoding, as the
    request carries them and as a literal is written here; [units] reads
    the code units back.  A byte that belongs to no well-formed sequence
    stands for U+FFFD, as a decoder replaces it. *)
Definition continuation (a : ascii) : bool :=
  let n := N_of_ascii a in (128 <=? n) && (n <=? 191).

(** The six payload bits of a continuation byte. *)
Definition payload (a : ascii) : N := N_of_ascii a - 128.

Fixpoint units (s : string) : list N :=
  match s with
  | EmptyString => []
  | String a0 s1 =>
      let b0 := N_of_ascii a0 in
      let replaced := 65533 :: units s1 in
      if b0 <? 128 then b0 :: units s1
      else if (194 <=? b0) && (b0 <=? 223) then
        (* U+0080 to U+07FF: two bytes *)
        match s1 with
        | String a1 s2 =>
            if continuation a1
            then ((b0 - 192) * 64 + payload a1) :: units s2
            else replaced
        | _ => replaced
        end
      else if (224 <=? b0) && (b0 <=? 239) then
        (* U+0800 to U+FFFF without the surrogates: three bytes *)
        match s1 with
        | String a1 (String a2 s3) =>
            let cp := (b0 - 224) * 4096 + payload a1 * 64 + payload a2 in
            if continuation a1 && continuation a2 && (2048 <=? cp)
               && negb ((55296 <=? cp) && (cp <=? 57343))
            then cp :: units s3
            else replaced
        | _ => replaced
        end
      else if (240 <=? b0) && (b0 <=? 244) then
        (* U+10000 to U+10FFFF: four bytes, two code units *)
        match s1 with
        | String a1 (String a2 (String a3 s4)) =>
            let cp := (b0 - 240) * 262144 + payload a1 * 4096 + payload a2 * 64 + payload a3 in
            if continuation a1 && continuation a2 && continuation a3
               && (65536 <=? cp) && (cp <=? 1114111)
            then (55296 + (cp - 65536) / 1024) :: (56320 + (cp - 65536) mod 1024) :: units s4
            else replaced
        | _ => replaced
        end
      else replaced
  end.

(** [s.length]: the number of code units. *)
Definition length (s : string) : N := N.of_nat (List.length (units s)).

(** [n.toString()] of a non-negative integer. *)
Definition toString (n : N) : string := NilEmpty.string_of_uint (N.to_uint n).

(** [Math.random()] yields a double in [0, 1): a multiple [k / 2^53]. The
    model carries the numerator [k]. *)
Definition random_denominator : N := 2 ^ 53.

(** The double nearest to [n / 2^53], as a numerator over [2^53] again: 53
    significant bits are kept, and what lies below them is rounded to the
    nearest, a tie to the even one. *)
Definition round53 (n : N) : N :=
  let bits := N.size n in
  if bits <=? 53 then n else
  let s := bits - 53 in
  let q := N.shiftr n s in
  let rem := n - N.shiftl q s in
  let half := N.shiftl 1 (s - 1) in
  N.shiftl (if (half <? rem) || ((rem =? half) && N.odd q) then q + 1 else q) s.

(** [Math.floor(lo + r * span)] for [r = k / 2^53] and integers [lo] and
    [span], in the doubles of the source: the product is rounded, then the
    sum. *)
Definition floor_scaled (lo span k : N) : N :=
  round53 (lo * random_denominator + round53 (k * span)) / random_denominator.

End Js.

(** ** Regular expressions

    Enough of the regular-expression language for the e-mail test, matched by
    derivatives.  An expression without the [u] flag reads a string code
    unit by code unit. *)

Module Regex.

Inductive re : Type :=
| Void
| Eps
| Class (p : N -> bool)
| Seq (r1 r2 : re)
| Alt (r1 r2 : re)
| Star (r : re).

Definition Plus (r : re) : re := Seq r (Star r).

Fixpoint nullable (r : re) : bool :=
  match r with
  | Void => false
  | Eps => true
  | Class _ => false
  | Seq r1 r2 => nullable r1 && nullable r2
  | Alt r1 r2 => nullable r1 || nullable r2
  | Star _ => true
  end.

Fixpoint deriv (c : N) (r : re) : re :=
  match r with
  | Void => Void
  | Eps => Void
  | Class p => if p c then Eps else Void
  | Seq r1 r2 =>
      if nullable r1
      then Alt (Seq (deriv c r1) r2) (deriv c r2)
      else Seq (deriv c r1) r2
  | Alt r1 r2 => Alt (deriv c r1) (deriv c r2)
  | Star r1 => Seq (deriv c r1) (Star r1)
  end.

(** [^r$] against a sequence of code units. *)
Fixpoint accepts (r : re) (l : list N) : bool :=
  match l with
  | [] => nullable r
  | c :: l' => accepts (deriv c r) l'
  end.

(** [/^r$/.test(s)] *)
Definition test (r : re) (s : string) : bool := accepts r (Js.units s).

(** [\s]: tab, line feed, vertical tab, form feed, carriage return and
    space; the no-break space U+00A0, the byte order mark U+FEFF, the line
    and paragraph separators U+2028 and U+2029, and the other space
    separators U+1680, U+2000 to U+200A, U+202F, U+205F and U+3000. *)
Definition space (c : N) : bool :=
  ((9 <=? c) && (c <=? 13)) || (c =? 32) || (c =? 160) || (c =? 5760) ||
  ((8192 <=? c) && (c <=? 8202)) || (c =? 8232) || (c =? 8233) || (c =? 8239) ||
  (c =? 8287) || (c =? 12288) || (c =? 65279).

(** A literal character of the ASCII range. *)
Definition char (a : ascii) (c : N) : bool := N_of_ascii a =? c.

End Regex.

(** [/^[^\s@]+@[^\s@]+\.[^\s@]+$/] *)
Definition emailRegex : Regex.re :=
  let part := Regex.Plus (Regex.Class (fun c => negb (Regex.space c || Regex.char "@" c))) in
  Regex.Seq part
    (Regex.Seq (Regex.Class (Regex.char "@"))
       (Regex.Seq part
          (Regex.Seq (Regex.Class (Regex.char ".")) part))).

(** ** Data model *)

(** A bcrypt digest, symbolically: the cost, the salt and the secret it was
    computed from.  Two digests are equal only when all three agree; nothing
    but [bcrypt.compare] looks inside. *)
Inductive digest : Type :=
| Bcrypt (rounds : N) (salt : N) (plain : string).

Definition digest_plain (d : digest) : string :=
  match d with Bcrypt _ _ p => p end.

(** A row of the [users] table.  [u_verification_code] is the nullable
    column [verification_code]. *)
Record user : Type := {
  u_id : N;
  u_name : string;
  u_email : string;
  u_password : digest;
  u_verification_code : option digest;
  u_is_verified : bool
}.

(** A signed token, symbolically: the payload [{ userId, email }], the
    [iat] and [exp] claims in seconds, and the key it was signed with. *)
Record jwt : Type := {
  jwt_userId : N;
  jwt_email : string;
  jwt_iat : N;
  jwt_exp : N;
  jwt_key : string
}.

(** The interpolated parts of the three HTML bodies the server mails. *)
Inductive html : Type :=
| WelcomeHtml (name code link : string)
| VerifiedHtml (name email link : string)
| ContactHtml (name email message : string).

(** [mailOptions]; [from] is the display name and the address. *)
Record mail : Type := {
  mail_from : string * string;
  mail_to : option string;
  mail_replyTo : option string;
  mail_subject : string;
  mail_html : html
}.

#[local] Set Warnings "-register-all".

(** JSON as the responses carry it.  Digests and tokens are strings in
    JavaScript; they keep their own constructors so that a response can be
    searched for them. *)
Inductive json : Type :=
| JNull
| JBool (b : bool)
| JNum (n : N)
| JStr (s : string)
| JDigest (d : digest)
| JToken (t : jwt)
| JObj (fields : list (string * json)).

Record response : Type := {
  status : N;
  body : json
}.

(** [res.status(code).json(fields)] *)
Definition res_json (code : N) (fields : list (string * json)) : response :=
  {| status := code; body := JObj fields |}.

(** The statements the account handlers execute, with their parameters. *)
Inductive sql : Type :=
| SelectUsersByEmail (email : string)
    (* SELECT * FROM users WHERE email = ? *)
| InsertUser (name email : string) (password verification_code : digest) (is_verified : bool)
    (* INSERT INTO users (name, email, password, verification_code, is_verified)
       VALUES (?, ?, ?, ?, ?) *)
| VerifyUserByEmail (email : string)
    (* UPDATE users SET is_verified = true, verification_code = NULL WHERE email = ? *).

(** ** Operations and the world they act on *)

Definition error : Type := string.

Inductive op : Type :=
| CreateConnection                                   (* mysql.createConnection(dbConfig) *)
| Execute (q : sql)                                  (* db.execute(q, params) *)
| DbEnd                                              (* db.end() *)
| BcryptHash (s : string) (rounds : N)               (* bcrypt.hash(s, rounds) *)
| BcryptCompare (s : string) (hash : option digest)  (* bcrypt.compare(s, hash) *)
| MathRandom                                         (* Math.random() *)
| DateNow                                            (* Date.now() *)
| JwtSign (userId : N) (email : string) (secret : option string)
                                                     (* jwt.sign({ userId, email }, secret, { expiresIn: "1h" }) *)
| SendMail (m : mail)                                (* transporter.sendMail(m) *)
| LimiterHit (key : string)                          (* the limiter counting a request of client [key] *).

Inductive value : Type :=
| VUndefined
| VRows (rows : list user)
| VDigest (d : digest)
| VBool (b : bool)
| VNum (n : N)
| VToken (t : jwt)
| VInfo (s : string).

(** *** The rate limiter

    Modelled from the spec: [express-rate-limit] is a dependency, not code of
    the repository; its options are the two the source passes.  Each client
    key has a fixed window; a request outside the key's window opens a new
    one, every request is counted, and a request is let through while the
    count stays within [max]. *)

Module RateLimit.

(** One window: when it started (ms) and how many requests it counted. *)
Record window : Type := {
  win_start : N;
  win_count : N
}.

(** [rateLimit({ windowMs: 15 * 60 * 1000, max: 100 })] *)
Definition windowMs : N := 15 * 60 * 1000.
Definition max : N := 100.

(** The window of [key] that is still open at [now], if any. *)
Definition open_window (now : N) (key : string) (h : gmap string window) : option window :=
  match h !! key with
  | Some win => if now <? win_start win + windowMs then Some win else None
  | None => None
  end.

Definition hit (now : N) (key : string) (h : gmap string window)
    : gmap string window * bool :=
  let win :=
    match open_window now key h with
    | Some win => {| win_start := win_start win; win_count := win_count win + 1 |}
    | None => {| win_start := now; win_count := 1 |}
    end in
  (<[key := win]> h, win_count win <=? max).

End RateLimit.

Record world : Type := {
  users : list user;
  outbox : list mail;
  hits : gmap string RateLimit.window;
  clock : N   (* Date.now(), in milliseconds *)
}.

Definition set_users (w : world) (us : list user) : world :=
  {| users := us; outbox := outbox w; hits := hits w; clock := clock w |}.

Definition set_outbox (w : world) (ms : list mail) : world :=
  {| users := users w; outbox := ms; hits := hits w; clock := clock w |}.

Definition set_hits (w : world) (h : gmap string RateLimit.window) : world :=
  {| users := users w; outbox := outbox w; hits := h; clock := clock w |}.

Definition set_clock (w : world) (t : N) : world :=
  {| users := users w; outbox := outbox w; hits := hits w; clock := t |}.

Definition empty_world : world :=
  {| users := []; outbox := []; hits := ∅; clock := 0 |}.

(** What the surroundings decide at one operation: whether the database or
    the mail transport fails there, and the random bits it draws. *)
Record choice : Type := {
  db_fault : bool;
  mail_fault : bool;
  entropy : N
}.

Definition calm : choice := {| db_fault := false; mail_fault := false; entropy := 0 |}.

(** *** The users table *)

Definition has_email (e : string) (u : user) : bool := String.eqb (u_email u) e.

Definition verified_row (u : user) : user :=
  {| u_id := u_id u; u_name := u_name u; u_email := u_email u;
     u_password := u_password u; u_verification_code := None; u_is_verified := true |}.

(** Modelled from the spec: the schema of [users] is not part of the
    repository.  The table keeps [email] unique, rejecting an insert that
    would duplicate one.  The identifier of a new row is the table's to
    choose; it is the next number here, and no statement below says which
    it is. *)
Definition insert_user (us : list user) (name email : string)
    (password verification_code : digest) (is_verified : bool) : list user + error :=
  if existsb (has_email email) us
  then inr "Duplicate entry for key 'users.email'"
  else inl (us ++ [ {| u_id := N.of_nat (List.length us) + 1;
                        u_name := name; u_email := email; u_password := password;
                        u_verification_code := Some verification_code;
                        u_is_verified := is_verified |} ]).

Definition execute_sql (us : list user) (q : sql) : list user * (value + error) :=
  match q with
  | SelectUsersByEmail e => (us, inl (VRows (List.filter (has_email e) us)))
  | InsertUser n e p c v =>
      match insert_user us n e p c v with
      | inl us' => (us', inl VUndefined)
      | inr err => (us, inr err)
      end
  | VerifyUserByEmail e =>
      (List.map (fun u => if has_email e u then verified_row u else u) us, inl VUndefined)
  end.

(** *** Tokens *)

(** [jwt.sign] with [expiresIn: "1h"]; it refuses a missing or empty key. *)
Definition jwt_sign (now_ms : N) (userId : N) (email : string) (secret : option string)
    : value + error :=
  if Js.truthy secret
  then let iat := now_ms / 1000 in
       inl (VToken {| jwt_userId := userId; jwt_email := email; jwt_iat := iat;
                      jwt_exp := iat + 3600; jwt_key := Js.or_else secret "" |})
  else inr "secretOrPrivateKey must have a value".

(** [jwt.verify]: the signature must be the key's and the token unexpired. *)
Definition jwt_verify (now_ms : N) (t : jwt) (secret : string) : bool :=
  String.eqb (jwt_key t) secret && (now_ms / 1000 <? jwt_exp t).

(** *** One operation

    The libraries behind the operations are dependencies of the repository,
    modelled by what the handlers rely on:
    - [mysql2]: connecting, executing and closing may each reject; a column
      that is NULL comes back as [null];
    - [bcryptjs]: [hash] salts at random; [compare(s, hash)] first tests
      [typeof s !== "string" || typeof hash !== "string"] and rejects with
      ["Illegal arguments: " + typeof s + ", " + typeof hash] on it, so a
      [null] hash throws rather than comparing false;
    - [jsonwebtoken]: see [jwt_sign] and [jwt_verify];
    - [nodemailer]: [sendMail] delivers or rejects. *)

Definition exec (c : choice) (w : world) (o : op) : world * (value + error) :=
  match o with
  | CreateConnection =>
      if db_fault c then (w, inr "connect ECONNREFUSED") else (w, inl VUndefined)
  | Execute q =>
      if db_fault c then (w, inr "Connection lost: The server closed the connection.")
      else let '(us, r) := execute_sql (users w) q in (set_users w us, r)
  | DbEnd =>
      if db_fault c then (w, inr "Connection lost: The server closed the connection.")
      else (w, inl VUndefined)
  | BcryptHash s rounds => (w, inl (VDigest (Bcrypt rounds (entropy c) s)))
  | BcryptCompare s hash =>
      (* [None] is the NULL column: typeof null is "object" *)
      match hash with
      | Some d => (w, inl (VBool (String.eqb s (digest_plain d))))
      | None => (w, inr "Illegal arguments: string, object")
      end
  | MathRandom => (w, inl (VNum (entropy c mod Js.random_denominator)))
  | DateNow => (w, inl (VNum (clock w)))
  | JwtSign uid e secret => (w, jwt_sign (clock w) uid e secret)
  | SendMail m =>
      if mail_fault c then (w, inr "Invalid login: 535 Authentication failed")
      else (set_outbox w (outbox w ++ [m]), inl (VInfo "250 2.0.0 OK"))
  | LimiterHit key =>
      let '(h, ok) := RateLimit.hit (clock w) key (hits w) in
      (set_hits w h, inl (VBool ok))
  end.

(** ** Handlers as trees of operations *)

Inductive prog : Type :=
| Ret (r : response)
| Await (o : op) (k : value + error -> prog).

(** A computation inside an [async] function: it continues with a value or
    throws to the nearest enclosing [catch]. *)
Definition task (A : Type) : Type := (A -> prog) -> (error -> prog) -> prog.

Definition pure {A} (a : A) : task A := fun k _ => k a.

Definition bind {A B} (m : task A) (f : A -> task B) : task B :=
  fun k h => m (fun a => f a k h) h.

Definition throw {A} (e : error) : task A := fun _ h => h e.

(** [try { m } catch (e) { handler e }] *)
Definition try_catch {A} (m : task A) (handler : error -> task A) : task A :=
  fun k h => m k (fun e => handler e k h).

(** [return res.status(..).json(..)]: the response ends the handler. *)
Definition send {A} (r : response) : task A := fun _ _ => Ret r.

Definition await (o : op) : task value :=
  fun k h => Await o (fun r => match r with inl v => k v | inr e => h e end).

(** [async (req, res) => { try { m } catch (error) { res.status(..).json(..) } }]:
    every path of [m] sends a response or throws, and the [catch] block
    answers without awaiting anything. *)
Definition async_try (m : task Empty_set) (catch : error -> response) : prog :=
  m (fun v => match v with end) (fun e => Ret (catch e)).

#[global] Instance task_ret : MRet task := @pure.
#[global] Instance task_bind : MBind task := fun A B f m => bind m f.

(** Typed views of the awaited results. *)
Definition createConnection : task unit := await CreateConnection ;; pure tt.
Definition db_end : task unit := await DbEnd ;; pure tt.

Definition db_select (q : sql) : task (list user) :=
  v ← await (Execute q) ;
  match v with VRows rows => pure rows | _ => throw "rows is not iterable" end.

Definition db_execute (q : sql) : task unit := await (Execute q) ;; pure tt.

Definition bcrypt_hash (s : string) (rounds : N) : task digest :=
  v ← await (BcryptHash s rounds) ;
  match v with VDigest d => pure d | _ => throw "not a digest" end.

Definition bcrypt_compare (s : string) (hash : option digest) : task bool :=
  v ← await (BcryptCompare s hash) ;
  match v with VBool b => pure b | _ => throw "not a boolean" end.

Definition Math_random : task N :=
  v ← await MathRandom ;
  match v with VNum n => pure n | _ => throw "not a number" end.

Definition jwt_sign_task (userId : N) (email : string) (secret : option string) : task jwt :=
  v ← await (JwtSign userId email secret) ;
  match v with VToken t => pure t | _ => throw "not a token" end.

Definition sendMail (m : mail) : task value := await (SendMail m).

(** ** Running handlers *)

Definition env : Type := nat -> choice.

Record result : Type := {
  final : world;
  reply : response;
  trace : list op
}.

(** One request run to completion with nothing interleaved.  The [i]-th
    operation meets the surroundings' [i]-th choice. *)
Fixpoint run (e : env) (i : nat) (w : world) (p : prog) : result :=
  match p with
  | Ret r => {| final := w; reply := r; trace := [] |}
  | Await o k =>
      let '(w', v) := exec (e i) w o in
      let r := run e (S i) w' (k v) in
      {| final := final r; reply := reply r; trace := o :: trace r |}
  end.

(** The same handler advanced by as many operations as there are choices:
    where it stands when other requests get their turn. *)
Fixpoint advance (cs : list choice) (w : world) (p : prog) : world * prog :=
  match cs, p with
  | c :: cs', Await o k => let '(w', v) := exec c w o in advance cs' w' (k v)
  | _, _ => (w, p)
  end.

(** ** Requests and configuration *)

(** [req.body] after [express.json()]: the fields the account and contact
    routes read, each a JSON string or missing.  What the login and the
    verification do with a password or a code of another JSON type is in
    [AnyJson] below. *)
Record req_body : Type := {
  b_name : option string;
  b_email : option string;
  b_password : option string;
  b_code : option string;
  b_message : option string
}.

(** The string behind a field that has passed its [!field] test. *)
Definition str (v : option string) : string := default "" v.

(** [`${v}`] *)
Definition interpolate (v : option string) : string := default "undefined" v.

(** [process.env], after [dotenv.config]. *)
Abbreviation process_env := (gmap string string).

Definition production (penv : process_env) : bool :=
  match penv !! "NODE_ENV" with
  | Some v => String.eqb v "production"
  | None => false
  end.

Inductive boot : Type :=
| Exit (code : N)
| Listening (port : string).

(** One space-separated field of an [Authorization] header: plain text, or a
    token some key has signed. *)
Inductive field : Type :=
| Word (s : string)
| Token (t : jwt).

Definition message (s : string) : string * json := ("message", JStr s).

(** [{ id: user.id, name: user.name, email: user.email }] *)
Definition user_info (u : user) : json :=
  JObj [("id", JNum (u_id u)); ("name", JStr (u_name u)); ("email", JStr (u_email u))].

(** ** The later revision: start-up checks, rate limiting, auto-login *)

Module Part000.

(** The checks before [express()] is created, and [app.listen(port)]. *)
Definition startup (penv : process_env) : boot :=
  if negb (Js.truthy (penv !! "JWT_SECRET")) then Exit 1
  else if negb (Js.truthy (penv !! "EMAIL_USER")) || negb (Js.truthy (penv !! "EMAIL_PASS"))
  then Exit 1
  else Listening (Js.or_else (penv !! "PORT") "5000").

(** The key [jwt.sign] and [jwt.verify] are given: [process.env.JWT_SECRET]. *)
Definition signing_key (penv : process_env) : option string := penv !! "JWT_SECRET".

(** [authenticateToken]: the response that ends the request, or the claims
    put in [req.user]. *)
Definition authenticateToken (penv : process_env) (now : N)
    (authHeader : option (list field)) : response + jwt :=
  let token :=
    match authHeader with
    | Some fields => nth_error fields 1
    | None => None
    end in
  match token with
  | None | Some (Word "") => inl (res_json 401 [message "Access token required"])
  | Some (Word _) => inl (res_json 403 [message "Invalid token"])
  | Some (Token t) =>
      if Js.truthy (signing_key penv) && jwt_verify now t (str (signing_key penv))
      then inr t
      else inl (res_json 403 [message "Invalid token"])
  end.

(** [app.post("/api/signup", ...)] *)
Definition post_api_signup (penv : process_env) (b : req_body) : prog :=
  let name := b_name b in
  let email := b_email b in
  let password := b_password b in
  if negb (Js.truthy name) || negb (Js.truthy email) || negb (Js.truthy password) then
    Ret (res_json 400 [message "Missing required fields: name, email, password"])
  else
  let name := str name in
  let email := str email in
  let password := str password in
  if negb (Regex.test emailRegex email) then
    Ret (res_json 400 [message "Invalid email format"])
  else
  if (255 <? Js.length name) || (255 <? Js.length email) || (Js.length password <? 8) then
    Ret (res_json 400 [message "Invalid input lengths"])
  else
  async_try
    (createConnection ;;
     existingUsers ← db_select (SelectUsersByEmail email) ;
     if 0 <? N.of_nat (List.length existingUsers) then
       db_end ;;
       send (res_json 400 [message "Email already registered"])
     else
     hashedPassword ← bcrypt_hash password 10 ;
     r ← Math_random ;
     let verificationCode := Js.toString (Js.floor_scaled 100000 900000 r) in
     hashedCode ← bcrypt_hash verificationCode 10 ;
     db_execute (InsertUser name email hashedPassword hashedCode false) ;;
     let mailOptions :=
       {| mail_from := ("MamaCare", interpolate (penv !! "EMAIL_USER"));
          mail_to := Some email;
          mail_replyTo := None;
          mail_subject := "Welcome to MamaCare! Verify Your Email";
          mail_html :=
            WelcomeHtml name verificationCode
              (if production penv then "https://mamahub.vercel.app/verify"
               else "http://localhost:5173/verify") |} in
     try_catch (sendMail mailOptions)
       (fun emailError =>
          db_end ;;
          send (res_json 500
                  [message "User registered, but failed to send verification email"])) ;;
     db_end ;;
     send (res_json 201
             [message "User registered successfully! Please check your email for the verification code.";
              ("redirect", JStr "/verify")]))
    (fun error =>
       res_json 500 [message "Failed to register user"; ("error", JStr error)]).

(** [app.post("/api/verify-email", ...)] *)
Definition post_api_verify_email (penv : process_env) (b : req_body) : prog :=
  let email := b_email b in
  let code := b_code b in
  if negb (Js.truthy email) || negb (Js.truthy code) then
    Ret (res_json 400 [message "Missing required fields: email, code"])
  else
  let email := str email in
  let code := str code in
  async_try
    (createConnection ;;
     users ← db_select (SelectUsersByEmail email) ;
     match users with
     | [] =>
         db_end ;;
         send (res_json 404 [message "User not found"])
     | user :: _ =>
         isMatch ← bcrypt_compare code (u_verification_code user) ;
         if negb isMatch then
           db_end ;;
           send (res_json 400 [message "Invalid verification code"])
         else
         db_execute (VerifyUserByEmail email) ;;
         token ← jwt_sign_task (u_id user) (u_email user) (signing_key penv) ;
         let mailOptions :=
           {| mail_from := ("MamaCare", interpolate (penv !! "EMAIL_USER"));
              mail_to := Some email;
              mail_replyTo := None;
              mail_subject := "MamaCare Account Verified!";
              mail_html :=
                VerifiedHtml (u_name user) email
                  (if production penv then "https://mamahub.vercel.app/dashboard"
                   else "http://localhost:5173/dashboard") |} in
         try_catch (sendMail mailOptions) (fun emailError => pure VUndefined) ;;
         db_end ;;
         send (res_json 200
                 [message "Email verified successfully! You're now logged in.";
                  ("token", JToken token);
                  ("user", user_info user);
                  ("redirect", JStr "/dashboard")])
     end)
    (fun error =>
       res_json 500 [message "Failed to verify email"; ("error", JStr error)]).

(** [app.post("/api/login", ...)] *)
Definition post_api_login (penv : process_env) (b : req_body) : prog :=
  let email := b_email b in
  let password := b_password b in
  if negb (Js.truthy email) || negb (Js.truthy password) then
    Ret (res_json 400 [message "Missing required fields: email, password"])
  else
  let email := str email in
  let password := str password in
  async_try
    (createConnection ;;
     users ← db_select (SelectUsersByEmail email) ;
     match users with
     | [] =>
         db_end ;;
         send (res_json 401 [message "Invalid email or password"])
     | user :: _ =>
         if negb (u_is_verified user) then
           db_end ;;
           send (res_json 403
                   [message "Please verify your email before logging in";
                    ("redirect", JStr "/verify")])
         else
         isMatch ← bcrypt_compare password (Some (u_password user)) ;
         if negb isMatch then
           db_end ;;
           send (res_json 401 [message "Invalid email or password"])
         else
         token ← jwt_sign_task (u_id user) (u_email user) (signing_key penv) ;
         db_end ;;
         send (res_json 200
                 [message "Login successful";
                  ("token", JToken token);
                  ("user", user_info user);
                  ("redirect", JStr "/dashboard")])
     end)
    (fun error =>
       res_json 500 [message "Failed to login"; ("error", JStr error)]).

(** [app.post("/api/contact", limiter, ...)], after the limiter. *)
Definition post_api_contact (penv : process_env) (b : req_body) : prog :=
  let name := b_name b in
  let email := b_email b in
  let msg := b_message b in
  if negb (Js.truthy name) || negb (Js.truthy email) || negb (Js.truthy msg) then
    Ret (res_json 400 [message "Missing required fields: name, email, message"])
  else
  let name := str name in
  let email := str email in
  let msg := str msg in
  if negb (Regex.test emailRegex email) then
    Ret (res_json 400 [message "Invalid email format"])
  else
  if (255 <? Js.length name) || (1000 <? Js.length msg) then
    Ret (res_json 400 [message "Invalid input lengths"])
  else
  let mailOptions :=
    {| mail_from := ("MamaCare", interpolate (penv !! "EMAIL_USER"));
       mail_to := penv !! "EMAIL_USER";
       mail_replyTo := Some email;
       mail_subject := "MamaCare Contact Form - From " +:+ name;
       mail_html := ContactHtml name email msg |} in
  async_try
    (sendMail mailOptions ;;
     send (res_json 200 [message "Email sent successfully!"]))
    (fun error =>
       res_json 500 [message "Failed to send email"; ("error", JStr error)]).

End Part000.

(** ** The earlier revision, [server.js] *)

Module ServerJs.

(** Nothing is checked before [app.listen(port)]. *)
Definition startup (penv : process_env) : boot :=
  Listening (Js.or_else (penv !! "PORT") "5000").

(** [const JWT_SECRET = process.env.JWT_SECRET || "your_jwt_secret_123"] *)
Definition JWT_SECRET (penv : process_env) : string :=
  Js.or_else (penv !! "JWT_SECRET") "your_jwt_secret_123".

Definition signing_key (penv : process_env) : option string := Some (JWT_SECRET penv).

(** [authenticateToken] *)
Definition authenticateToken (penv : process_env) (now : N)
    (authHeader : option (list field)) : response + jwt :=
  let token :=
    match authHeader with
    | Some fields => nth_error fields 1
    | None => None
    end in
  match token with
  | None | Some (Word "") => inl (res_json 401 [message "Access token required"])
  | Some (Word _) => inl (res_json 403 [message "Invalid token"])
  | Some (Token t) =>
      if jwt_verify now t (JWT_SECRET penv)
      then inr t
      else inl (res_json 403 [message "Invalid token"])
  end.

(** [app.post("/api/signup", ...)] *)
Definition post_api_signup (penv : process_env) (b : req_body) : prog :=
  let name := b_name b in
  let email := b_email b in
  let password := b_password b in
  if negb (Js.truthy name) || negb (Js.truthy email) || negb (Js.truthy password) then
    Ret (res_json 400 [message "Missing required fields: name, email, password"])
  else
  let name := str name in
  let email := str email in
  let password := str password in
  if negb (Regex.test emailRegex email) then
    Ret (res_json 400 [message "Invalid email format"])
  else
  async_try
    (createConnection ;;
     existingUsers ← db_select (SelectUsersByEmail email) ;
     if 0 <? N.of_nat (List.length existingUsers) then
       db_end ;;
       send (res_json 400 [message "Email already registered"])
     else
     hashedPassword ← bcrypt_hash password 10 ;
     r ← Math_random ;
     let verificationCode := Js.toString (Js.floor_scaled 100000 900000 r) in
     hashedCode ← bcrypt_hash verificationCode 10 ;
     db_execute (InsertUser name email hashedPassword hashedCode false) ;;
     let mailOptions :=
       {| mail_from := ("MamaHub", interpolate (penv !! "EMAIL_USER"));
          mail_to := Some email;
          mail_replyTo := None;
          mail_subject := "Welcome to MamaHub! Verify Your Email";
          mail_html := WelcomeHtml name verificationCode "" |} in
     try_catch (sendMail mailOptions)
       (fun emailError =>
          db_end ;;
          send (res_json 500
                  [message "User registered, but failed to send verification email"])) ;;
     db_end ;;
     send (res_json 201
             [message "User registered successfully! Please check your email for the verification code."]))
    (fun error =>
       res_json 500 [message "Failed to register user"; ("error", JStr error)]).

(** [app.post("/api/verify-email", ...)] *)
Definition post_api_verify_email (penv : process_env) (b : req_body) : prog :=
  let email := b_email b in
  let code := b_code b in
  if negb (Js.truthy email) || negb (Js.truthy code) then
    Ret (res_json 400 [message "Missing required fields: email, code"])
  else
  let email := str email in
  let code := str code in
  async_try
    (createConnection ;;
     users ← db_select (SelectUsersByEmail email) ;
     match users with
     | [] =>
         db_end ;;
         send (res_json 404 [message "User not found"])
     | user :: _ =>
         isMatch ← bcrypt_compare code (u_verification_code user) ;
         if negb isMatch then
           db_end ;;
           send (res_json 400 [message "Invalid verification code"])
         else
         db_execute (VerifyUserByEmail email) ;;
         db_end ;;
         send (res_json 200 [message "Email verified successfully!"])
     end)
    (fun error =>
       res_json 500 [message "Failed to verify email"; ("error", JStr error)]).

(** [app.post("/api/login", ...)] *)
Definition post_api_login (penv : process_env) (b : req_body) : prog :=
  let email := b_email b in
  let password := b_password b in
  if negb (Js.truthy email) || negb (Js.truthy password) then
    Ret (res_json 400 [message "Missing required fields: email, password"])
  else
  let email := str email in
  let password := str password in
  async_try
    (createConnection ;;
     users ← db_select (SelectUsersByEmail email) ;
     match users with
     | [] =>
         db_end ;;
         send (res_json 401 [message "Invalid email or password"])
     | user :: _ =>
         if negb (u_is_verified user) then
           db_end ;;
           send (res_json 403 [message "Please verify your email before logging in"])
         else
         isMatch ← bcrypt_compare password (Some (u_password user)) ;
         if negb isMatch then
           db_end ;;
           send (res_json 401 [message "Invalid email or password"])
         else
         token ← jwt_sign_task (u_id user) (u_email user) (signing_key penv) ;
         db_end ;;
         send (res_json 200 [message "Login successful"; ("token", JToken token)])
     end)
    (fun error =>
       res_json 500 [message "Failed to login"; ("error", JStr error)]).

(** [app.post("/api/contact", ...)] *)
Definition post_api_contact (penv : process_env) (b : req_body) : prog :=
  let name := b_name b in
  let email := b_email b in
  let msg := b_message b in
  if negb (Js.truthy name) || negb (Js.truthy email) || negb (Js.truthy msg) then
    Ret (res_json 400 [message "Missing required fields: name, email, message"])
  else
  let name := str name in
  let email := str email in
  let msg := str msg in
  if negb (Regex.test emailRegex email) then
    Ret (res_json 400 [message "Invalid email format"])
  else
  let mailOptions :=
    {| mail_from := (name, interpolate (penv !! "EMAIL_USER"));
       mail_to := penv !! "EMAIL_USER";
       mail_replyTo := Some email;
       mail_subject := "MamaHub Contact Form - From " +:+ name;
       mail_html := ContactHtml name email msg |} in
  async_try
    (sendMail mailOptions ;;
     send (res_json 200 [message "Email sent successfully!"]))
    (fun error =>
       res_json 500 [message "Failed to send email"; ("error", JStr error)]).

End ServerJs.

(** ** Routing *)

Inductive method : Type := GET | HEAD | POST | OPTIONS | OtherMethod.

Inductive middleware : Type := Limiter | AuthenticateToken.

Inductive endpoint : Type :=
| Preflight | Health | TestDb
| Signup | VerifyEmail | Login | Contact
| AddBaby | GetBabies | AddSchedule | GetSchedules | AddExpense | GetExpenses
| AddMilestone | GetMilestones | AddDailyRead | GetDailyReads
| AddScripture | GetScriptures | GetUser
| NotFound.

#[global] Instance method_eq_dec : EqDecision method.
Proof. solve_decision. Defined.
#[global] Instance middleware_eq_dec : EqDecision middleware.
Proof. solve_decision. Defined.
#[global] Instance endpoint_eq_dec : EqDecision endpoint.
Proof. solve_decision. Defined.

(** A layer of the application's stack.  Paths are their segments:
    ["/api/signup"] is [["api"; "signup"]], and a path that ends in a slash
    has an empty last segment. *)
Inductive layer : Type :=
| Use (mount : list string) (m : middleware)
    (* app.use(mount, m): every method, every path under [mount] *)
| Route (verb : method) (path : list string) (ms : list middleware) (e : endpoint)
    (* app.get / app.post (path, ...ms, handler) *).

Record request : Type := {
  req_method : method;
  req_path : list string;
  req_ip : string;
  req_authorization : option (list field);
  req_json : req_body
}.

(** Express matches a path by an expression with the [i] flag
    ([case sensitive routing] is off): the letters a to z match in either
    case, and no character outside ASCII matches an ASCII one. *)
Definition canonicalize_char (c : ascii) : ascii :=
  let n := N_of_ascii c in
  if (97 <=? n) && (n <=? 122) then ascii_of_N (n - 32) else c.

Fixpoint canonicalize (s : string) : string :=
  match s with
  | EmptyString => EmptyString
  | String c s' => String (canonicalize_char c) (canonicalize s')
  end.

Definition same_path (p q : list string) : bool :=
  bool_decide (List.map canonicalize p = List.map canonicalize q).

(** [app.use(mount, ...)]: the path is the mount or lies under it. *)
Definition under (mount path : list string) : bool :=
  bool_decide (List.map canonicalize mount `prefix_of` List.map canonicalize path).

(** [app.get(route, ...)], [app.post(route, ...)]: the path is the route,
    with or without a slash at its end ([strict routing] is off). *)
Definition at_route (route path : list string) : bool :=
  same_path route path || same_path (route ++ [""]) path.

(** A route declared for [GET] serves [HEAD] as well. *)
Definition serves (verb m : method) : bool :=
  bool_decide (verb = m) || (bool_decide (verb = GET) && bool_decide (m = HEAD)).

(** The middlewares a request passes, in order, and the handler it ends
    at: [next()] walks the stack until a route matches. *)
Fixpoint pipeline (stack : list layer) (req : request) : list middleware * endpoint :=
  match stack with
  | [] => ([], NotFound)
  | Use mount m :: rest =>
      if under mount (req_path req)
      then let '(ms, e) := pipeline rest req in (m :: ms, e)
      else pipeline rest req
  | Route verb path ms e :: rest =>
      if serves verb (req_method req) && at_route path (req_path req)
      then (ms, e)
      else pipeline rest req
  end.

(** [cors(...)] answers every [OPTIONS] request itself, ahead of the stack;
    [helmet()] and [express.json()] pass a parsed request on.  A request
    here is one whose body [express.json()] has parsed. *)
Definition dispatch (stack : list layer) (req : request) : list middleware * endpoint :=
  if bool_decide (req_method req = OPTIONS) then ([], Preflight) else pipeline stack req.

Definition too_many_requests : response :=
  {| status := 429; body := JStr "Too many requests, please try again later." |}.

(** The limiter as a middleware: count the request under the client's
    address, then [next()] or the throttling response. *)
Definition limiter (req : request) (next : prog) : prog :=
  Await (LimiterHit (req_ip req))
    (fun r => match r with inl (VBool true) => next | _ => Ret too_many_requests end).

Module Part000Routes.
Import Part000.

Definition stack : list layer :=
  [ Use ["api"; "signup"] Limiter;
    Use ["api"; "login"] Limiter;
    Use ["api"; "verify-email"] Limiter;
    Route GET [] [] Health;
    Route GET ["api"; "test-db"] [] TestDb;
    Route POST ["api"; "signup"] [] Signup;
    Route POST ["api"; "verify-email"] [] VerifyEmail;
    Route POST ["api"; "login"] [] Login;
    Route POST ["api"; "contact"] [Limiter] Contact;
    Route POST ["api"; "babies"] [AuthenticateToken] AddBaby;
    Route GET ["api"; "babies"] [AuthenticateToken] GetBabies;
    Route POST ["api"; "schedules"] [AuthenticateToken] AddSchedule;
    Route GET ["api"; "schedules"] [AuthenticateToken] GetSchedules;
    Route POST ["api"; "expenses"] [AuthenticateToken] AddExpense;
    Route GET ["api"; "expenses"] [AuthenticateToken] GetExpenses;
    Route POST ["api"; "milestones"] [AuthenticateToken] AddMilestone;
    Route GET ["api"; "milestones"] [AuthenticateToken] GetMilestones;
    Route POST ["api"; "daily_reads"] [AuthenticateToken] AddDailyRead;
    Route GET ["api"; "daily_reads"] [AuthenticateToken] GetDailyReads;
    Route POST ["api"; "scriptures"] [AuthenticateToken] AddScripture;
    Route GET ["api"; "scriptures"] [AuthenticateToken] GetScriptures;
    Route GET ["api"; "user"] [AuthenticateToken] GetUser ].

(** The handlers embedded here; the resource routes are not. *)
Definition handler (penv : process_env) (e : endpoint) : option (req_body -> prog) :=
  match e with
  | Preflight => Some (fun _ => Ret {| status := 204; body := JNull |})
  | Health => Some (fun _ => Ret (res_json 200 [message "MamaCare API is running!"]))
  | Signup => Some (post_api_signup penv)
  | VerifyEmail => Some (post_api_verify_email penv)
  | Login => Some (post_api_login penv)
  | Contact => Some (post_api_contact penv)
  | NotFound => Some (fun _ => Ret (res_json 404 [message "Endpoint not found"]))
  | _ => None
  end.

Fixpoint through (penv : process_env) (ms : list middleware) (req : request)
    (next : prog) : prog :=
  match ms with
  | [] => next
  | Limiter :: rest => limiter req (through penv rest req next)
  | AuthenticateToken :: rest =>
      Await DateNow
        (fun r =>
           match r with
           | inl (VNum now) =>
               match authenticateToken penv now (req_authorization req) with
               | inl denied => Ret denied
               | inr _ => through penv rest req next
               end
           | _ => Ret (res_json 403 [message "Invalid token"])
           end)
  end.

(** The whole application on one request. *)
Definition app (penv : process_env) (req : request) : option prog :=
  let '(ms, e) := dispatch stack req in
  match handler penv e with
  | Some h => Some (through penv ms req (h (req_json req)))
  | None => None
  end.

End Part000Routes.

Module ServerJsRoutes.
Import ServerJs.

Definition stack : list layer :=
  [ Route GET [] [] Health;
    Route GET ["api"; "test-db"] [] TestDb;
    Route POST ["api"; "signup"] [] Signup;
    Route POST ["api"; "verify-email"] [] VerifyEmail;
    Route POST ["api"; "login"] [] Login;
    Route POST ["api"; "contact"] [] Contact;
    Route POST ["api"; "babies"] [AuthenticateToken] AddBaby;
    Route GET ["api"; "user"] [AuthenticateToken] GetUser;
    Route POST ["api"; "schedules"] [AuthenticateToken] AddSchedule;
    Route POST ["api"; "expenses"] [AuthenticateToken] AddExpense;
    Route POST ["api"; "milestones"] [AuthenticateToken] AddMilestone;
    Route POST ["api"; "daily_reads"] [AuthenticateToken] AddDailyRead;
    Route GET ["api"; "daily_reads"] [AuthenticateToken] GetDailyReads;
    Route POST ["api"; "scriptures"] [AuthenticateToken] AddScripture ].

Definition handler (penv : process_env) (e : endpoint) : option (req_body -> prog) :=
  match e with
  | Preflight => Some (fun _ => Ret {| status := 204; body := JNull |})
  | Health => Some (fun _ => Ret (res_json 200 [message "MamaHub API is running!"]))
  | Signup => Some (post_api_signup penv)
  | VerifyEmail => Some (post_api_verify_email penv)
  | Login => Some (post_api_login penv)
  | Contact => Some (post_api_contact penv)
  | _ => None
  end.

(** No middleware stands before the account routes of this revision. *)
Definition app (penv : process_env) (req : request) : option prog :=
  let '(ms, e) := dispatch stack req in
  match ms, handler penv e with
  | [], Some h => Some (h (req_json req))
  | _, _ => None
  end.

End ServerJsRoutes.

Inductive revision : Type := Later | Earlier.

Definition app (rev : revision) : process_env -> request -> option prog :=
  match rev with
  | Later => Part000Routes.app
  | Earlier => ServerJsRoutes.app
  end.

(** The three operations of the account lifecycle, in either revision. *)
Definition signup (rev : revision) : process_env -> req_body -> prog :=
  match rev with
  | Later => Part000.post_api_signup
  | Earlier => ServerJs.post_api_signup
  end.

Definition verify_email (rev : revision) : process_env -> req_body -> prog :=
  match rev with
  | Later => Part000.post_api_verify_email
  | Earlier => ServerJs.post_api_verify_email
  end.

Definition login (rev : revision) : process_env -> req_body -> prog :=
  match rev with
  | Later => Part000.post_api_login
  | Earlier => ServerJs.post_api_login
  end.

(** ** Requests in flight *)

(** The server between events: the world and the handlers started so far,
    each at its next [await] or at the response it has sent. *)
Record system : Type := {
  sys_world : world;
  sys_tasks : list prog
}.

Inductive event : Type :=
| Arrive (req : request)
| Advance (i : nat) (c : choice)
| Tick (dt : N).

Definition step (serve : request -> option prog) (s : system) (ev : event) : system :=
  match ev with
  | Arrive req =>
      match serve req with
      | Some p => {| sys_world := sys_world s; sys_tasks := sys_tasks s ++ [p] |}
      | None => s
      end
  | Advance i c =>
      match sys_tasks s !! i with
      | Some (Await o k) =>
          let '(w, v) := exec c (sys_world s) o in
          {| sys_world := w; sys_tasks := <[i := k v]> (sys_tasks s) |}
      | _ => s
      end
  | Tick dt =>
      {| sys_world := set_clock (sys_world s) (clock (sys_world s) + dt);
         sys_tasks := sys_tasks s |}
  end.

Definition play (serve : request -> option prog) (evs : list event) (s : system) : system :=
  fold_left (step serve) evs s.

Definition boot_system : system := {| sys_world := empty_world; sys_tasks := [] |}.


(** ** Reading responses and rows *)

Definition json_field (k : string) (j : json) : option json :=
  match j with
  | JObj fields =>
      match List.find (fun kv => String.eqb (fst kv) k) fields with
      | Some (_, v) => Some v
      | None => None
      end
  | _ => None
  end.

Definition message_of (r : response) : option string :=
  match json_field "message" (body r) with
  | Some (JStr s) => Some s
  | _ => None
  end.

Definition token_of (r : response) : option jwt :=
  match json_field "token" (body r) with
  | Some (JToken t) => Some t
  | _ => None
  end.

Definition keys (j : json) : list string :=
  match j with
  | JObj fields => List.map fst fields
  | _ => []
  end.

(** Whether a digest occurs anywhere in a JSON value. *)
Fixpoint mentions_digest (j : json) : bool :=
  match j with
  | JDigest _ => true
  | JObj fields => existsb (fun kv => mentions_digest (snd kv)) fields
  | _ => false
  end.

Definition has_code (u : user) : bool :=
  match u_verification_code u with
  | Some _ => true
  | None => false
  end.

(** The two states of an account. *)
Definition is_pending (u : user) : bool := negb (u_is_verified u) && has_code u.
Definition is_active (u : user) : bool := u_is_verified u && negb (has_code u).

(** The account a lookup by e-mail yields: the first matching row. *)
Definition account (w : world) (email : string) : option user :=
  List.find (has_email email) (users w).

(** The response that reports a duplicate address. *)
Definition conflict : response := res_json 400 [message "Email already registered"].

(** A handler that only ever inserts unverified rows. *)
Definition inserts_pending (o : op) : Prop :=
  match o with
  | Execute (InsertUser _ _ _ _ v) => v = false
  | _ => True
  end.

Inductive tame : prog -> Prop :=
| tame_ret (r : response) : tame (Ret r)
| tame_await (o : op) (k : value + error -> prog) :
    inserts_pending o -> (forall r, tame (k r)) -> tame (Await o k).

(** Row [u] a moment later: untouched, or a pending row that an update has
    made active. *)
Definition row_later (u u' : user) : Prop :=
  u' = u \/ (is_pending u = true /\ u' = verified_row u /\ is_active u' = true).

(** Every row of [before] is still there in [after], at its place. *)
Definition table_later (before after : list user) : Prop :=
  exists rows more, after = rows ++ more /\ Forall2 row_later before rows.

(** A row in one of the two states; then it is verified exactly when it
    holds no code. *)
Definition consistent (u : user) : Prop :=
  (is_pending u = true \/ is_active u = true) /\
  u_is_verified u = negb (has_code u).

(** The invariant of the running server: every handler in flight is tame
    and every row is in one of the two states. *)
Definition sound (s : system) : Prop :=
  Forall tame (sys_tasks s) /\ Forall consistent (users (sys_world s)).

(** The routes the spec names as rate limited: signup, login, verify and
    contact.  The first three are mounted with [app.use], which covers
    every method and all that lies under them; the contact route is the
    [POST] route alone. *)
Definition sensitive_route (req : request) : bool :=
  under ["api"; "signup"] (req_path req) ||
  under ["api"; "login"] (req_path req) ||
  under ["api"; "verify-email"] (req_path req) ||
  (bool_decide (req_method req = POST) && at_route ["api"; "contact"] (req_path req)).

(** A request the limiter has to count: [cors] answers [OPTIONS] ahead of
    it. *)
Definition limited (req : request) : bool :=
  negb (bool_decide (req_method req = OPTIONS)) && sensitive_route req.

(** A handler past the limiter: it does not count requests and does not
    answer with the throttling status. *)
Inductive inner : prog -> Prop :=
| inner_ret (r : response) : status r <> 429 -> inner (Ret r)
| inner_await (o : op) (k : value + error -> prog) :
    (forall key, o <> LimiterHit key) -> (forall r, inner (k r)) -> inner (Await o k).

(** One request of a run: when it arrives, what the surroundings decide
    while it is served, and the request. *)
Record arrival : Type := {
  at_ms : N;
  around : env;
  what : request
}.

(** The later revision serving one request to completion at its arrival
    time.  The resource routes are not part of [Part000Routes.app]; a
    request to one of them leaves the world as it is. *)
Definition serve_one (penv : process_env) (w : world) (a : arrival) : world * option result :=
  match Part000Routes.app penv (what a) with
  | Some p =>
      let r := run (around a) 0 (set_clock w (at_ms a)) p in
      (final r, Some r)
  | None => (set_clock w (at_ms a), None)
  end.

(** Requests served one after the other. *)
Fixpoint serve_all (penv : process_env) (w : world) (l : list arrival)
    : world * list (option result) :=
  match l with
  | [] => (w, [])
  | a :: rest =>
      let '(w1, r) := serve_one penv w a in
      let '(w2, rs) := serve_all penv w1 rest in
      (w2, r :: rs)
  end.

(** The requests of a run that the limiter counts for [key]. *)
Definition counted (key : string) (a : arrival) : bool :=
  String.eqb (req_ip (what a)) key && limited (what a).

(** A request that got past the limiter to an answer of its handler. *)
Definition let_through (r : option result) : Prop :=
  exists res, r = Some res /\ status (reply res) <> 429.

(** ** Notions for the further properties *)

(** The language of a regular expression: the sequences of code units it
    denotes. *)
Inductive matches : Regex.re -> list N -> Prop :=
| matches_eps : matches Regex.Eps []
| matches_class (p : N -> bool) (c : N) :
    p c = true -> matches (Regex.Class p) [c]
| matches_seq (r1 r2 : Regex.re) (l1 l2 : list N) :
    matches r1 l1 -> matches r2 l2 -> matches (Regex.Seq r1 r2) (l1 ++ l2)
| matches_alt_l (r1 r2 : Regex.re) (l : list N) :
    matches r1 l -> matches (Regex.Alt r1 r2) l
| matches_alt_r (r1 r2 : Regex.re) (l : list N) :
    matches r2 l -> matches (Regex.Alt r1 r2) l
| matches_star_nil (r : Regex.re) : matches (Regex.Star r) []
| matches_star_more (r : Regex.re) (l1 l2 : list N) :
    matches r l1 -> matches (Regex.Star r) l2 -> matches (Regex.Star r) (l1 ++ l2).

(** The code units of white space, by their numbers. *)
Definition white_space : list N :=
  [9; 10; 11; 12; 13; 32; 160; 5760;
   8192; 8193; 8194; 8195; 8196; 8197; 8198; 8199; 8200; 8201; 8202;
   8232; 8233; 8239; 8287; 12288; 65279].

(** A non-empty run of code units, none of them white space or [@]. *)
Definition plain (l : list N) : Prop :=
  l <> [] /\ forall c, In c l -> ~ In c white_space /\ c <> 64.

(** [local@domain.tld], in code units: [@] is 64 and the dot 46. *)
Definition email_shaped (s : string) : Prop :=
  exists a b c, Js.units s = a ++ [64] ++ b ++ [46] ++ c /\ plain a /\ plain b /\ plain c.

(** [authenticateToken] and the contact route of either revision. *)
Definition gate (rev : revision) : process_env -> N -> option (list field) -> response + jwt :=
  match rev with
  | Later => Part000.authenticateToken
  | Earlier => ServerJs.authenticateToken
  end.

Definition contact (rev : revision) : process_env -> req_body -> prog :=
  match rev with
  | Later => Part000.post_api_contact
  | Earlier => ServerJs.post_api_contact
  end.

(** The key the revision signs and verifies with, if it has one. *)
Definition configured_key (rev : revision) (penv : process_env) : option string :=
  match rev with
  | Later => Part000.signing_key penv
  | Earlier => ServerJs.signing_key penv
  end.

(** The code a welcome mail carries. *)
Definition mailed_code (m : mail) : option string :=
  match mail_html m with
  | WelcomeHtml _ code _ => Some code
  | _ => None
  end.

(** The body [{ email, code }] of a verification request. *)
Definition code_request (email code : string) : req_body :=
  {| b_name := None; b_email := Some email; b_password := None; b_code := Some code;
     b_message := None |}.

(** What both signup handlers test before they await anything; the later
    revision adds the length bounds. *)
Definition signup_validated (rev : revision) (b : req_body) : Prop :=
  Js.truthy (b_name b) = true /\
  Js.truthy (b_email b) = true /\
  Js.truthy (b_password b) = true /\
  Regex.test emailRegex (str (b_email b)) = true /\
  (rev = Later ->
   Js.length (str (b_name b)) <= 255 /\ Js.length (str (b_email b)) <= 255 /\
   8 <= Js.length (str (b_password b))).

(** A run that ended before its first [await]. *)
Definition answered_at_once (w : world) (r : response) : result :=
  {| final := w; reply := r; trace := [] |}.

(** ** The resource routes

    Babies, schedules, expenses, milestones, daily reads, scriptures and the
    user's own record: thin handlers behind [authenticateToken].  Their
    tables and columns are not in the repository, so the statements are not
    interpreted here: a handler is the tree of the operations it issues,
    each with its statement text and its parameters, and what the database
    answers is for the surroundings to say. *)

Module Resources.

(** A value a field of [req.body] may hold: missing, [null], an integer or
    a string. *)
Inductive jsval : Type :=
| Undefined
| Null
| Number (z : Z)
| Text (s : string).

(** [!!v] *)
Definition truthy (v : jsval) : bool :=
  match v with
  | Number z => negb (Z.eqb z 0)
  | Text s => negb (String.eqb s "")
  | Undefined | Null => false
  end.

(** [v || null] *)
Definition or_null (v : jsval) : jsval := if truthy v then v else Null.

(** [String(v)], as [RegExp.prototype.test] coerces its argument. *)
Definition to_string (v : jsval) : string :=
  match v with
  | Undefined => "undefined"
  | Null => "null"
  | Number z => NilEmpty.string_of_int (Z.to_int z)
  | Text s => s
  end.

(** [s.toLowerCase()] as far as the comparison with ["male"] and
    ["female"] can tell: the letters A to Z; no other character becomes
    one of theirs. *)
Definition lower_char (c : ascii) : ascii :=
  let n := N_of_ascii c in
  if (65 <=? n) && (n <=? 90) then ascii_of_N (n + 32) else c.

Fixpoint toLowerCase (s : string) : string :=
  match s with
  | EmptyString => EmptyString
  | String c s' => String (lower_char c) (toLowerCase s')
  end.

(** [\d] *)
Definition digit (c : N) : bool := (48 <=? c) && (c <=? 57).

(** [/^\d{4}-\d{2}-\d{2}$/] *)
Definition dateRegex : Regex.re :=
  let d := Regex.Class digit in
  let dash := Regex.Class (Regex.char "-") in
  Regex.Seq d (Regex.Seq d (Regex.Seq d (Regex.Seq d
    (Regex.Seq dash (Regex.Seq d (Regex.Seq d
      (Regex.Seq dash (Regex.Seq d d)))))))).

(** A row as the driver returns it. *)
Definition row : Type := list (string * jsval).

Inductive content : Type :=
| Fields (fs : list (string * string))   (* res.json({ message, error }) *)
| Row (r : row)                          (* res.json(rows[0]) *)
| Rows (rs : list row)                   (* res.json(rows) *).

Record reply : Type := {
  code : N;
  content_of : content
}.

Definition say (c : N) (text : string) : reply :=
  {| code := c; content_of := Fields [("message", text)] |}.

Definition fail (text : string) (err : error) : reply :=
  {| code := 500; content_of := Fields [("message", text); ("error", err)] |}.

Inductive rop : Type :=
| Connect                                            (* mysql.createConnection(dbConfig) *)
| Query (statement : string) (params : list jsval)   (* db.execute(statement, params) *)
| End                                                (* db.end() *).

(** A handler: at a response it has sent, at a rejection nothing in the
    handler catches, or at its next [await]. *)
Inductive rprog : Type :=
| Sent (r : reply)
| Rejected (e : error)
| Wait (o : rop) (k : list row + error -> rprog).

Definition rtask (A : Type) : Type := (A -> rprog) -> (error -> rprog) -> rprog.

#[global] Instance rtask_ret : MRet rtask := fun A a k _ => k a.
#[global] Instance rtask_bind : MBind rtask := fun A B f m k h => m (fun a => f a k h) h.

Definition wait (o : rop) : rtask (list row) :=
  fun k h => Wait o (fun r => match r with inl rows => k rows | inr e => h e end).

Definition respond {A} (r : reply) : rtask A := fun _ _ => Sent r.

(** [try { m } catch (error) { res.status(500).json({ message, error: error.message }) }] *)
Definition try_or_500 (m : rtask Empty_set) (text : string) : rprog :=
  m (fun v => match v with end) (fun e => Sent (fail text e)).

(** The [try] block of every route that inserts. *)
Definition insert_then (statement : string) (params : list jsval) (created failed : string)
    : rprog :=
  try_or_500
    (wait Connect ;;
     wait (Query statement params) ;;
     wait End ;;
     respond (say 201 created))
    failed.

(** The [try] block of every route that lists. *)
Definition select_then (statement : string) (params : list jsval) (failed : string) : rprog :=
  try_or_500
    (wait Connect ;;
     rows ← wait (Query statement params) ;
     wait End ;;
     respond {| code := 200; content_of := Rows rows |})
    failed.

(** [req.user.userId] *)
Definition userId (user : jwt) : jsval := Number (Z.of_N (jwt_userId user)).

Definition handler : Type := jwt -> (string -> jsval) -> rprog.

(** [app.post("/api/babies", authenticateToken, ...)], later revision *)
Definition post_api_babies : handler := fun user body =>
  let name := body "name" in
  let birth_date := body "birth_date" in
  let gender := body "gender" in
  if negb (truthy name) || negb (truthy birth_date) || negb (truthy gender) then
    Sent (say 400 "Missing required fields: name, birth_date, gender")
  else
  let too_long := match name with Text s => 255 <? Js.length s | _ => false end in
  if too_long || negb (Regex.test dateRegex (to_string birth_date)) then
    Sent (say 400 "Invalid input format")
  else
  match gender with
  | Text g =>
      if negb (existsb (String.eqb (toLowerCase g)) ["male"; "female"]) then
        Sent (say 400 "Invalid input format")
      else
        insert_then "INSERT INTO babies (user_id, name, birth_date, gender) VALUES (?, ?, ?, ?)"
          [userId user; name; birth_date; gender]
          "Baby profile added!" "Failed to add baby profile"
  | _ => Rejected "gender.toLowerCase is not a function"
  end.

(** [app.post("/api/babies", authenticateToken, ...)], earlier revision *)
Definition post_api_babies_earlier : handler := fun user body =>
  let name := body "name" in
  let birth_date := body "birth_date" in
  let gender := body "gender" in
  if negb (truthy name) || negb (truthy birth_date) || negb (truthy gender) then
    Sent (say 400 "Missing required fields: name, birth_date, gender")
  else
  insert_then "INSERT INTO babies (user_id, name, birth_date, gender) VALUES (?, ?, ?, ?)"
    [userId user; name; birth_date; gender]
    "Baby profile added!" "Failed to add baby profile".

(** [app.get("/api/babies", ...)] *)
Definition get_api_babies : handler := fun user body =>
  select_then "SELECT id, name, birth_date, gender FROM babies WHERE user_id = ?"
    [userId user] "Failed to fetch baby profiles".

(** [app.post("/api/schedules", ...)], the same in both revisions *)
Definition post_api_schedules : handler := fun user body =>
  let baby_id := body "baby_id" in
  let type := body "type" in
  let scheduled_time := body "scheduled_time" in
  let notes := body "notes" in
  if negb (truthy baby_id) || negb (truthy type) || negb (truthy scheduled_time) then
    Sent (say 400 "Missing required fields: baby_id, type, scheduled_time")
  else
  insert_then "INSERT INTO schedules (baby_id, type, scheduled_time, notes) VALUES (?, ?, ?, ?)"
    [baby_id; type; scheduled_time; or_null notes]
    "Schedule added!" "Failed to add schedule".

(** [app.get("/api/schedules", ...)] *)
Definition get_api_schedules : handler := fun user body =>
  select_then
    "SELECT id, baby_id, type, scheduled_time, notes FROM schedules WHERE baby_id IN (SELECT id FROM babies WHERE user_id = ?)"
    [userId user] "Failed to fetch schedules".

(** [app.post("/api/expenses", ...)], the same in both revisions *)
Definition post_api_expenses : handler := fun user body =>
  let baby_id := body "baby_id" in
  let category := body "category" in
  let amount := body "amount" in
  let description := body "description" in
  let expense_date := body "expense_date" in
  if negb (truthy category) || negb (truthy amount) || negb (truthy expense_date) then
    Sent (say 400 "Missing required fields: category, amount, expense_date")
  else
  insert_then
    "INSERT INTO expenses (user_id, baby_id, category, amount, description, expense_date) VALUES (?, ?, ?, ?, ?, ?)"
    [userId user; or_null baby_id; category; amount; or_null description; expense_date]
    "Expense added!" "Failed to add expense".

(** [app.get("/api/expenses", ...)] *)
Definition get_api_expenses : handler := fun user body =>
  select_then
    "SELECT id, baby_id, category, amount, description, expense_date FROM expenses WHERE user_id = ?"
    [userId user] "Failed to fetch expenses".

(** [app.post("/api/milestones", ...)], the same in both revisions *)
Definition post_api_milestones : handler := fun user body =>
  let baby_id := body "baby_id" in
  let title := body "title" in
  let description := body "description" in
  let milestone_date := body "milestone_date" in
  let photo_url := body "photo_url" in
  if negb (truthy baby_id) || negb (truthy title) || negb (truthy milestone_date) then
    Sent (say 400 "Missing required fields: baby_id, title, milestone_date")
  else
  insert_then
    "INSERT INTO milestones (baby_id, title, description, milestone_date, photo_url) VALUES (?, ?, ?, ?, ?)"
    [baby_id; title; or_null description; milestone_date; or_null photo_url]
    "Milestone added!" "Failed to add milestone".

(** [app.get("/api/milestones", ...)] *)
Definition get_api_milestones : handler := fun user body =>
  select_then
    "SELECT id, baby_id, title, description, milestone_date, photo_url FROM milestones WHERE baby_id IN (SELECT id FROM babies WHERE user_id = ?)"
    [userId user] "Failed to fetch milestones".

(** [app.post("/api/daily_reads", ...)], the same in both revisions *)
Definition post_api_daily_reads : handler := fun user body =>
  let title := body "title" in
  let content := body "content" in
  let published_date := body "published_date" in
  if negb (truthy title) || negb (truthy content) || negb (truthy published_date) then
    Sent (say 400 "Missing required fields: title, content, published_date")
  else
  insert_then "INSERT INTO daily_reads (title, content, published_date) VALUES (?, ?, ?)"
    [title; content; published_date]
    "Daily read added!" "Failed to add daily read".

(** [app.get("/api/daily_reads", ...)], later revision *)
Definition get_api_daily_reads : handler := fun user body =>
  select_then
    "SELECT id, title, content, published_date FROM daily_reads ORDER BY published_date DESC"
    [] "Failed to fetch daily reads".

(** [app.get("/api/daily_reads", ...)], earlier revision *)
Definition get_api_daily_reads_earlier : handler := fun user body =>
  select_then "SELECT * FROM daily_reads ORDER BY published_date DESC"
    [] "Failed to fetch daily reads".

(** [app.post("/api/scriptures", ...)], the same in both revisions *)
Definition post_api_scriptures : handler := fun user body =>
  let verse := body "verse" in
  let reference := body "reference" in
  if negb (truthy verse) || negb (truthy reference) then
    Sent (say 400 "Missing required fields: verse, reference")
  else
  insert_then "INSERT INTO scriptures (user_id, verse, reference) VALUES (?, ?, ?)"
    [userId user; verse; reference]
    "Scripture added!" "Failed to add scripture".

(** [app.get("/api/scriptures", ...)] *)
Definition get_api_scriptures : handler := fun user body =>
  select_then "SELECT id, verse, reference FROM scriptures WHERE user_id = ?"
    [userId user] "Failed to fetch scriptures".

(** [app.get("/api/user", ...)], the same in both revisions *)
Definition get_api_user : handler := fun user body =>
  try_or_500
    (wait Connect ;;
     users ← wait (Query "SELECT id, name, email FROM users WHERE id = ?" [userId user]) ;
     match users with
     | [] =>
         wait End ;;
         respond (say 404 "User not found")
     | first :: _ =>
         wait End ;;
         respond {| code := 200; content_of := Row first |}
     end)
    "Failed to fetch user data".

(** The handler a revision has for an endpoint. *)
Definition handler_of (rev : revision) (ep : endpoint) : option handler :=
  match rev, ep with
  | Later, AddBaby => Some post_api_babies
  | Earlier, AddBaby => Some post_api_babies_earlier
  | Later, GetBabies => Some get_api_babies
  | _, AddSchedule => Some post_api_schedules
  | Later, GetSchedules => Some get_api_schedules
  | _, AddExpense => Some post_api_expenses
  | Later, GetExpenses => Some get_api_expenses
  | _, AddMilestone => Some post_api_milestones
  | Later, GetMilestones => Some get_api_milestones
  | _, AddDailyRead => Some post_api_daily_reads
  | Later, GetDailyReads => Some get_api_daily_reads
  | Earlier, GetDailyReads => Some get_api_daily_reads_earlier
  | _, AddScripture => Some post_api_scriptures
  | Later, GetScriptures => Some get_api_scriptures
  | _, GetUser => Some get_api_user
  | _, _ => None
  end.

(** What the database answers at each operation of a run. *)
Definition database : Type := nat -> list row + error.

Record outcome : Type := {
  answer : reply + error;
  ops : list rop
}.

Fixpoint rrun (db : database) (i : nat) (p : rprog) : outcome :=
  match p with
  | Sent r => {| answer := inl r; ops := [] |}
  | Rejected e => {| answer := inr e; ops := [] |}
  | Wait o k =>
      let r := rrun db (S i) (k (db i)) in
      {| answer := answer r; ops := o :: ops r |}
  end.

(** A request to a resource route. *)
Record rrequest : Type := {
  rr_method : method;
  rr_path : list string;
  rr_authorization : option (list field);
  rr_body : string -> jsval
}.

Definition route_of (r : rrequest) : request :=
  {| req_method := rr_method r; req_path := rr_path r; req_ip := "";
     req_authorization := rr_authorization r;
     req_json := {| b_name := None; b_email := None; b_password := None; b_code := None;
                    b_message := None |} |}.

Definition stack_of (rev : revision) : list layer :=
  match rev with
  | Later => Part000Routes.stack
  | Earlier => ServerJsRoutes.stack
  end.

(** [res.status(..).json({ message })] of the gate, as a reply. *)
Definition denied_reply (r : response) : reply :=
  say (status r) (default "" (message_of r)).

(** A request on its way through the stack to a resource handler: the
    route's middlewares in order, then the handler. *)
Definition behind (rev : revision) (penv : process_env) (now : N) (ms : list middleware)
    (r : rrequest) (h : handler) : option rprog :=
  match ms with
  | [] => None
  | [AuthenticateToken] =>
      match gate rev penv now (rr_authorization r) with
      | inl denied => Some (Sent (denied_reply denied))
      | inr user => Some (h user (rr_body r))
      end
  | _ => None
  end.

Definition serve (rev : revision) (penv : process_env) (now : N) (r : rrequest)
    : option rprog :=
  let '(ms, ep) := dispatch (stack_of rev) (route_of r) in
  match handler_of rev ep with
  | Some h => behind rev penv now ms r h
  | None => None
  end.

(** The endpoints behind the gate. *)
Definition resource (ep : endpoint) : bool :=
  match ep with
  | AddBaby | GetBabies | AddSchedule | GetSchedules | AddExpense | GetExpenses
  | AddMilestone | GetMilestones | AddDailyRead | GetDailyReads
  | AddScripture | GetScriptures | GetUser => true
  | _ => false
  end.

(** The routes that read. *)
Definition reads (ep : endpoint) : bool :=
  match ep with
  | GetBabies | GetSchedules | GetExpenses | GetMilestones | GetDailyReads
  | GetScriptures | GetUser => true
  | _ => false
  end.

(** The fields a route that inserts asks for, by its own message. *)
Definition required (ep : endpoint) : list string :=
  match ep with
  | AddBaby => ["name"; "birth_date"; "gender"]
  | AddSchedule => ["baby_id"; "type"; "scheduled_time"]
  | AddExpense => ["category"; "amount"; "expense_date"]
  | AddMilestone => ["baby_id"; "title"; "milestone_date"]
  | AddDailyRead => ["title"; "content"; "published_date"]
  | AddScripture => ["verse"; "reference"]
  | _ => []
  end.

(** The message of each route's [catch] block. *)
Definition failure_text (ep : endpoint) : string :=
  match ep with
  | AddBaby => "Failed to add baby profile"
  | GetBabies => "Failed to fetch baby profiles"
  | AddSchedule => "Failed to add schedule"
  | GetSchedules => "Failed to fetch schedules"
  | AddExpense => "Failed to add expense"
  | GetExpenses => "Failed to fetch expenses"
  | AddMilestone => "Failed to add milestone"
  | GetMilestones => "Failed to fetch milestones"
  | AddDailyRead => "Failed to add daily read"
  | GetDailyReads => "Failed to fetch daily reads"
  | AddScripture => "Failed to add scripture"
  | GetScriptures => "Failed to fetch scriptures"
  | GetUser => "Failed to fetch user data"
  | _ => ""
  end.

(** The names of a list as a message spells them, separated by [sep]. *)
Fixpoint join (sep : string) (l : list string) : string :=
  match l with
  | [] => ""
  | [x] => x
  | x :: rest => x +:+ sep +:+ join sep rest
  end.

(** A date of the shape the baby route accepts: four digits, two, two,
    with hyphens (code unit 45) between them. *)
Definition date_shaped (s : string) : Prop :=
  exists y1 y2 y3 y4 m1 m2 d1 d2,
    Js.units s = [y1; y2; y3; y4; 45; m1; m2; 45; d1; d2] /\
    forallb digit [y1; y2; y3; y4; m1; m2; d1; d2] = true.

End Resources.

(** ** Login and verification on any JSON value

    [express.json()] hands a handler whatever JSON the client sent: the
    password and the code need not be strings.  The two handlers that pass
    such a field to [bcrypt.compare] are given here once more, with that
    field as a JSON value; on a string they are the handlers above.  The
    address stays a string: what the database makes of another value is
    its own matter. *)

Module AnyJson.
Import Resources.

(** [typeof v] *)
Definition typeof (v : jsval) : string :=
  match v with
  | Undefined => "undefined"
  | Null => "object"
  | Number _ => "number"
  | Text _ => "string"
  end.

(** A field of [req_body] as the JSON value it is. *)
Definition of_field (v : option string) : jsval :=
  match v with
  | Some s => Text s
  | None => Undefined
  end.

(** [bcrypt.compare(v, hash)]: bcryptjs tests
    [typeof s !== "string" || typeof hash !== "string"] first and rejects
    on it, before it looks at the digest. *)
Definition compare (v : jsval) (hash : option digest) : task bool :=
  match v with
  | Text s => bcrypt_compare s hash
  | _ =>
      throw ("Illegal arguments: " +:+ typeof v +:+ ", " +:+
             match hash with Some _ => "string" | None => "object" end)
  end.

(** [app.post("/api/login", ...)], later revision *)
Definition post_api_login_later (penv : process_env) (email : option string)
    (password : jsval) : prog :=
  if negb (Js.truthy email) || negb (truthy password) then
    Ret (res_json 400 [message "Missing required fields: email, password"])
  else
  let email := str email in
  async_try
    (createConnection ;;
     users ← db_select (SelectUsersByEmail email) ;
     match users with
     | [] =>
         db_end ;;
         send (res_json 401 [message "Invalid email or password"])
     | user :: _ =>
         if negb (u_is_verified user) then
           db_end ;;
           send (res_json 403
                   [message "Please verify your email before logging in";
                    ("redirect", JStr "/verify")])
         else
         isMatch ← compare password (Some (u_password user)) ;
         if negb isMatch then
           db_end ;;
           send (res_json 401 [message "Invalid email or password"])
         else
         token ← jwt_sign_task (u_id user) (u_email user) (Part000.signing_key penv) ;
         db_end ;;
         send (res_json 200
                 [message "Login successful";
                  ("token", JToken token);
                  ("user", user_info user);
                  ("redirect", JStr "/dashboard")])
     end)
    (fun error =>
       res_json 500 [message "Failed to login"; ("error", JStr error)]).

(** [app.post("/api/login", ...)], earlier revision *)
Definition post_api_login_earlier (penv : process_env) (email : option string)
    (password : jsval) : prog :=
  if negb (Js.truthy email) || negb (truthy password) then
    Ret (res_json 400 [message "Missing required fields: email, password"])
  else
  let email := str email in
  async_try
    (createConnection ;;
     users ← db_select (SelectUsersByEmail email) ;
     match users with
     | [] =>
         db_end ;;
         send (res_json 401 [message "Invalid email or password"])
     | user :: _ =>
         if negb (u_is_verified user) then
           db_end ;;
           send (res_json 403 [message "Please verify your email before logging in"])
         else
         isMatch ← compare password (Some (u_password user)) ;
         if negb isMatch then
           db_end ;;
           send (res_json 401 [message "Invalid email or password"])
         else
         token ← jwt_sign_task (u_id user) (u_email user) (ServerJs.signing_key penv) ;
         db_end ;;
         send (res_json 200 [message "Login successful"; ("token", JToken token)])
     end)
    (fun error =>
       res_json 500 [message "Failed to login"; ("error", JStr error)]).

(** [app.post("/api/verify-email", ...)], later revision *)
Definition post_api_verify_email_later (penv : process_env) (email : option string)
    (code : jsval) : prog :=
  if negb (Js.truthy email) || negb (truthy code) then
    Ret (res_json 400 [message "Missing required fields: email, code"])
  else
  let email := str email in
  async_try
    (createConnection ;;
     users ← db_select (SelectUsersByEmail email) ;
     match users with
     | [] =>
         db_end ;;
         send (res_json 404 [message "User not found"])
     | user :: _ =>
         isMatch ← compare code (u_verification_code user) ;
         if negb isMatch then
           db_end ;;
           send (res_json 400 [message "Invalid verification code"])
         else
         db_execute (VerifyUserByEmail email) ;;
         token ← jwt_sign_task (u_id user) (u_email user) (Part000.signing_key penv) ;
         let mailOptions :=
           {| mail_from := ("MamaCare", interpolate (penv !! "EMAIL_USER"));
              mail_to := Some email;
              mail_replyTo := None;
              mail_subject := "MamaCare Account Verified!";
              mail_html :=
                VerifiedHtml (u_name user) email
                  (if production penv then "https://mamahub.vercel.app/dashboard"
                   else "http://localhost:5173/dashboard") |} in
         try_catch (sendMail mailOptions) (fun emailError => pure VUndefined) ;;
         db_end ;;
         send (res_json 200
                 [message "Email verified successfully! You're now logged in.";
                  ("token", JToken token);
                  ("user", user_info user);
                  ("redirect", JStr "/dashboard")])
     end)
    (fun error =>
       res_json 500 [message "Failed to verify email"; ("error", JStr error)]).

(** [app.post("/api/verify-email", ...)], earlier revision *)
Definition post_api_verify_email_earlier (penv : process_env) (email : option string)
    (code : jsval) : prog :=
  if negb (Js.truthy email) || negb (truthy code) then
    Ret (res_json 400 [message "Missing required fields: email, code"])
  else
  let email := str email in
  async_try
    (createConnection ;;
     users ← db_select (SelectUsersByEmail email) ;
     match users with
     | [] =>
         db_end ;;
         send (res_json 404 [message "User not found"])
     | user :: _ =>
         isMatch ← compare code (u_verification_code user) ;
         if negb isMatch then
           db_end ;;
           send (res_json 400 [message "Invalid verification code"])
         else
         db_execute (VerifyUserByEmail email) ;;
         db_end ;;
         send (res_json 200 [message "Email verified successfully!"])
     end)
    (fun error =>
       res_json 500 [message "Failed to verify email"; ("error", JStr error)]).

Definition login (rev : revision) : process_env -> option string -> jsval -> prog :=
  match rev with
  | Later => post_api_login_later
  | Earlier => post_api_login_earlier
  end.

Definition verify_email (rev : revision) : process_env -> option string -> jsval -> prog :=
  match rev with
  | Later => post_api_verify_email_later
  | Earlier => post_api_verify_email_earlier
  end.

End AnyJson.

(** ** Sample data for the worked runs below *)

Module Demo.

Definition penv : process_env :=
  <["JWT_SECRET" := "s3cr3t-from-dotenv"]>
    (<["EMAIL_USER" := "mamacare@gmail.com"]> (<["EMAIL_PASS" := "app-password"]> ∅)).

(** An environment file that sets the mail account only. *)
Definition penv_no_secret : process_env :=
  <["EMAIL_USER" := "mamacare@gmail.com"]> (<["EMAIL_PASS" := "app-password"]> ∅).

Definition quiet : env := fun _ => calm.

Definition mail_down : env :=
  fun _ => {| db_fault := false; mail_fault := true; entropy := 0 |}.

Definition fields (name email password code : option string) : req_body :=
  {| b_name := name; b_email := email; b_password := password; b_code := code;
     b_message := None |}.

Definition ama : req_body := fields (Some "Ama") (Some "ama@x.com") (Some "password1") None.

Definition ama_short : req_body := fields (Some "Ama") (Some "ama@x.com") (Some "short") None.

Definition ama_code : req_body := fields None (Some "ama@x.com") None (Some "100000").

Definition ama_login : req_body := fields None (Some "ama@x.com") (Some "password1") None.

Definition ama_wrong : req_body := fields None (Some "ama@x.com") (Some "password2") None.

Definition zed_login : req_body := fields None (Some "zed@x.com") (Some "password1") None.

Definition post (path : list string) (ip : string) (b : req_body) : request :=
  {| req_method := POST; req_path := path; req_ip := ip; req_authorization := None;
     req_json := b |}.

(** After Ama has signed up: one pending account, code 100000 in the mail. *)
Definition signed_up (rev : revision) : world :=
  final (run quiet 0 empty_world (signup rev penv ama)).

(** After she has verified it. *)
Definition verified (rev : revision) : world :=
  final (run quiet 0 (signed_up rev) (verify_email rev penv ama_code)).

(** A token anyone can make who has read the source of [server.js]. *)
Definition forged : jwt :=
  {| jwt_userId := 1; jwt_email := "ama@x.com"; jwt_iat := 0; jwt_exp := 3600;
     jwt_key := "your_jwt_secret_123" |}.

(** Two signups for one address, taking turns at every [await]. *)
Definition race : list event :=
  [ Arrive (post ["api"; "signup"] "10.0.0.1" ama);
    Arrive (post ["api"; "signup"] "10.0.0.2" ama) ]
  ++ concat (replicate 9 [Advance 0 calm; Advance 1 calm]).

Definition ama_bad_code : req_body := fields None (Some "ama@x.com") None (Some "999999").

(** The token the later revision hands Ama when the clock reads zero. *)
Definition ama_token : jwt :=
  {| jwt_userId := 1; jwt_email := "ama@x.com"; jwt_iat := 0; jwt_exp := 3600;
     jwt_key := "s3cr3t-from-dotenv" |}.

(** A client that sends a hundred login requests in the first seconds of
    its window, another client in between. *)
Definition client : string := "10.0.0.1".

Definition login_at (t : N) (ip : string) : arrival :=
  {| at_ms := t; around := quiet; what := post ["api"; "login"] ip zed_login |}.

Definition busy : list arrival :=
  replicate 50 (login_at 1000 client) ++ [login_at 2000 "10.0.0.2"]
  ++ replicate 49 (login_at 3000 client).

End Demo.

(** ** More sample data *)

Module Cases.

Definition no_name : req_body := Demo.fields None (Some "ama@x.com") (Some "password1") None.

Definition no_code : req_body := Demo.fields None (Some "ama@x.com") None (Some "").

Definition no_password : req_body := Demo.fields None (Some "ama@x.com") None None.

Definition bad_address : req_body :=
  Demo.fields (Some "Ama") (Some "ama at x.com") (Some "password1") None.

Definition ama_row : user :=
  {| u_id := 1; u_name := "Ama"; u_email := "ama@x.com";
     u_password := Bcrypt 10 0 "password1";
     u_verification_code := Some (Bcrypt 10 0 "100000");
     u_is_verified := false |}.

Definition db_down : env :=
  fun _ => {| db_fault := true; mail_fault := false; entropy := 0 |}.

Definition hello : req_body :=
  {| b_name := Some "Kofi"; b_email := Some "kofi@x.com"; b_password := None;
     b_code := None; b_message := Some "Hello from Accra" |}.

Definition long_password : req_body :=
  Demo.fields (Some "Ama") (Some "ama@x.com") (Some "short") None.

(** Requests to the resource routes. *)
Definition baby (k : string) : Resources.jsval :=
  if String.eqb k "name" then Resources.Text "Esi"
  else if String.eqb k "birth_date" then Resources.Text "2024-02-30"
  else if String.eqb k "gender" then Resources.Text "Female"
  else Resources.Undefined.

Definition baby_numeric_gender (k : string) : Resources.jsval :=
  if String.eqb k "gender" then Resources.Number 1 else baby k.

Definition free_expense (k : string) : Resources.jsval :=
  if String.eqb k "category" then Resources.Text "gift"
  else if String.eqb k "amount" then Resources.Number 0
  else if String.eqb k "expense_date" then Resources.Text "2024-03-01"
  else Resources.Undefined.

Definition schedule (k : string) : Resources.jsval :=
  if String.eqb k "baby_id" then Resources.Number 7
  else if String.eqb k "type" then Resources.Text "feeding"
  else if String.eqb k "scheduled_time" then Resources.Text "2024-03-01 08:00"
  else Resources.Undefined.

Definition get_babies (header : option (list field)) : Resources.rrequest :=
  {| Resources.rr_method := GET; Resources.rr_path := ["api"; "babies"];
     Resources.rr_authorization := header; Resources.rr_body := fun _ => Resources.Undefined |}.

Definition db_ok : Resources.database := fun _ => inl [].

(** The connection opens, the statement fails. *)
Definition db_refuses : Resources.database :=
  fun i => match i with O => inl [] | _ => inr "ER_NO_SUCH_TABLE" end.

Definition one_user : Resources.database :=
  fun i => match i with
           | 1%nat => inl [[("id", Resources.Number 1); ("name", Resources.Text "Ama");
                            ("email", Resources.Text "ama@x.com")]]
           | _ => inl []
           end.

End Cases.

Arguments Js.truthy : simpl never.
Arguments Js.length : simpl never.
Arguments Js.toString : simpl never.
Arguments Js.floor_scaled : simpl never.
Arguments str : simpl never.
Arguments interpolate : simpl never.
Arguments production : simpl never.
Arguments Regex.test : simpl never.

(** ** Proof tools *)

(** Open the task combinators down to [Await] and [Ret]. *)
Ltac unfold_task :=
  cbv [async_try mbind task_bind bind createConnection db_end db_select db_execute
       bcrypt_hash bcrypt_compare Math_random jwt_sign_task sendMail await pure
       mret task_ret send try_catch throw limiter].

Ltac unfold_handlers :=
  cbv [signup verify_email login
       Part000.post_api_signup Part000.post_api_verify_email Part000.post_api_login
       Part000.post_api_contact
       ServerJs.post_api_signup ServerJs.post_api_verify_email ServerJs.post_api_login
       ServerJs.post_api_contact].

Lemma no_rows : (0 <? N.of_nat (@List.length user [])) = false.
Proof. reflexivity. Qed.

Lemma some_rows (u : user) (us : list user) : (0 <? N.of_nat (List.length (u :: us))) = true.
Proof. apply N.ltb_lt. cbn [List.length]. lia. Qed.

(** Run as far as the known facts [H] decide. *)
Tactic Notation "run_on" constr(H) :=
  repeat (progress (rewrite ?no_rows, ?some_rows, ?H; cbn)).
Tactic Notation "run_on" constr(H1) constr(H2) :=
  repeat (progress (rewrite ?no_rows, ?some_rows, ?H1, ?H2; cbn)).

Lemma find_filter {A} (f : A -> bool) (l : list A) (x : A) :
  List.find f l = Some x -> exists rest, List.filter f l = x :: rest.
Proof.
  induction l as [|a l IH]; simpl; [discriminate|].
  destruct (f a) eqn:Ha; [intros [= ->]; eauto | auto].
Qed.

Lemma find_filter_none {A} (f : A -> bool) (l : list A) :
  List.find f l = None -> List.filter f l = [].
Proof.
  induction l as [|a l IH]; simpl; [reflexivity|].
  destruct (f a); [discriminate | auto].
Qed.

Lemma find_existsb {A} (f : A -> bool) (l : list A) :
  existsb f l = match List.find f l with Some _ => true | None => false end.
Proof.
  induction l as [|a l IH]; simpl; [reflexivity|].
  destruct (f a); [reflexivity | exact IH].
Qed.

Lemma set_users_same (w : world) : set_users w (users w) = w.
Proof. destruct w; reflexivity. Qed.

(** ** Start-up and the signing key *)

(** The later revision does not get as far as listening without a
    non-empty [JWT_SECRET]. *)
Lemma later_startup_exits (penv : process_env) :
  Js.truthy (penv !! "JWT_SECRET") = false -> Part000.startup penv = Exit 1.
Proof.
  intros H. unfold Part000.startup. rewrite H. reflexivity.
Qed.

Lemma later_startup_key (penv : process_env) (port : string) :
  Part000.startup penv = Listening port ->
  exists secret, Part000.signing_key penv = Some secret /\ secret <> "".
Proof.
  unfold Part000.startup, Part000.signing_key, Js.truthy.
  destruct (penv !! "JWT_SECRET") as [s|]; cbn; [|discriminate].
  destruct (String.eqb_spec s ""); cbn; [discriminate|].
  intros _. eauto.
Qed.

(** C1, on [server.js]: started from an environment without [JWT_SECRET]
    the earlier revision listens all the same, its key is the literal
    written in the source, a login is signed with that literal, and a token
    forged with it passes [authenticateToken]. *)
Theorem earlier_runs_on_default_secret :
  Part000.startup Demo.penv_no_secret = Exit 1 /\
  ServerJs.startup Demo.penv_no_secret = Listening "5000" /\
  ServerJs.JWT_SECRET Demo.penv_no_secret = "your_jwt_secret_123" /\
  token_of (reply (run Demo.quiet 0 (Demo.verified Earlier)
                     (ServerJs.post_api_login Demo.penv_no_secret Demo.ama_login)))
    = Some Demo.forged /\
  ServerJs.authenticateToken Demo.penv_no_secret 0 (Some [Word "Bearer"; Token Demo.forged])
    = inr Demo.forged.
Proof. vm_compute. repeat split; reflexivity. Qed.

(** ** Login *)

(** C7: a login for an account that exists but is not verified is answered
    403 "Please verify your email before logging in" whatever the password:
    the handler stops at the [is_verified] test, the table is untouched and
    no [bcrypt.compare] is ever issued. *)
Theorem login_unverified_is_refused (rev : revision) (penv : process_env) (e : env)
    (w : world) (b : req_body) (u : user) :
  Js.truthy (b_email b) = true ->
  Js.truthy (b_password b) = true ->
  (forall i, db_fault (e i) = false) ->
  account w (str (b_email b)) = Some u ->
  u_is_verified u = false ->
  let r := run e 0 w (login rev penv b) in
  status (reply r) = 403 /\
  message_of (reply r) = Some "Please verify your email before logging in" /\
  final r = w /\
  forall s h, ~ In (BcryptCompare s h) (trace r).
Proof.
  intros He Hp Hdb Hacc Hv.
  destruct (find_filter _ _ _ Hacc) as [rest Hrest].
  destruct rev; unfold_handlers; rewrite He, Hp; cbn [negb orb]; unfold_task;
    run_on Hdb; rewrite Hrest, Hv; run_on Hdb;
    (repeat split; [apply set_users_same | intros s h [?|[?|[?|[]]]]; discriminate]).
Qed.

Lemma login_unverified_is_refused_witness :
  let r := run Demo.quiet 0 (Demo.signed_up Later) (login Later Demo.penv Demo.ama_login) in
  status (reply r) = 403 /\
  message_of (reply r) = Some "Please verify your email before logging in" /\
  final r = Demo.signed_up Later /\
  forall s h, ~ In (BcryptCompare s h) (trace r).
Proof.
  apply (login_unverified_is_refused Later Demo.penv Demo.quiet (Demo.signed_up Later)
           Demo.ama_login
           {| u_id := 1; u_name := "Ama"; u_email := "ama@x.com";
              u_password := Bcrypt 10 0 "password1";
              u_verification_code := Some (Bcrypt 10 0 "100000");
              u_is_verified := false |}); reflexivity.
Defined.

(** As long as the wrong password is a string, a login for an address no
    account has and a login with that password for a verified account get
    the very same response, 401 "Invalid email or password". *)
Lemma login_hides_account_existence (rev : revision) (penv : process_env)
    (e1 e2 : env) (w : world) (b1 b2 : req_body) (u : user) :
  Js.truthy (b_email b1) = true -> Js.truthy (b_password b1) = true ->
  Js.truthy (b_email b2) = true -> Js.truthy (b_password b2) = true ->
  (forall i, db_fault (e1 i) = false) ->
  (forall i, db_fault (e2 i) = false) ->
  account w (str (b_email b1)) = None ->
  account w (str (b_email b2)) = Some u ->
  u_is_verified u = true ->
  str (b_password b2) <> digest_plain (u_password u) ->
  let unknown := run e1 0 w (login rev penv b1) in
  let wrong := run e2 0 w (login rev penv b2) in
  reply unknown = reply wrong /\
  status (reply wrong) = 401 /\
  message_of (reply wrong) = Some "Invalid email or password".
Proof.
  intros He1 Hp1 He2 Hp2 Hdb1 Hdb2 Hnone Hsome Hv Hpw.
  apply find_filter_none in Hnone.
  destruct (find_filter _ _ _ Hsome) as [rest Hrest].
  apply String.eqb_neq in Hpw.
  destruct rev; unfold_handlers; rewrite He1, Hp1, He2, Hp2; cbn [negb orb]; unfold_task;
    run_on Hdb1 Hdb2; rewrite Hnone, Hrest, Hv; run_on Hdb1 Hdb2; rewrite Hpw;
    run_on Hdb1 Hdb2; repeat split.
Qed.

Lemma login_hides_account_existence_witness :
  let unknown := run Demo.quiet 0 (Demo.verified Later) (login Later Demo.penv Demo.zed_login) in
  let wrong := run Demo.quiet 0 (Demo.verified Later) (login Later Demo.penv Demo.ama_wrong) in
  reply unknown = reply wrong /\
  status (reply wrong) = 401 /\
  message_of (reply wrong) = Some "Invalid email or password".
Proof.
  apply (login_hides_account_existence Later Demo.penv Demo.quiet Demo.quiet
           (Demo.verified Later) Demo.zed_login Demo.ama_wrong
           {| u_id := 1; u_name := "Ama"; u_email := "ama@x.com";
              u_password := Bcrypt 10 0 "password1";
              u_verification_code := None;
              u_is_verified := true |}); try reflexivity.
  discriminate.
Defined.

(** ** Signup *)

(** What the later revision's three validation steps let through. *)
Lemma later_signup_validation (penv : process_env) (b : req_body) :
  (exists r, Part000.post_api_signup penv b = Ret r /\ status r = 400) \/
  (Js.truthy (b_name b) = true /\ Js.truthy (b_email b) = true /\
   Js.truthy (b_password b) = true /\
   Regex.test emailRegex (str (b_email b)) = true /\
   Js.length (str (b_name b)) <= 255 /\ Js.length (str (b_email b)) <= 255 /\
   8 <= Js.length (str (b_password b))).
Proof.
  unfold Part000.post_api_signup.
  destruct (Js.truthy (b_name b)); cbn [negb orb]; [|left; eauto].
  destruct (Js.truthy (b_email b)); cbn [negb orb]; [|left; eauto].
  destruct (Js.truthy (b_password b)); cbn [negb orb]; [|left; eauto].
  destruct (Regex.test emailRegex (str (b_email b))); cbn [negb]; [|left; eauto].
  destruct (N.ltb_spec 255 (Js.length (str (b_name b)))); cbn [orb]; [left; eauto|].
  destruct (N.ltb_spec 255 (Js.length (str (b_email b)))); cbn [orb]; [left; eauto|].
  destruct (N.ltb_spec (Js.length (str (b_password b))) 8); cbn [orb]; [left; eauto|].
  right. repeat split; assumption.
Qed.

(** The later revision answers 400 to a name or an e-mail address longer
    than 255 characters and to a password shorter than 8, before it awaits
    anything: nothing is written and nothing is mailed. *)
Lemma later_signup_rejects_bad_lengths (penv : process_env) (e : env) (w : world)
    (b : req_body) :
  255 < Js.length (str (b_name b)) \/ 255 < Js.length (str (b_email b)) \/
  Js.length (str (b_password b)) < 8 ->
  let r := run e 0 w (Part000.post_api_signup penv b) in
  status (reply r) = 400 /\ final r = w /\ trace r = [].
Proof.
  intros Hbad.
  destruct (later_signup_validation penv b) as [(r & -> & Hr) | H].
  - cbn. auto.
  - lia.
Qed.

(** C9, on [server.js]: the earlier revision has no length test; a signup
    with the five-character password "short" is answered 201 and its
    account is in the table. *)
Theorem earlier_signup_accepts_short_password :
  let r := run Demo.quiet 0 empty_world (ServerJs.post_api_signup Demo.penv Demo.ama_short) in
  Js.length (str (b_password Demo.ama_short)) = 5 /\
  status (reply r) = 201 /\
  List.map u_email (users (final r)) = ["ama@x.com"] /\
  status (reply (run Demo.quiet 0 empty_world (Part000.post_api_signup Demo.penv Demo.ama_short)))
    = 400.
Proof. vm_compute. repeat split; reflexivity. Qed.

Arguments insert_user : simpl never.

Lemma insert_user_fresh (us : list user) (n e : string) (p c : digest) (v : bool) :
  List.find (has_email e) us = None ->
  insert_user us n e p c v =
    inl (us ++ [ {| u_id := N.of_nat (List.length us) + 1; u_name := n; u_email := e;
                    u_password := p; u_verification_code := Some c; u_is_verified := v |} ]).
Proof.
  intros H. unfold insert_user. rewrite find_existsb, H. reflexivity.
Qed.

Lemma insert_user_taken (us : list user) (n e : string) (p c : digest) (v : bool) (u : user) :
  List.find (has_email e) us = Some u ->
  insert_user us n e p c v = inr "Duplicate entry for key 'users.email'".
Proof.
  intros H. unfold insert_user. rewrite find_existsb, H. reflexivity.
Qed.

(** C8: a signup that passes validation for an address no account has, and
    whose welcome mail cannot be delivered, leaves its pending account in the
    table and is answered 500 "User registered, but failed to send
    verification email", which is not the handler's general failure
    message. *)
Theorem signup_mail_failure_keeps_account (rev : revision) (penv : process_env)
    (e : env) (w : world) (b : req_body) :
  Js.truthy (b_name b) = true ->
  Js.truthy (b_email b) = true ->
  Js.truthy (b_password b) = true ->
  Regex.test emailRegex (str (b_email b)) = true ->
  (rev = Later ->
   Js.length (str (b_name b)) <= 255 /\ Js.length (str (b_email b)) <= 255 /\
   8 <= Js.length (str (b_password b))) ->
  account w (str (b_email b)) = None ->
  (forall i, db_fault (e i) = false) ->
  (forall i, mail_fault (e i) = true) ->
  let r := run e 0 w (signup rev penv b) in
  reply r = res_json 500 [message "User registered, but failed to send verification email"] /\
  message_of (reply r) <> Some "Failed to register user" /\
  (exists row, users (final r) = users w ++ [row] /\
               u_email row = str (b_email b) /\ is_pending row = true) /\
  outbox (final r) = outbox w.
Proof.
  intros Hn He Hp Hre Hlen Hnone Hdb Hmail.
  pose proof (find_filter_none _ _ Hnone) as Hfil.
  unfold account in Hnone.
  destruct rev; unfold_handlers; rewrite Hn, He, Hp, Hre; cbn [negb orb].
  - destruct (Hlen eq_refl) as (H1 & H2 & H3).
    apply N.ltb_ge in H1, H2, H3. rewrite H1, H2, H3; cbn [orb].
    unfold_task. run_on Hdb Hmail. rewrite Hfil. run_on Hdb Hmail.
    rewrite (insert_user_fresh _ _ _ _ _ _ Hnone). run_on Hdb Hmail.
    repeat split; [discriminate | eexists; repeat split].
  - unfold_task. run_on Hdb Hmail. rewrite Hfil. run_on Hdb Hmail.
    rewrite (insert_user_fresh _ _ _ _ _ _ Hnone). run_on Hdb Hmail.
    repeat split; [discriminate | eexists; repeat split].
Qed.

Lemma signup_mail_failure_keeps_account_witness :
  let r := run Demo.mail_down 0 empty_world (signup Later Demo.penv Demo.ama) in
  reply r = res_json 500 [message "User registered, but failed to send verification email"] /\
  message_of (reply r) <> Some "Failed to register user" /\
  (exists row, users (final r) = users empty_world ++ [row] /\
               u_email row = str (b_email Demo.ama) /\ is_pending row = true) /\
  outbox (final r) = outbox empty_world.
Proof.
  apply (signup_mail_failure_keeps_account Later Demo.penv Demo.mail_down empty_world Demo.ama);
    try reflexivity.
  intros _. vm_compute. repeat split; discriminate.
Defined.

(** C2: of two signups for one address that take turns at every [await],
    both pass the existence check; the second insert is refused by the
    table and its request is answered with the handler's general 500
    "Failed to register user", not with the conflict response that the
    existence check gives a duplicate. *)
Theorem signup_race_is_internal_error :
  let s := play (app Later Demo.penv) Demo.race boot_system in
  List.map u_email (users (sys_world s)) = ["ama@x.com"] /\
  exists r1 r2,
    sys_tasks s = [Ret r1; Ret r2] /\
    status r1 = 201 /\
    r2 = res_json 500 [message "Failed to register user";
                       ("error", JStr "Duplicate entry for key 'users.email'")] /\
    r2 <> conflict.
Proof.
  vm_compute. split; [reflexivity|].
  do 2 eexists. repeat split. discriminate.
Qed.

(** The existence check and what it misses: a signup that passes
    validation, for an address that has an account when the handler's
    existence check runs, is answered with the conflict response and writes
    nothing.  When the address has no account at the check but has one by
    the time of the insert, the table refuses the insert and the answer is
    the general 500 "Failed to register user". *)
Lemma signup_duplicate_address (rev : revision) (penv : process_env) (e : env)
    (w w' : world) (b : req_body) (u' : user) (c2 c3 c4 c5 : choice) :
  Js.truthy (b_name b) = true ->
  Js.truthy (b_email b) = true ->
  Js.truthy (b_password b) = true ->
  Regex.test emailRegex (str (b_email b)) = true ->
  (rev = Later ->
   Js.length (str (b_name b)) <= 255 /\ Js.length (str (b_email b)) <= 255 /\
   8 <= Js.length (str (b_password b))) ->
  (forall i, db_fault (e i) = false) ->
  account w' (str (b_email b)) = Some u' ->
  match account w (str (b_email b)) with
  | Some _ =>
      let r := run e 0 w (signup rev penv b) in
      reply r = conflict /\ final r = w
  | None =>
      let '(w1, checked) := advance [e 0%nat; e 1%nat] w (signup rev penv b) in
      w1 = w /\
      exists err,
        advance [c2; c3; c4; c5] w' checked =
          (w', Ret (res_json 500 [message "Failed to register user"; ("error", JStr err)]))
  end.
Proof.
  intros Hn He Hp Hre Hlen Hdb Hdup.
  unfold account in *.
  destruct (List.find (has_email (str (b_email b))) (users w)) as [u|] eqn:Hacc.
  - destruct (find_filter _ _ _ Hacc) as [rest Hrest].
    destruct rev; unfold_handlers; rewrite Hn, He, Hp, Hre; cbn [negb orb].
    + destruct (Hlen eq_refl) as (H1 & H2 & H3).
      apply N.ltb_ge in H1, H2, H3. rewrite H1, H2, H3; cbn [orb].
      unfold_task. run_on Hdb. rewrite Hrest. run_on Hdb.
      split; [reflexivity | apply set_users_same].
    + unfold_task. run_on Hdb. rewrite Hrest. run_on Hdb.
      split; [reflexivity | apply set_users_same].
  - pose proof (find_filter_none _ _ Hacc) as Hfil.
    destruct rev; unfold_handlers; rewrite Hn, He, Hp, Hre; cbn [negb orb].
    + destruct (Hlen eq_refl) as (H1 & H2 & H3).
      apply N.ltb_ge in H1, H2, H3. rewrite H1, H2, H3; cbn [orb].
      unfold_task. run_on Hdb. rewrite Hfil. run_on Hdb.
      split; [apply set_users_same|].
      destruct (db_fault c5); cbn; [eauto|].
      rewrite (insert_user_taken _ _ _ _ _ _ _ Hdup). cbn.
      rewrite set_users_same. eauto.
    + unfold_task. run_on Hdb. rewrite Hfil. run_on Hdb.
      split; [apply set_users_same|].
      destruct (db_fault c5); cbn; [eauto|].
      rewrite (insert_user_taken _ _ _ _ _ _ _ Hdup). cbn.
      rewrite set_users_same. eauto.
Qed.

Lemma signup_duplicate_address_witness :
  let '(w1, checked) := advance [calm; calm] empty_world (signup Later Demo.penv Demo.ama) in
  w1 = empty_world /\
  exists err,
    advance [calm; calm; calm; calm] (Demo.signed_up Later) checked =
      (Demo.signed_up Later,
       Ret (res_json 500 [message "Failed to register user"; ("error", JStr err)])).
Proof.
  apply (signup_duplicate_address Later Demo.penv Demo.quiet empty_world
           (Demo.signed_up Later) Demo.ama
           {| u_id := 1; u_name := "Ama"; u_email := "ama@x.com";
              u_password := Bcrypt 10 0 "password1";
              u_verification_code := Some (Bcrypt 10 0 "100000");
              u_is_verified := false |} calm calm calm calm); try reflexivity.
  intros _. vm_compute. repeat split; discriminate.
Defined.

(** ** E-mail verification *)

(** The later revision on a pending account and its code: the account's rows
    are verified and cleared of the code, and the answer is 200 with a token
    for this account, signed for one hour with the configured key, and the
    account's id, name and address; no digest is in it.  Whether the
    confirmation mail leaves or not changes none of this. *)
Lemma later_verify_logs_in (penv : process_env) (e : env) (w : world) (b : req_body)
    (u : user) (d : digest) (secret : string) :
  Js.truthy (b_email b) = true ->
  Js.truthy (b_code b) = true ->
  (forall i, db_fault (e i) = false) ->
  account w (str (b_email b)) = Some u ->
  u_verification_code u = Some d ->
  digest_plain d = str (b_code b) ->
  Part000.signing_key penv = Some secret -> secret <> "" ->
  let r := run e 0 w (Part000.post_api_verify_email penv b) in
  exists t,
    reply r = res_json 200 [message "Email verified successfully! You're now logged in.";
                            ("token", JToken t); ("user", user_info u);
                            ("redirect", JStr "/dashboard")] /\
    jwt_userId t = u_id u /\ jwt_email t = u_email u /\
    jwt_exp t = jwt_iat t + 3600 /\ jwt_key t = secret /\
    users (final r) =
      List.map (fun x => if has_email (str (b_email b)) x then verified_row x else x) (users w) /\
    mentions_digest (body (reply r)) = false.
Proof.
  intros He Hc Hdb Hacc Hcode Hplain Hkey Hne.
  destruct (find_filter _ _ _ Hacc) as [rest Hrest].
  assert (Hsign : forall now, jwt_sign now (u_id u) (u_email u) (Part000.signing_key penv) =
            inl (VToken {| jwt_userId := u_id u; jwt_email := u_email u;
                           jwt_iat := now / 1000; jwt_exp := now / 1000 + 3600;
                           jwt_key := secret |})).
  { intros now. unfold jwt_sign. rewrite Hkey. unfold Js.truthy, Js.or_else.
    apply String.eqb_neq in Hne. rewrite Hne. reflexivity. }
  unfold Part000.post_api_verify_email. rewrite He, Hc; cbn [negb orb].
  unfold_task. run_on Hdb. rewrite Hrest. run_on Hdb.
  rewrite Hcode. cbn. rewrite Hplain, String.eqb_refl. run_on Hdb.
  rewrite Hsign. cbn.
  destruct (mail_fault (e 5%nat)); run_on Hdb; eexists; repeat split.
Qed.

(** C4, on [server.js]: the earlier revision verifies the account but its
    answer is the message alone, without a token and without the account,
    where the later revision logs the user in. *)
Theorem earlier_verify_sends_no_token :
  let r := run Demo.quiet 0 (Demo.signed_up Earlier)
             (ServerJs.post_api_verify_email Demo.penv Demo.ama_code) in
  let r' := run Demo.quiet 0 (Demo.signed_up Later)
              (Part000.post_api_verify_email Demo.penv Demo.ama_code) in
  List.map is_active (users (final r)) = [true] /\
  reply r = res_json 200 [message "Email verified successfully!"] /\
  token_of (reply r) = None /\
  json_field "user" (body (reply r)) = None /\
  keys (body (reply r')) = ["message"; "token"; "user"; "redirect"].
Proof. vm_compute. repeat split; reflexivity. Qed.

(** Both revisions, on an account whose code has been cleared: the NULL
    column reaches [bcrypt.compare], which throws, and the [catch] block
    answers 500. *)
Lemma verify_without_stored_code (rev : revision) (penv : process_env) (e : env)
    (w : world) (b : req_body) (u : user) :
  Js.truthy (b_email b) = true ->
  Js.truthy (b_code b) = true ->
  (forall i, db_fault (e i) = false) ->
  account w (str (b_email b)) = Some u ->
  u_verification_code u = None ->
  let r := run e 0 w (verify_email rev penv b) in
  reply r = res_json 500 [message "Failed to verify email";
                          ("error", JStr "Illegal arguments: string, object")] /\
  final r = w.
Proof.
  intros He Hc Hdb Hacc Hcode.
  destruct (find_filter _ _ _ Hacc) as [rest Hrest].
  destruct rev; unfold_handlers; rewrite He, Hc; cbn [negb orb];
    unfold_task; run_on Hdb; rewrite Hrest; run_on Hdb; rewrite Hcode; cbn;
    (split; [reflexivity | apply set_users_same]).
Qed.

(** C5, on both revisions: after Ama has verified her account with the code
    100000, the same request again is answered 500 "Failed to verify
    email", not 400 "Invalid verification code". *)
Theorem second_verification_is_internal_error (rev : revision) :
  let first := run Demo.quiet 0 (Demo.signed_up rev) (verify_email rev Demo.penv Demo.ama_code) in
  let second := run Demo.quiet 0 (final first) (verify_email rev Demo.penv Demo.ama_code) in
  status (reply first) = 200 /\
  List.map u_verification_code (users (final first)) = [None] /\
  status (reply second) = 500 /\
  message_of (reply second) = Some "Failed to verify email" /\
  json_field "error" (body (reply second)) = Some (JStr "Illegal arguments: string, object") /\
  trace second = [CreateConnection; Execute (SelectUsersByEmail "ama@x.com");
                  BcryptCompare "100000" None].
Proof. destruct rev; vm_compute; repeat split; reflexivity. Qed.

(** ** The two states of an account *)

Lemma consistent_cases (u : user) : consistent u <-> u_is_verified u = negb (has_code u).
Proof.
  unfold consistent, is_pending, is_active.
  destruct (u_is_verified u), (has_code u); cbn; intuition discriminate.
Qed.

Lemma verified_row_active (u : user) : is_active (verified_row u) = true.
Proof. reflexivity. Qed.

Lemma verified_row_consistent (u : user) : consistent (verified_row u).
Proof. apply consistent_cases. reflexivity. Qed.

Lemma verified_row_later (u : user) : consistent u -> row_later u (verified_row u).
Proof.
  intros [[Hp | Ha] _].
  - right. auto using verified_row_active.
  - left. unfold is_active, has_code in Ha. destruct u as [i n e p [c|] []]; cbn in *;
      try discriminate. reflexivity.
Qed.

Lemma table_later_refl (us : list user) : table_later us us.
Proof.
  exists us, []. split; [symmetry; apply app_nil_r|].
  induction us; constructor; [left; reflexivity | assumption].
Qed.

Lemma row_later_trans (u1 u2 u3 : user) :
  row_later u1 u2 -> row_later u2 u3 -> row_later u1 u3.
Proof.
  intros [-> | (Hp & -> & Ha)]; [auto|].
  intros [-> | (Hp' & _)]; [right; auto|].
  unfold is_pending in Hp'. cbn in Hp'. discriminate.
Qed.

Lemma table_later_trans (us1 us2 us3 : list user) :
  table_later us1 us2 -> table_later us2 us3 -> table_later us1 us3.
Proof.
  intros (rows & more & -> & H12) (rows' & more' & -> & H23).
  apply Forall2_app_inv_l in H23 as (r1 & r2 & Hr1 & Hr2 & ->).
  exists r1, (r2 ++ more'). split; [symmetry; apply app_assoc|].
  clear Hr2. revert r1 Hr1.
  induction H12 as [|u1 u2 l1 l2 Hu Hl IH]; intros r1 Hr1.
  - inversion Hr1. constructor.
  - inversion Hr1 as [|? u3 ? l3 Hu' Hl']; subst.
    constructor; [eapply row_later_trans; eauto | auto].
Qed.

(** What one statement does to the table. *)
Lemma execute_sql_keeps (us : list user) (q : sql) :
  inserts_pending (Execute q) ->
  Forall consistent us ->
  Forall consistent (fst (execute_sql us q)) /\ table_later us (fst (execute_sql us q)).
Proof.
  intros Hq Hus. destruct q as [e | n e p c v | e]; cbn.
  - auto using table_later_refl.
  - unfold insert_user. destruct (existsb (has_email e) us); cbn.
    + auto using table_later_refl.
    + cbn in Hq. subst v. split.
      * apply Forall_app. split; [assumption|].
        constructor; [|constructor]. apply consistent_cases. reflexivity.
      * eexists us, _. split; [reflexivity|].
        clear Hus. induction us; constructor; [left; reflexivity | assumption].
  - split.
    + induction Hus as [|u us Hu Hus IH]; cbn; constructor; [|exact IH].
      destruct (has_email e u); [apply verified_row_consistent | exact Hu].
    + eexists _, []. split; [symmetry; apply app_nil_r|].
      induction Hus as [|u us Hu Hus IH]; cbn; constructor; [|exact IH].
      destruct (has_email e u); [apply verified_row_later; exact Hu | left; reflexivity].
Qed.

Lemma exec_keeps (c : choice) (w : world) (o : op) :
  inserts_pending o ->
  Forall consistent (users w) ->
  Forall consistent (users (fst (exec c w o))) /\
  table_later (users w) (users (fst (exec c w o))).
Proof.
  intros Ho Hw.
  assert (Hsame : Forall consistent (users w) /\ table_later (users w) (users w))
    by auto using table_later_refl.
  destruct o as [ | q | | | s [d|] | | | | | ]; cbn;
    repeat match goal with
      | |- context [if ?b then _ else _] => destruct b
      end;
    try exact Hsame.
  pose proof (execute_sql_keeps (users w) q Ho Hw) as H.
  destruct (execute_sql (users w) q) as [us r]. exact H.
Qed.

(** *** Every handler inserts unverified rows only *)

Ltac tame_step :=
  first
    [ apply tame_ret
    | apply tame_await; [first [exact I | reflexivity] | intros [[]|]; cbn]
    | match goal with
      | |- context [if ?c then _ else _] => destruct c; cbn
      | |- context [match ?l with [] => _ | _ :: _ => _ end] => destruct l; cbn
      end ].

Ltac tame_tree := unfold_handlers; unfold_task; cbn; repeat tame_step.

Lemma signup_tame (rev : revision) (penv : process_env) (b : req_body) :
  tame (signup rev penv b).
Proof. destruct rev; tame_tree. Qed.

Lemma verify_email_tame (rev : revision) (penv : process_env) (b : req_body) :
  tame (verify_email rev penv b).
Proof. destruct rev; tame_tree. Qed.

Lemma login_tame (rev : revision) (penv : process_env) (b : req_body) :
  tame (login rev penv b).
Proof. destruct rev; tame_tree. Qed.

Lemma contact_tame (penv : process_env) (b : req_body) :
  tame (Part000.post_api_contact penv b) /\ tame (ServerJs.post_api_contact penv b).
Proof. split; tame_tree. Qed.

Lemma through_tame (penv : process_env) (ms : list middleware) (req : request) (next : prog) :
  tame next -> tame (Part000Routes.through penv ms req next).
Proof.
  intros Hnext. induction ms as [|m ms IH]; cbn; [exact Hnext|].
  destruct m; unfold limiter.
  - apply tame_await; [exact I|]. intros [[| | |[]| | |]|]; first [exact IH | apply tame_ret].
  - apply tame_await; [exact I|]. intros [[]|]; try apply tame_ret.
    destruct (Part000.authenticateToken penv n (req_authorization req));
      [apply tame_ret | exact IH].
Qed.

Lemma app_tame (rev : revision) (penv : process_env) (req : request) (p : prog) :
  app rev penv req = Some p -> tame p.
Proof.
  pose proof (contact_tame penv (req_json req)) as [Hc1 Hc2].
  pose proof (signup_tame Later penv (req_json req)) as Hs1.
  pose proof (signup_tame Earlier penv (req_json req)) as Hs2.
  pose proof (verify_email_tame Later penv (req_json req)) as Hv1.
  pose proof (verify_email_tame Earlier penv (req_json req)) as Hv2.
  pose proof (login_tame Later penv (req_json req)) as Hl1.
  pose proof (login_tame Earlier penv (req_json req)) as Hl2.
  destruct rev; cbn [app].
  - unfold Part000Routes.app.
    destruct (dispatch Part000Routes.stack req) as [ms ep].
    destruct ep; cbn; try discriminate; intros [= <-];
      apply through_tame; first [assumption | apply tame_ret].
  - unfold ServerJsRoutes.app.
    destruct (dispatch ServerJsRoutes.stack req) as [[|m ms] ep]; [|discriminate].
    destruct ep; cbn; try discriminate; intros [= <-];
      first [assumption | apply tame_ret].
Qed.

Lemma step_keeps (rev : revision) (penv : process_env) (s : system) (ev : event) :
  sound s ->
  sound (step (app rev penv) s ev) /\
  table_later (users (sys_world s)) (users (sys_world (step (app rev penv) s ev))).
Proof.
  intros [Ht Hu].
  assert (Hsame : sound s /\ table_later (users (sys_world s)) (users (sys_world s)))
    by (split; [split; assumption | apply table_later_refl]).
  destruct ev as [req | i c | dt]; cbn.
  - destruct (app rev penv req) as [p|] eqn:Hp; [|exact Hsame].
    split; [split|]; cbn; [|exact Hu|apply table_later_refl].
    apply Forall_app. split; [exact Ht|]. constructor; [|constructor].
    eapply app_tame; eassumption.
  - destruct (sys_tasks s !! i) as [[r | o k]|] eqn:Hi; try exact Hsame.
    pose proof (Forall_lookup_1 _ _ _ _ Ht Hi) as Hp.
    inversion Hp as [|? ? Ho Hk]; subst.
    pose proof (exec_keeps c (sys_world s) o Ho Hu) as [H1 H2].
    destruct (exec c (sys_world s) o) as [w v]; cbn in *.
    split; [split|]; cbn; [apply Forall_insert; auto | exact H1 | exact H2].
  - exact Hsame.
Qed.

Lemma play_keeps (rev : revision) (penv : process_env) (evs : list event) (s : system) :
  sound s ->
  sound (play (app rev penv) evs s) /\
  table_later (users (sys_world s)) (users (sys_world (play (app rev penv) evs s))).
Proof.
  revert s. induction evs as [|ev evs IH]; intros s Hs; cbn.
  - split; [exact Hs | apply table_later_refl].
  - destruct (step_keeps rev penv s ev Hs) as [Hs' Hl].
    destruct (IH _ Hs') as [Hs'' Hl'].
    split; [exact Hs'' | eapply table_later_trans; eassumption].
Qed.

(** C3: whatever requests arrive and however their handlers take turns, in
    either revision, every row of the table is pending (unverified, holding
    a code) or active (verified, holding none), so a verified row holds no
    code; and from then on every row stays at its place, either untouched
    or turned from pending to active. *)
Theorem account_states (rev : revision) (penv : process_env) (evs more : list event) :
  let s := play (app rev penv) evs boot_system in
  let s' := play (app rev penv) more s in
  Forall consistent (users (sys_world s)) /\
  table_later (users (sys_world s)) (users (sys_world s')).
Proof.
  assert (H0 : sound boot_system) by (split; constructor).
  destruct (play_keeps rev penv evs boot_system H0) as [Hs _].
  destruct (play_keeps rev penv more _ Hs) as [_ Hl].
  split; [apply Hs | exact Hl].
Qed.

(** ** The rate limiter *)

Lemma hit_fresh (now : N) (key : string) (h : gmap string RateLimit.window) :
  RateLimit.open_window now key h = None ->
  RateLimit.hit now key h =
    (<[key := {| RateLimit.win_start := now; RateLimit.win_count := 1 |}]> h, true).
Proof.
  intros H. unfold RateLimit.hit. rewrite H. reflexivity.
Qed.

Lemma hit_inside (now : N) (key : string) (h : gmap string RateLimit.window)
    (start n : N) :
  h !! key = Some {| RateLimit.win_start := start; RateLimit.win_count := n |} ->
  now < start + RateLimit.windowMs ->
  RateLimit.hit now key h =
    (<[key := {| RateLimit.win_start := start; RateLimit.win_count := n + 1 |}]> h,
     n + 1 <=? RateLimit.max).
Proof.
  intros H Hnow. unfold RateLimit.hit, RateLimit.open_window. rewrite H. cbn.
  apply N.ltb_lt in Hnow. rewrite Hnow. reflexivity.
Qed.

(** Windows are per client: a request leaves every other key's window as
    it was. *)
Lemma hit_other (now : N) (key key' : string) (h : gmap string RateLimit.window) :
  key <> key' -> (RateLimit.hit now key h).1 !! key' = h !! key'.
Proof.
  intros Hne. unfold RateLimit.hit. cbn. apply lookup_insert_ne. exact Hne.
Qed.

(** ** Fields that are not strings *)

Ltac unfold_any :=
  cbv [AnyJson.login AnyJson.verify_email
       AnyJson.post_api_login_later AnyJson.post_api_login_earlier
       AnyJson.post_api_verify_email_later AnyJson.post_api_verify_email_earlier
       AnyJson.compare AnyJson.typeof AnyJson.of_field].

Lemma truthy_text (s : string) : s <> "" -> Js.truthy (Some s) = true.
Proof.
  intros H. unfold Js.truthy. apply negb_true_iff, String.eqb_neq. exact H.
Qed.

Lemma truthy_number (z : Z) : z <> 0%Z -> Resources.truthy (Resources.Number z) = true.
Proof.
  intros H. cbn. apply negb_true_iff, Z.eqb_neq. exact H.
Qed.

(** On a body whose fields are strings the handlers over JSON values are
    the handlers of the two revisions. *)
Lemma any_json_on_strings (rev : revision) (penv : process_env) (b : req_body) :
  AnyJson.login rev penv (b_email b) (AnyJson.of_field (b_password b)) = login rev penv b /\
  AnyJson.verify_email rev penv (b_email b) (AnyJson.of_field (b_code b)) =
    verify_email rev penv b.
Proof.
  destruct b as [n [em|] pw cd m].
  - destruct (String.eqb em "") eqn:Hem, pw as [pw|], cd as [cd|], rev; split;
      unfold_handlers; unfold_any; unfold Js.truthy; cbn [b_email b_password b_code];
      rewrite Hem; reflexivity.
  - destruct pw as [pw|], cd as [cd|], rev; split; reflexivity.
Qed.

(** C6: the two responses are the same 401 only as long as the wrong
    password is a string.  A password sent as a number passes the presence
    test; for an address without an account the answer is still 401
    "Invalid email or password", but for the address of a verified account
    the number reaches [bcrypt.compare], which rejects it, and the answer
    is 500 "Failed to login": the status tells whether the account
    exists. *)
Theorem login_with_a_number_reveals_the_account (rev : revision) (penv : process_env)
    (e1 e2 : env) (w : world) (unknown known : string) (z : Z) (u : user) :
  unknown <> "" -> known <> "" -> z <> 0%Z ->
  (forall i, db_fault (e1 i) = false) ->
  (forall i, db_fault (e2 i) = false) ->
  account w unknown = None ->
  account w known = Some u ->
  u_is_verified u = true ->
  let r1 := run e1 0 w (AnyJson.login rev penv (Some unknown) (Resources.Number z)) in
  let r2 := run e2 0 w (AnyJson.login rev penv (Some known) (Resources.Number z)) in
  reply r1 = res_json 401 [message "Invalid email or password"] /\
  reply r2 = res_json 500 [message "Failed to login";
                           ("error", JStr "Illegal arguments: number, string")] /\
  status (reply r1) <> status (reply r2).
Proof.
  intros Hu Hk Hz Hdb1 Hdb2 Hnone Hsome Hv.
  apply find_filter_none in Hnone.
  destruct (find_filter _ _ _ Hsome) as [rest Hrest].
  apply truthy_text in Hu, Hk.
  pose proof (truthy_number z Hz) as Hn.
  destruct rev; unfold_any; rewrite Hu, Hk, Hn; cbn [negb orb];
    change (str (Some unknown)) with unknown; change (str (Some known)) with known;
    unfold_task; run_on Hdb1 Hdb2; rewrite Hnone, Hrest, Hv; run_on Hdb1 Hdb2;
    repeat split; discriminate.
Qed.

Lemma login_with_a_number_reveals_the_account_witness :
  let r1 := run Demo.quiet 0 (Demo.verified Later)
              (AnyJson.login Later Demo.penv (Some "zed@x.com") (Resources.Number 12345678)) in
  let r2 := run Demo.quiet 0 (Demo.verified Later)
              (AnyJson.login Later Demo.penv (Some "ama@x.com") (Resources.Number 12345678)) in
  reply r1 = res_json 401 [message "Invalid email or password"] /\
  reply r2 = res_json 500 [message "Failed to login";
                           ("error", JStr "Illegal arguments: number, string")] /\
  status (reply r1) <> status (reply r2).
Proof.
  apply (login_with_a_number_reveals_the_account Later Demo.penv Demo.quiet Demo.quiet
           (Demo.verified Later) "zed@x.com" "ama@x.com" 12345678
           {| u_id := 1; u_name := "Ama"; u_email := "ama@x.com";
              u_password := Bcrypt 10 0 "password1";
              u_verification_code := None;
              u_is_verified := true |}); try reflexivity; discriminate.
Defined.
(** *** Which requests meet the limiter *)

Lemma prefix_two (a b : string) (p : list string) :
  [a; b] `prefix_of` p -> exists rest, p = a :: b :: rest.
Proof. intros [k ->]. eauto. Qed.

(** The declared paths in the form they are compared in. *)
Ltac literal_paths :=
  repeat match goal with
    | |- context [List.map canonicalize (?a :: ?l)] =>
        let v := eval vm_compute in (List.map canonicalize (a :: l)) in
        change (List.map canonicalize (a :: l)) with v
    | |- context [List.map canonicalize (?x ++ [?y])] =>
        let v := eval vm_compute in (List.map canonicalize (x ++ [y])) in
        change (List.map canonicalize (x ++ [y])) with v
    | |- context [List.map canonicalize []] =>
        change (List.map canonicalize []) with (@nil string)
    end.

(** One test of the stack decided either way. *)
Ltac route_case :=
  case_bool_decide;
  [ repeat match goal with
      | H : [_; _] `prefix_of` _ |- _ => apply prefix_two in H as [? H]
      end;
    simplify_eq
  | first [ congruence
          | match goal with
            | H : ¬ _ `prefix_of` _ |- _ => exfalso; apply H; eexists; reflexivity
            end
          | match goal with H : _ ≠ _ |- _ => clear H end
          | idtac ] ];
  cbn [andb orb negb].

(** What the later revision's stack does with a request, by whether the
    limiter has to count it. *)
Lemma limited_routes (penv : process_env) (req : request) :
  let '(ms, ep) := dispatch Part000Routes.stack req in
  (In Limiter ms <-> limited req = true) /\
  (In Limiter ms -> ms = [Limiter] /\ exists h, Part000Routes.handler penv ep = Some h) /\
  (~ In Limiter ms -> ms = [] \/ Part000Routes.handler penv ep = None) /\
  (ep = Signup \/ ep = VerifyEmail \/ ep = Login \/ ep = Contact -> ms = [Limiter]).
Proof.
  unfold dispatch, limited, sensitive_route.
  destruct req as [m p ip auth b]. cbn [req_method req_path].
  unfold Part000Routes.stack. cbn [pipeline req_method req_path].
  unfold under, at_route, same_path, serves.
  literal_paths.
  generalize (List.map canonicalize p). clear p. intros q.
  destruct m.
  all: repeat route_case.
  all: cbn [In Part000Routes.handler];
    repeat split; intros; try discriminate; try tauto; try solve [intuition discriminate];
    try solve [eexists; reflexivity]; try solve [left; reflexivity]; try solve [right; reflexivity];
    try solve [left; reflexivity | intuition discriminate].
Qed.

(** *** Past the limiter *)

Ltac inner_step :=
  first
    [ apply inner_ret; cbn; discriminate
    | apply inner_await; [intros ?; discriminate | intros [[]|]; cbn]
    | match goal with
      | |- context [if ?c then _ else _] => destruct c; cbn
      | |- context [match ?l with [] => _ | _ :: _ => _ end] => destruct l; cbn
      end ].

Ltac inner_tree := unfold_handlers; unfold_task; cbn; repeat inner_step.

Lemma later_handlers_inner (penv : process_env) (b : req_body) :
  inner (Part000.post_api_signup penv b) /\
  inner (Part000.post_api_verify_email penv b) /\
  inner (Part000.post_api_login penv b) /\
  inner (Part000.post_api_contact penv b).
Proof. repeat split; inner_tree. Qed.

Lemma exec_hits (c : choice) (w : world) (o : op) :
  (forall key, o <> LimiterHit key) -> hits (exec c w o).1 = hits w.
Proof.
  intros Ho. destruct o as [ | q | | s rounds | s hash | | | uid em secret | m | key]; cbn.
  all: try (exfalso; exact (Ho _ eq_refl)).
  all: repeat match goal with
         | |- context [if ?b then _ else _] => destruct b; cbn
         | |- context [match ?h with Some _ => _ | None => _ end] => destruct h; cbn
         | |- context [execute_sql ?us ?q] => destruct (execute_sql us q); cbn
         | |- context [jwt_sign ?a ?b ?c ?d] => destruct (jwt_sign a b c d); cbn
         end.
  all: reflexivity.
Qed.

(** A handler past the limiter leaves the counters alone, counts nothing
    and does not answer 429. *)
Lemma inner_run (p : prog) :
  inner p -> forall (e : env) (i : nat) (w : world),
  hits (final (run e i w p)) = hits w /\
  status (reply (run e i w p)) <> 429 /\
  forall key, ~ In (LimiterHit key) (trace (run e i w p)).
Proof.
  induction 1 as [r Hr | o k Ho Hk IH]; intros e i w; cbn [run].
  - cbn. auto.
  - pose proof (exec_hits (e i) w o Ho) as Hh.
    destruct (exec (e i) w o) as [w' v]. cbn in Hh.
    destruct (IH v e (S i) w') as (H1 & H2 & H3). cbn.
    repeat split; [congruence | exact H2 |].
    intros key [Heq | Hin]; [exact (Ho key Heq) | exact (H3 key Hin)].
Qed.

Lemma app_of_limited (penv : process_env) (req : request) :
  limited req = true ->
  exists h,
    Part000Routes.handler penv (dispatch Part000Routes.stack req).2 = Some h /\
    Part000Routes.app penv req = Some (limiter req (h (req_json req))) /\
    inner (h (req_json req)).
Proof.
  intros Hl. pose proof (limited_routes penv req) as Hr.
  pose proof (later_handlers_inner penv (req_json req)) as (Hs & Hv & Hlog & Hc).
  unfold Part000Routes.app.
  destruct (dispatch Part000Routes.stack req) as [ms ep].
  destruct Hr as (Hiff & Hone & _ & _).
  destruct (Hone (proj2 Hiff Hl)) as [-> [h Hh]].
  exists h. cbn [snd]. rewrite Hh. repeat split.
  destruct ep; cbn in Hh; simplify_eq; first [assumption | apply inner_ret; cbn; discriminate].
Qed.

Lemma app_of_unlimited (penv : process_env) (req : request) (p : prog) :
  limited req = false -> Part000Routes.app penv req = Some p -> inner p.
Proof.
  intros Hl. pose proof (limited_routes penv req) as Hr.
  pose proof (later_handlers_inner penv (req_json req)) as (Hs & Hv & Hlog & Hc).
  unfold Part000Routes.app.
  destruct (dispatch Part000Routes.stack req) as [ms ep].
  destruct Hr as (Hiff & _ & Hnone & _).
  assert (Hnot : ~ In Limiter ms) by (intros Hin; apply Hiff in Hin; congruence).
  destruct (Hnone Hnot) as [-> | Hh]; [|rewrite Hh; discriminate].
  destruct ep; cbn; try discriminate; intros [= <-];
    first [assumption | apply inner_ret; cbn; discriminate].
Qed.

(** One request served: what it does to the counters and how it is
    answered. *)
Lemma serve_one_counts (penv : process_env) (w : world) (a : arrival) :
  let '(w', r) := serve_one penv w a in
  if limited (what a)
  then let '(h, ok) := RateLimit.hit (at_ms a) (req_ip (what a)) (hits w) in
       hits w' = h /\
       if ok then let_through r
       else exists res,
              r = Some res /\ reply res = too_many_requests /\
              trace res = [LimiterHit (req_ip (what a))] /\
              users w' = users w /\ outbox w' = outbox w
  else hits w' = hits w.
Proof.
  unfold serve_one.
  destruct (limited (what a)) eqn:Hl.
  - destruct (app_of_limited penv (what a) Hl) as (h & _ & -> & Hin).
    unfold limiter. cbn [run exec clock hits set_clock].
    destruct (RateLimit.hit (at_ms a) (req_ip (what a)) (hits w)) as [h' ok].
    destruct ok; cbn.
    + destruct (inner_run _ Hin (around a) 1%nat (set_hits (set_clock w (at_ms a)) h'))
        as (H1 & H2 & _).
      split; [exact H1|]. eexists. split; [reflexivity | exact H2].
    + split; [reflexivity|]. eexists. repeat split.
  - destruct (Part000Routes.app penv (what a)) as [p|] eqn:Hp; [|reflexivity].
    pose proof (app_of_unlimited penv (what a) p Hl Hp) as Hin.
    destruct (inner_run _ Hin (around a) 0%nat (set_clock w (at_ms a))) as (H1 & _ & _).
    exact H1.
Qed.

Lemma counted_true (key : string) (a : arrival) :
  counted key a = true <-> req_ip (what a) = key /\ limited (what a) = true.
Proof.
  unfold counted. rewrite andb_true_iff, String.eqb_eq. reflexivity.
Qed.

(** While the window of [key] is open and its count stays within the
    maximum, every request counted for [key] is let through, whatever else
    is served in between. *)
Lemma within_window (penv : process_env) (key : string) (t0 : N) (rest : list arrival) :
  forall (w : world) (n : N),
  hits w !! key = Some {| RateLimit.win_start := t0; RateLimit.win_count := n |} ->
  Forall (fun a => counted key a = true -> at_ms a < t0 + RateLimit.windowMs) rest ->
  n + N.of_nat (List.length (List.filter (counted key) rest)) <= RateLimit.max ->
  let '(w', answers) := serve_all penv w rest in
  hits w' !! key =
    Some {| RateLimit.win_start := t0;
            RateLimit.win_count := n + N.of_nat (List.length (List.filter (counted key) rest)) |} /\
  Forall2 (fun a r => counted key a = true -> let_through r) rest answers.
Proof.
  induction rest as [|a rest IH]; intros w n Hw Hin Hmax.
  - cbn. rewrite N.add_0_r. split; [exact Hw | constructor].
  - inversion Hin as [|? ? Ha Hrest]; subst.
    cbn [serve_all List.filter] in *.
    pose proof (serve_one_counts penv w a) as Hone.
    destruct (serve_one penv w a) as [w1 r].
    destruct (counted key a) eqn:Hc.
    + apply counted_true in Hc as [Hip Hl]. rewrite Hl, Hip in Hone.
      rewrite (hit_inside (at_ms a) key (hits w) t0 n Hw (Ha eq_refl)) in Hone.
      cbn [List.length] in Hmax.
      assert (Hok : (n + 1 <=? RateLimit.max) = true) by (apply N.leb_le; lia).
      rewrite Hok in Hone. destruct Hone as [Hh Hthrough].
      assert (Hw1 : hits w1 !! key =
                    Some {| RateLimit.win_start := t0; RateLimit.win_count := n + 1 |})
        by (rewrite Hh; apply lookup_insert_eq).
      specialize (IH w1 (n + 1) Hw1 Hrest ltac:(lia)).
      destruct (serve_all penv w1 rest) as [w2 rs]. destruct IH as [IH1 IH2].
      split.
      * rewrite IH1. cbn [List.length]. do 2 f_equal. lia.
      * constructor; [intros _; exact Hthrough | exact IH2].
    + assert (Hw1 : hits w1 !! key =
                    Some {| RateLimit.win_start := t0; RateLimit.win_count := n |}).
      { destruct (limited (what a)) eqn:Hl.
        - assert (Hne : req_ip (what a) <> key).
          { intros Hip. unfold counted in Hc. rewrite Hl, Hip, String.eqb_refl in Hc.
            discriminate. }
          pose proof (hit_other (at_ms a) (req_ip (what a)) key (hits w) Hne) as Hk.
          destruct (RateLimit.hit (at_ms a) (req_ip (what a)) (hits w)) as [h ok].
          destruct Hone as [-> _]. cbn in Hk. rewrite Hk. exact Hw.
        - rewrite Hone. exact Hw. }
      specialize (IH w1 n Hw1 Hrest Hmax).
      destruct (serve_all penv w1 rest) as [w2 rs]. destruct IH as [IH1 IH2].
      split; [exact IH1|].
      constructor; [intros Habs; cbn in Habs; congruence | exact IH2].
Qed.

(** C10: a client whose request opens a window is let through a hundred
    times within it, whatever else the server answers meanwhile; its next
    request inside the window is answered 429 by the limiter, which is the
    only operation of that run: the handler is not started and neither the
    table nor the outbox change; once the window has run out the client is
    let through again.  In the later revision's application the limiter
    stands, once, before every request under the signup, login and
    verify-email mounts and before the contact route, and no other request
    is ever counted. *)
Theorem limiter_guards_sensitive_routes (penv : process_env) (key : string) (w : world)
    (first next later : arrival) (rest : list arrival) (any : request) :
  counted key first = true ->
  RateLimit.open_window (at_ms first) key (hits w) = None ->
  Forall (fun a => counted key a = true ->
                   at_ms a < at_ms first + RateLimit.windowMs) rest ->
  List.length (List.filter (counted key) rest) = 99%nat ->
  counted key next = true ->
  at_ms next < at_ms first + RateLimit.windowMs ->
  counted key later = true ->
  at_ms first + RateLimit.windowMs <= at_ms later ->
  let '(w100, answers) := serve_all penv w (first :: rest) in
  let '(w101, refused) := serve_one penv w100 next in
  let '(_, again) := serve_one penv w101 later in
  Forall2 (fun a r => counted key a = true -> let_through r) (first :: rest) answers /\
  (exists res,
     refused = Some res /\ reply res = too_many_requests /\
     trace res = [LimiterHit key] /\
     users w101 = users w100 /\ outbox w101 = outbox w100) /\
  let_through again /\
  (In Limiter (dispatch Part000Routes.stack any).1 <-> limited any = true) /\
  match Part000Routes.app penv any with
  | Some p =>
      if limited any
      then exists h,
             Part000Routes.handler penv (dispatch Part000Routes.stack any).2 = Some h /\
             p = limiter any (h (req_json any))
      else forall (e : env) (w' : world) (k : string), ~ In (LimiterHit k) (trace (run e 0 w' p))
  | None => limited any = false
  end.
Proof.
  intros Hfirst Hfresh Hrest Hcount Hnext Ht Hlater Ht2.
  apply counted_true in Hfirst as [Hip1 Hl1].
  apply counted_true in Hnext as [Hip2 Hl2].
  apply counted_true in Hlater as [Hip3 Hl3].
  cbn [serve_all].
  pose proof (serve_one_counts penv w first) as H1.
  destruct (serve_one penv w first) as [w1 r1].
  rewrite Hl1, Hip1, (hit_fresh _ _ _ Hfresh) in H1. destruct H1 as [Hh1 Hthrough1].
  assert (Hw1 : hits w1 !! key =
                Some {| RateLimit.win_start := at_ms first; RateLimit.win_count := 1 |})
    by (rewrite Hh1; apply lookup_insert_eq).
  pose proof (within_window penv key (at_ms first) rest w1 1 Hw1 Hrest) as Hwin.
  rewrite Hcount in Hwin. specialize (Hwin ltac:(vm_compute; discriminate)).
  destruct (serve_all penv w1 rest) as [w100 rs]. destruct Hwin as [Hw100 Hall].
  change (1 + N.of_nat 99) with 100 in Hw100.
  pose proof (serve_one_counts penv w100 next) as H2.
  destruct (serve_one penv w100 next) as [w101 refused].
  rewrite Hl2, Hip2, (hit_inside _ _ _ _ _ Hw100 Ht) in H2.
  change (100 + 1 <=? RateLimit.max) with false in H2.
  destruct H2 as [Hh2 Hrefused].
  assert (Hw101 : RateLimit.open_window (at_ms later) key (hits w101) = None).
  { unfold RateLimit.open_window. rewrite Hh2, lookup_insert_eq. cbn.
    apply N.ltb_ge in Ht2. rewrite Ht2. reflexivity. }
  pose proof (serve_one_counts penv w101 later) as H3.
  destruct (serve_one penv w101 later) as [w102 again].
  rewrite Hl3, Hip3, (hit_fresh _ _ _ Hw101) in H3. destruct H3 as [_ Hagain].
  split; [constructor; [intros _; exact Hthrough1 | exact Hall]|].
  split; [exact Hrefused|].
  split; [exact Hagain|].
  pose proof (limited_routes penv any) as Hr.
  split.
  - destruct (dispatch Part000Routes.stack any) as [ms ep]. apply Hr.
  - destruct (limited any) eqn:Hl.
    + destruct (app_of_limited penv any Hl) as (h & Hh & -> & _). eauto.
    + destruct (Part000Routes.app penv any) as [p|] eqn:Hp; [|reflexivity].
      intros e w' k. apply (inner_run _ (app_of_unlimited penv any p Hl Hp) e 0%nat w').
Qed.

Lemma limiter_guards_sensitive_routes_witness :
  let '(w100, answers) :=
    serve_all Demo.penv empty_world (Demo.login_at 0 Demo.client :: Demo.busy) in
  let '(w101, refused) := serve_one Demo.penv w100 (Demo.login_at 899999 Demo.client) in
  let '(_, again) := serve_one Demo.penv w101 (Demo.login_at 900000 Demo.client) in
  Forall2 (fun a r => counted Demo.client a = true -> let_through r)
    (Demo.login_at 0 Demo.client :: Demo.busy) answers /\
  (exists res,
     refused = Some res /\ reply res = too_many_requests /\
     trace res = [LimiterHit Demo.client] /\
     users w101 = users w100 /\ outbox w101 = outbox w100) /\
  let_through again /\
  (In Limiter (dispatch Part000Routes.stack
                 (Demo.post ["API"; "Signup"; ""] Demo.client Demo.ama)).1 <->
   limited (Demo.post ["API"; "Signup"; ""] Demo.client Demo.ama) = true) /\
  match Part000Routes.app Demo.penv (Demo.post ["API"; "Signup"; ""] Demo.client Demo.ama) with
  | Some p =>
      if limited (Demo.post ["API"; "Signup"; ""] Demo.client Demo.ama)
      then exists h,
             Part000Routes.handler Demo.penv
               (dispatch Part000Routes.stack
                  (Demo.post ["API"; "Signup"; ""] Demo.client Demo.ama)).2 = Some h /\
             p = limiter (Demo.post ["API"; "Signup"; ""] Demo.client Demo.ama)
                   (h (req_json (Demo.post ["API"; "Signup"; ""] Demo.client Demo.ama)))
      else forall (e : env) (w' : world) (k : string), ~ In (LimiterHit k) (trace (run e 0 w' p))
  | None => limited (Demo.post ["API"; "Signup"; ""] Demo.client Demo.ama) = false
  end.
Proof.
  apply (limiter_guards_sensitive_routes Demo.penv Demo.client empty_world
           (Demo.login_at 0 Demo.client) (Demo.login_at 899999 Demo.client)
           (Demo.login_at 900000 Demo.client) Demo.busy
           (Demo.post ["API"; "Signup"; ""] Demo.client Demo.ama)).
  - vm_compute. reflexivity.
  - vm_compute. reflexivity.
  - unfold Demo.busy. rewrite !Forall_app. repeat split.
    + apply Forall_replicate. intros _. vm_compute. reflexivity.
    + constructor; [|constructor]. intros H. vm_compute in H. discriminate H.
    + apply Forall_replicate. intros _. vm_compute. reflexivity.
  - vm_compute. reflexivity.
  - vm_compute. reflexivity.
  - vm_compute. reflexivity.
  - vm_compute. reflexivity.
  - vm_compute. discriminate.
Defined.
(** ** The workflow end to end *)

Example emailRegex_samples :
  List.map (Regex.test emailRegex)
    ["ama@x.com"; "a.b@mail.example.org"; "ama@x"; "ama x@x.com"; "ama@@x.com"; "@x.com";
     "ama@.com"; "ama@x."]
  = [true; true; false; false; false; false; false; false].
Proof. vm_compute. reflexivity. Qed.

(** Text beyond ASCII: four letters of two bytes each are four code units,
    a character outside the basic plane is two; a no-break space or an
    em space in an address fails the e-mail test as a space does, other
    letters pass it. *)
Example text_samples :
  Js.length "ŁŁŁŁ" = 4 /\
  Js.length "😀" = 2 /\
  List.map (Regex.test emailRegex)
    ["ama x@x.com"; "ama x@x.com"; "łukasz@x.pl"]
  = [false; false; true].
Proof. vm_compute. repeat split; reflexivity. Qed.

(** The verification code for the least and the greatest draw, and for a
    draw whose product the double arithmetic rounds up to the next integer
    (the exact value is a little under 179784). *)
Example code_samples :
  List.map (Js.floor_scaled 100000 900000) [0; 2 ^ 53 - 1; 798478205933617]
  = [100000; 999999; 179784].
Proof. vm_compute. reflexivity. Qed.

(** Paths as Express matches them: whatever the case of the letters, with
    or without a last slash; a mount covers what lies under it, and a route
    declared for [GET] serves [HEAD]. *)
Example routing_samples :
  List.map (fun mp => dispatch Part000Routes.stack
                        {| req_method := fst mp; req_path := snd mp; req_ip := Demo.client;
                           req_authorization := None; req_json := Demo.ama |})
    [(POST, ["api"; "signup"]); (POST, ["API"; "SIGNUP"]); (POST, ["api"; "signup"; ""]);
     (GET, ["api"; "signup"; "x"]); (POST, ["api"; "signupx"]);
     (POST, ["Api"; "Contact"]); (GET, ["api"; "contact"]);
     (HEAD, ["api"; "babies"]); (OPTIONS, ["api"; "login"])]
  = [([Limiter], Signup); ([Limiter], Signup); ([Limiter], Signup);
     ([Limiter], NotFound); ([], NotFound);
     ([Limiter], Contact); ([], NotFound);
     ([AuthenticateToken], GetBabies); ([], Preflight)].
Proof. vm_compute. reflexivity. Qed.

(** Signup, a wrong code, the mailed code, login, and the token at the
    gate: an hour less a minute later it passes, a minute past the hour it
    does not, and a mangled token never does. *)
Example later_end_to_end :
  let w1 := Demo.signed_up Later in
  let bad := run Demo.quiet 0 w1 (verify_email Later Demo.penv Demo.ama_bad_code) in
  let good := run Demo.quiet 0 (final bad) (verify_email Later Demo.penv Demo.ama_code) in
  let logged := run Demo.quiet 0 (final good) (login Later Demo.penv Demo.ama_login) in
  List.map mail_html (outbox w1)
    = [WelcomeHtml "Ama" "100000" "http://localhost:5173/verify"] /\
  status (reply bad) = 400 /\
  message_of (reply bad) = Some "Invalid verification code" /\
  status (reply good) = 200 /\
  token_of (reply good) = Some Demo.ama_token /\
  status (reply logged) = 200 /\
  token_of (reply logged) = Some Demo.ama_token /\
  Part000.authenticateToken Demo.penv (59 * 60 * 1000)
    (Some [Word "Bearer"; Token Demo.ama_token]) = inr Demo.ama_token /\
  Part000.authenticateToken Demo.penv (61 * 60 * 1000)
    (Some [Word "Bearer"; Token Demo.ama_token])
    = inl (res_json 403 [message "Invalid token"]) /\
  Part000.authenticateToken Demo.penv 0 (Some [Word "Bearer"; Word "eyJhbGciOi"])
    = inl (res_json 403 [message "Invalid token"]) /\
  Part000.authenticateToken Demo.penv 0 None
    = inl (res_json 401 [message "Access token required"]).
Proof. vm_compute. repeat split; reflexivity. Qed.

(** ** The e-mail test

    The matcher against the language of the expression, and the language of
    [emailRegex]. *)

Lemma nullable_matches (r : Regex.re) : Regex.nullable r = true <-> matches r [].
Proof.
  split.
  - induction r; cbn; intros H; try discriminate.
    + constructor.
    + apply andb_true_iff in H as [H1 H2].
      change (@nil N) with (@nil N ++ []). constructor; auto.
    + apply orb_true_iff in H as [H|H]; [apply matches_alt_l | apply matches_alt_r]; auto.
    + constructor.
  - intros H. remember (@nil N) as l eqn:Hl.
    induction H; cbn; subst; try discriminate; auto.
    + apply app_eq_nil in Hl as [-> ->]. rewrite IHmatches1, IHmatches2; auto.
    + rewrite IHmatches; auto.
    + rewrite IHmatches; auto using orb_true_r.
Qed.

Lemma star_unfold (r : Regex.re) (c : N) (l : list N) :
  matches (Regex.Star r) (c :: l) ->
  exists l1 l2, l = l1 ++ l2 /\ matches r (c :: l1) /\ matches (Regex.Star r) l2.
Proof.
  intros H. remember (Regex.Star r) as r' eqn:Hr. remember (c :: l) as t eqn:Ht.
  revert c l Ht.
  induction H as [ | | | | | |r0 l1 l2 H1 IH1 H2 IH2]; intros c0 l0 Ht; try discriminate.
  injection Hr as ->.
  destruct l1 as [|c1 l1].
  - apply IH2; auto.
  - cbn in Ht. injection Ht as -> <-. eauto.
Qed.

Lemma seq_inv (r1 r2 : Regex.re) (l : list N) :
  matches (Regex.Seq r1 r2) l ->
  exists l1 l2, l = l1 ++ l2 /\ matches r1 l1 /\ matches r2 l2.
Proof. intros H. inversion H; subst. eauto. Qed.

Lemma deriv_matches (r : Regex.re) : forall (c : N) (l : list N),
  matches (Regex.deriv c r) l <-> matches r (c :: l).
Proof.
  induction r as [| | p | r1 IH1 r2 IH2 | r1 IH1 r2 IH2 | r IH]; intros c l; cbn.
  - split; intros H; inversion H.
  - split; intros H; inversion H.
  - destruct (p c) eqn:Hp; split; intros H; inversion H; subst.
    + constructor. exact Hp.
    + constructor.
    + congruence.
  - assert (Hseq : matches (Regex.Seq (Regex.deriv c r1) r2) l ->
                   matches (Regex.Seq r1 r2) (c :: l)).
    { intros H. apply seq_inv in H as (l1 & l2 & -> & H1 & H2).
      change (c :: l1 ++ l2) with ((c :: l1) ++ l2).
      constructor; [apply IH1|]; assumption. }
    assert (Hinv : matches (Regex.Seq r1 r2) (c :: l) ->
                   matches (Regex.Seq (Regex.deriv c r1) r2) l \/
                   (matches r1 [] /\ matches r2 (c :: l))).
    { intros H. apply seq_inv in H as (l1 & l2 & Heq & H1 & H2).
      destruct l1 as [|c1 l1].
      - cbn in Heq. right. subst. auto.
      - cbn in Heq. injection Heq as -> ->. left. constructor; [apply IH1|]; assumption. }
    destruct (Regex.nullable r1) eqn:Hn.
    + split.
      * intros H. inversion H; subst; [auto|].
        change (c :: l) with ([] ++ c :: l).
        constructor; [apply nullable_matches; exact Hn | apply IH2; assumption].
      * intros H. destruct (Hinv H) as [H'|[_ H']];
          [apply matches_alt_l; exact H' | apply matches_alt_r, IH2; exact H'].
    + split; [exact Hseq|].
      intros H. destruct (Hinv H) as [H'|[H' _]]; [exact H'|].
      apply nullable_matches in H'. congruence.
  - split; intros H; inversion H; subst;
      [apply matches_alt_l, IH1 | apply matches_alt_r, IH2
      | apply matches_alt_l, IH1 | apply matches_alt_r, IH2]; assumption.
  - split.
    + intros H. apply seq_inv in H as (l1 & l2 & -> & H1 & H2).
      change (c :: l1 ++ l2) with ((c :: l1) ++ l2).
      constructor; [apply IH|]; assumption.
    + intros H. apply star_unfold in H as (l1 & l2 & -> & H1 & H2).
      constructor; [apply IH|]; assumption.
Qed.

Lemma accepts_matches (r : Regex.re) (l : list N) :
  Regex.accepts r l = true <-> matches r l.
Proof.
  revert r. induction l as [|c l IH]; intros r; cbn.
  - apply nullable_matches.
  - rewrite IH. apply deriv_matches.
Qed.

(** The matcher decides the language of the expression. *)
Lemma test_matches (r : Regex.re) (s : string) :
  Regex.test r s = true <-> matches r (Js.units s).
Proof. apply accepts_matches. Qed.

Lemma class_inv (p : N -> bool) (l : list N) :
  matches (Regex.Class p) l -> exists c, l = [c] /\ p c = true.
Proof. intros H. inversion H; subst. eauto. Qed.

Lemma plus_class (p : N -> bool) (l : list N) :
  matches (Regex.Plus (Regex.Class p)) l <-> l <> [] /\ forall c, In c l -> p c = true.
Proof.
  assert (Hstar : forall t, matches (Regex.Star (Regex.Class p)) t <->
                            forall c, In c t -> p c = true).
  { intros t. split.
    - intros H. remember (Regex.Star (Regex.Class p)) as r eqn:Hr.
      induction H as [ | | | | | |r0 l1 l2 H1 IH1 H2 IH2]; try discriminate.
      + intros c [].
      + injection Hr as ->. apply class_inv in H1 as (c & -> & Hc).
        intros c' [<- | Hin]; [exact Hc | apply IH2; auto].
    - induction t as [|c t IH]; intros H; [constructor|].
      change (c :: t) with ([c] ++ t).
      constructor; [constructor; apply H; left; reflexivity|].
      apply IH. intros c' Hin. apply H. right. exact Hin. }
  split.
  - intros H. apply seq_inv in H as (l1 & l2 & -> & H1 & H2).
    apply class_inv in H1 as (c & -> & Hc).
    split; [discriminate|].
    intros c' [<- | Hin]; [exact Hc | exact (proj1 (Hstar l2) H2 c' Hin)].
  - intros [Hne H]. destruct l as [|c l]; [congruence|].
    change (c :: l) with ([c] ++ l).
    constructor; [constructor; apply H; left; reflexivity|].
    apply Hstar. intros c' Hin. apply H. right. exact Hin.
Qed.

Lemma char_class (a : ascii) (l : list N) :
  matches (Regex.Class (Regex.char a)) l <-> l = [N_of_ascii a].
Proof.
  split.
  - intros H. apply class_inv in H as (c & -> & Hc).
    unfold Regex.char in Hc. apply N.eqb_eq in Hc. subst. reflexivity.
  - intros ->. constructor. apply N.eqb_refl.
Qed.

(** [\s] by its code units. *)
Lemma space_white (c : N) : Regex.space c = true <-> In c white_space.
Proof.
  unfold Regex.space, white_space. cbn [In].
  rewrite !orb_true_iff, !andb_true_iff, !N.leb_le, !N.eqb_eq. lia.
Qed.

Lemma plain_class (c : N) :
  negb (Regex.space c || Regex.char "@" c) = true <-> ~ In c white_space /\ c <> 64.
Proof.
  rewrite negb_true_iff, orb_false_iff, <- !not_true_iff_false, space_white.
  unfold Regex.char. rewrite N.eqb_eq. change (N_of_ascii "@") with 64.
  intuition congruence.
Qed.

(** X1: the e-mail test accepts exactly the strings that read
    [local@domain.tld] in code units, each of the three parts non-empty and
    free of white space and of [@]; the parts after the [@] may themselves
    contain dots.  White space is what [\s] matches, the no-break space and
    the other Unicode spaces included. *)
Theorem emailRegex_accepts (s : string) :
  Regex.test emailRegex s = true <-> email_shaped s.
Proof.
  rewrite test_matches. unfold emailRegex, email_shaped, plain.
  generalize (Js.units s). intros l. split.
  - intros H.
    apply seq_inv in H as (a & l1 & -> & Ha & H).
    apply seq_inv in H as (at_ & l2 & -> & Hat & H).
    apply seq_inv in H as (b & l3 & -> & Hb & H).
    apply seq_inv in H as (dot & c & -> & Hdot & Hc).
    apply char_class in Hat, Hdot. subst.
    apply plus_class in Ha as [Ha1 Ha2], Hb as [Hb1 Hb2], Hc as [Hc1 Hc2].
    exists a, b, c.
    split; [reflexivity|].
    split; [|split]; (split; [assumption|]); intros x Hx; apply plain_class; auto.
  - intros (a & b & c & -> & [Ha1 Ha2] & [Hb1 Hb2] & [Hc1 Hc2]).
    repeat (constructor; try apply N.eqb_refl);
      apply plus_class; (split; [assumption|]); intros x Hx; apply plain_class; auto.
Qed.

(** ** Validation before the first await *)

(** X2: a signup, a verification or a login with a required field missing
    or empty is answered 400 with the route's own message before anything
    is awaited: the world is as it was. *)
Theorem missing_fields_are_rejected (rev : revision) (penv : process_env) (e : env)
    (w : world) (b1 b2 b3 : req_body) :
  Js.truthy (b_name b1) && Js.truthy (b_email b1) && Js.truthy (b_password b1) = false ->
  Js.truthy (b_email b2) && Js.truthy (b_code b2) = false ->
  Js.truthy (b_email b3) && Js.truthy (b_password b3) = false ->
  run e 0 w (signup rev penv b1) =
    answered_at_once w
      (res_json 400 [message "Missing required fields: name, email, password"]) /\
  run e 0 w (verify_email rev penv b2) =
    answered_at_once w (res_json 400 [message "Missing required fields: email, code"]) /\
  run e 0 w (login rev penv b3) =
    answered_at_once w (res_json 400 [message "Missing required fields: email, password"]).
Proof.
  intros H1 H2 H3.
  assert (G1 : negb (Js.truthy (b_name b1)) || negb (Js.truthy (b_email b1))
               || negb (Js.truthy (b_password b1)) = true).
  { destruct (Js.truthy (b_name b1)), (Js.truthy (b_email b1)),
      (Js.truthy (b_password b1)); auto. }
  assert (G2 : negb (Js.truthy (b_email b2)) || negb (Js.truthy (b_code b2)) = true).
  { destruct (Js.truthy (b_email b2)), (Js.truthy (b_code b2)); auto. }
  assert (G3 : negb (Js.truthy (b_email b3)) || negb (Js.truthy (b_password b3)) = true).
  { destruct (Js.truthy (b_email b3)), (Js.truthy (b_password b3)); auto. }
  destruct rev; unfold_handlers; rewrite G1, G2, G3; repeat split.
Qed.

Lemma missing_fields_are_rejected_witness :
  run Demo.quiet 0 empty_world (signup Later Demo.penv Cases.no_name) =
    answered_at_once empty_world
      (res_json 400 [message "Missing required fields: name, email, password"]) /\
  run Demo.quiet 0 empty_world (verify_email Later Demo.penv Cases.no_code) =
    answered_at_once empty_world
      (res_json 400 [message "Missing required fields: email, code"]) /\
  run Demo.quiet 0 empty_world (login Later Demo.penv Cases.no_password) =
    answered_at_once empty_world
      (res_json 400 [message "Missing required fields: email, password"]).
Proof.
  apply (missing_fields_are_rejected Later Demo.penv Demo.quiet empty_world
           Cases.no_name Cases.no_code Cases.no_password); reflexivity.
Defined.

(** X3: a signup whose address fails the e-mail test is answered 400
    "Invalid email format" before anything is awaited, in both revisions. *)
Theorem signup_rejects_malformed_address (rev : revision) (penv : process_env) (e : env)
    (w : world) (b : req_body) :
  Js.truthy (b_name b) = true ->
  Js.truthy (b_email b) = true ->
  Js.truthy (b_password b) = true ->
  Regex.test emailRegex (str (b_email b)) = false ->
  run e 0 w (signup rev penv b) =
    answered_at_once w (res_json 400 [message "Invalid email format"]).
Proof.
  intros Hn He Hp Hre.
  destruct rev; unfold_handlers; rewrite Hn, He, Hp, Hre; reflexivity.
Qed.

Lemma signup_rejects_malformed_address_witness :
  run Demo.quiet 0 empty_world (signup Earlier Demo.penv Cases.bad_address) =
    answered_at_once empty_world (res_json 400 [message "Invalid email format"]).
Proof.
  apply (signup_rejects_malformed_address Earlier Demo.penv Demo.quiet empty_world
           Cases.bad_address); reflexivity.
Defined.

(** ** Signup to verification *)

(** What [Js.round53] does to a number of more than 53 bits. *)
Lemma round53_spec (n : N) :
  N.size n <= 53 /\ Js.round53 n = n \/
  exists s P,
    N.size n = 53 + s /\ 1 <= s /\ P = 2 ^ s /\
    (Js.round53 n = (n / P) * P \/
     Js.round53 n = (n / P + 1) * P /\ P <= 2 * (n mod P)).
Proof.
  unfold Js.round53.
  destruct (N.leb_spec (N.size n) 53) as [Hle | Hgt]; [left; auto | right].
  set (s := N.size n - 53).
  exists s, (2 ^ s).
  assert (Hs : 1 <= s) by (unfold s; lia).
  split; [unfold s; lia|]. split; [exact Hs|]. split; [reflexivity|].
  rewrite !N.shiftl_mul_pow2, N.shiftr_div_pow2, N.mul_1_l.
  assert (HP : 2 ^ s <> 0) by (apply N.pow_nonzero; discriminate).
  assert (Hhalf : 2 ^ s = 2 * 2 ^ (s - 1)).
  { rewrite <- N.pow_succ_r by lia. f_equal. lia. }
  pose proof (N.div_mod n (2 ^ s) HP) as Hdm.
  pose proof (N.mod_upper_bound n (2 ^ s) HP) as Hm.
  remember (2 ^ (s - 1)) as h eqn:Hh. remember (2 ^ s) as P eqn:HeqP.
  remember (n / P) as q eqn:Hq. remember (n mod P) as r eqn:Hr.
  assert (Hrem : n - q * P = r) by nia.
  rewrite Hrem.
  destruct ((h <? r) || ((r =? h) && N.odd q)) eqn:Hup.
  - right. split; [reflexivity|].
    apply orb_true_iff in Hup as [Hup | Hup].
    + apply N.ltb_lt in Hup. lia.
    + apply andb_true_iff in Hup as [Hup _]. apply N.eqb_eq in Hup. lia.
  - left. reflexivity.
Qed.

Lemma size_at_most (n b : N) : n < 2 ^ b -> N.size n <= b.
Proof.
  intros H. destruct (N.eq_dec n 0) as [-> | Hn]; [cbn; lia|].
  rewrite N.size_log2 by exact Hn.
  apply N.le_succ_l, N.log2_lt_pow2; lia.
Qed.

Lemma size_at_least (n b : N) : 2 ^ b <= n -> b < N.size n.
Proof.
  intros H. pose proof (N.size_gt n) as Hg.
  apply (N.pow_lt_mono_r_iff 2); lia.
Qed.

(** Of a number below [2^73] the last twenty bits at most are rounded
    away. *)
Lemma round53_below_73 (n : N) :
  n < 2 ^ 73 ->
  Js.round53 n <= n + 2 ^ 19 /\
  (forall c, c * 2 ^ 20 <= n -> c * 2 ^ 20 <= Js.round53 n) /\
  (forall c, n = c * 2 ^ 20 -> Js.round53 n = n) /\
  (2 ^ 72 <= n -> exists c, Js.round53 n = c * 2 ^ 20).
Proof.
  intros Hn. pose proof (size_at_most n 73 Hn) as Hsize.
  destruct (round53_spec n) as [[Hsz ->] | (s & P & Hs & Hs1 & HP & Hr)].
  - split; [lia|]. split; [auto|]. split; [auto|].
    intros H72. apply size_at_least in H72. lia.
  - assert (Hs20 : s <= 20) by lia.
    assert (Hd : 2 ^ 20 = P * 2 ^ (20 - s)).
    { subst P. rewrite <- N.pow_add_r. f_equal. lia. }
    assert (Hd1 : 2 ^ (20 - s) <> 0) by (apply N.pow_nonzero; discriminate).
    assert (HP0 : P <> 0) by (subst P; apply N.pow_nonzero; discriminate).
    pose proof (N.div_mod n P HP0) as Hdm.
    pose proof (N.mod_upper_bound n P HP0) as Hm.
    remember (2 ^ (20 - s)) as d eqn:Hdd.
    remember (n / P) as q eqn:Hq. remember (n mod P) as r eqn:Hrr.
    assert (H19 : 2 ^ 20 = 2 * 2 ^ 19) by reflexivity.
    remember (2 ^ 19) as h19 eqn:Hh19. remember (2 ^ 20) as h20 eqn:Hh20.
    assert (HPle : P <= h20) by nia.
    split; [|split; [|split]].
    + destruct Hr as [-> | [-> Hup]]; nia.
    + intros c Hc.
      assert (Hcd : c * d <= q).
      { apply N.lt_succ_r. apply (N.mul_lt_mono_pos_l P); [lia|]. nia. }
      destruct Hr as [-> | [-> Hup]]; nia.
    + intros c Hc.
      assert (Hr0 : r = 0).
      { rewrite Hrr, Hc, Hd.
        replace (c * (P * d)) with (c * d * P) by lia.
        apply N.Div0.mod_mul. }
      destruct Hr as [-> | [-> Hup]]; nia.
    + intros H72. apply size_at_least in H72.
      assert (s = 20) by lia. subst s.
      assert (P = h20) by congruence. subst P.
      destruct Hr as [-> | [-> Hup]]; rewrite <- H; eexists; reflexivity.
Qed.

Lemma code_in_range (k : N) :
  let n := Js.floor_scaled 100000 900000 (k mod Js.random_denominator) in
  100000 <= n <= 999999.
Proof.
  unfold Js.floor_scaled. cbv zeta.
  assert (Hd : Js.random_denominator <> 0) by (vm_compute; discriminate).
  pose proof (N.mod_upper_bound k _ Hd) as Hk.
  remember (k mod Js.random_denominator) as r eqn:Hr. clear Hr k.
  assert (HA : Js.random_denominator = 2 ^ 33 * 2 ^ 20) by reflexivity.
  assert (H73 : 2 ^ 73 = 2 ^ 20 * 2 ^ 33 * 2 ^ 20) by reflexivity.
  assert (H72 : 2 ^ 73 = 2 * 2 ^ 72) by reflexivity.
  assert (H20 : 2 ^ 20 = 1048576) by reflexivity.
  assert (H19 : 2 ^ 19 = 524288) by reflexivity.
  assert (Hn1 : r * 900000 < 2 ^ 73) by nia.
  destruct (round53_below_73 (r * 900000) Hn1) as (Hup1 & _ & _ & Hmul1).
  remember (Js.round53 (r * 900000)) as p eqn:Hp. clear Hp.
  assert (Hbounds : 100000 * Js.random_denominator <=
                    Js.round53 (100000 * Js.random_denominator + p) <
                    1000000 * Js.random_denominator).
  { destruct (N.le_gt_cases (2 ^ 72) (r * 900000)) as [Hbig | Hsmall].
    - destruct (Hmul1 Hbig) as [c Hc].
      assert (Hc' : c < 900000 * 2 ^ 33) by nia.
      assert (Hn2 : 100000 * Js.random_denominator + p < 2 ^ 73) by nia.
      destruct (round53_below_73 _ Hn2) as (_ & _ & Hexact & _).
      rewrite (Hexact (100000 * 2 ^ 33 + c)) by nia. nia.
    - assert (Hn2 : 100000 * Js.random_denominator + p < 2 ^ 73) by nia.
      destruct (round53_below_73 _ Hn2) as (Hup2 & Hlow2 & _ & _).
      specialize (Hlow2 (100000 * 2 ^ 33) ltac:(nia)). nia. }
  split.
  - apply N.div_le_lower_bound; [exact Hd | lia].
  - apply N.lt_succ_r. apply N.Div0.div_lt_upper_bound. lia.
Qed.

Lemma toString_nonempty (n : N) : Js.truthy (Some (Js.toString n)) = true.
Proof.
  unfold Js.truthy, Js.toString.
  destruct (N.to_uint n) as [|d|d|d|d|d|d|d|d|d|d] eqn:Hn; try reflexivity.
  destruct n as [|p]; [discriminate|].
  exfalso. exact (DecimalPos.Unsigned.to_uint_nonnil p Hn).
Qed.

Lemma find_app_fresh (f : user -> bool) (us : list user) (u : user) :
  List.find f us = None -> f u = true -> List.find f (us ++ [u]) = Some u.
Proof.
  induction us as [|a us IH]; cbn; intros Hn Hu; [rewrite Hu; reflexivity|].
  destruct (f a); [discriminate | auto].
Qed.

Lemma map_untouched (f : user -> bool) (g : user -> user) (us : list user) :
  List.find f us = None -> List.map (fun u => if f u then g u else u) us = us.
Proof.
  induction us as [|a us IH]; cbn; intros Hn; [reflexivity|].
  destruct (f a); [discriminate|]. rewrite IH; auto.
Qed.

Lemma has_email_refl (u : user) : has_email (u_email u) u = true.
Proof. apply String.eqb_refl. Qed.

(** Both revisions on a pending account and its code, with a key to sign
    with: 200, and the rows of that address verified. *)
Lemma verify_marks_verified (rev : revision) (penv : process_env) (e : env) (w : world)
    (b : req_body) (u : user) (d : digest) :
  Js.truthy (b_email b) = true ->
  Js.truthy (b_code b) = true ->
  (forall i, db_fault (e i) = false) ->
  account w (str (b_email b)) = Some u ->
  u_verification_code u = Some d ->
  digest_plain d = str (b_code b) ->
  Js.truthy (penv !! "JWT_SECRET") = true ->
  let r := run e 0 w (verify_email rev penv b) in
  status (reply r) = 200 /\
  users (final r) =
    List.map (fun x => if has_email (str (b_email b)) x then verified_row x else x) (users w).
Proof.
  intros He Hc Hdb Hacc Hcode Hplain Hkey.
  destruct (find_filter _ _ _ Hacc) as [rest Hrest].
  destruct rev; unfold_handlers; rewrite He, Hc; cbn [negb orb]; unfold_task;
    run_on Hdb; rewrite Hrest; run_on Hdb; rewrite Hcode; cbn;
    rewrite Hplain, String.eqb_refl; run_on Hdb.
  - unfold jwt_sign, Part000.signing_key. rewrite Hkey. cbn.
    destruct (mail_fault (e 5%nat)); run_on Hdb; split; reflexivity.
  - split; reflexivity.
Qed.

(** The run of a signup that succeeds. *)
Lemma signup_success_run (rev : revision) (penv : process_env) (e : env)
    (w : world) (b : req_body) :
  signup_validated rev b ->
  account w (str (b_email b)) = None ->
  (forall i, db_fault (e i) = false) ->
  (forall i, mail_fault (e i) = false) ->
  let r := run e 0 w (signup rev penv b) in
  reply r =
    res_json 201
      (message "User registered successfully! Please check your email for the verification code."
       :: match rev with Later => [("redirect", JStr "/verify")] | Earlier => [] end) /\
  exists code salt1 salt2 id m,
    100000 <= code <= 999999 /\
    users (final r) =
      users w ++ [ {| u_id := id;
                      u_name := str (b_name b);
                      u_email := str (b_email b);
                      u_password := Bcrypt 10 salt1 (str (b_password b));
                      u_verification_code := Some (Bcrypt 10 salt2 (Js.toString code));
                      u_is_verified := false |} ] /\
    outbox (final r) = outbox w ++ [m] /\
    mail_to m = Some (str (b_email b)) /\
    mailed_code m = Some (Js.toString code).
Proof.
  intros (Hn & He & Hp & Hre & Hlen) Hnone Hdb Hmail.
  pose proof (find_filter_none _ _ Hnone) as Hfil.
  unfold account in Hnone.
  pose proof (code_in_range (entropy (e 3%nat))) as Hcode.
  destruct rev; unfold_handlers; rewrite Hn, He, Hp, Hre; cbn [negb orb].
  - destruct (Hlen eq_refl) as (H1 & H2 & H3).
    apply N.ltb_ge in H1, H2, H3. rewrite H1, H2, H3; cbn [orb].
    unfold_task. run_on Hdb Hmail. rewrite Hfil. run_on Hdb Hmail.
    rewrite (insert_user_fresh _ _ _ _ _ _ Hnone). run_on Hdb Hmail.
    split; [reflexivity|]. do 5 eexists. split; [exact Hcode|]. repeat split.
  - unfold_task. run_on Hdb Hmail. rewrite Hfil. run_on Hdb Hmail.
    rewrite (insert_user_fresh _ _ _ _ _ _ Hnone). run_on Hdb Hmail.
    split; [reflexivity|]. do 5 eexists. split; [exact Hcode|]. repeat split.
Qed.



(** X5: the code that a successful signup has mailed verifies the account:
    a verification request with the address and the code of the last mail
    in the outbox is answered 200, and the account of that address, the
    one the signup created, is then active. *)
Theorem mailed_code_verifies (rev : revision) (penv : process_env) (e e' : env)
    (w : world) (b : req_body) :
  signup_validated rev b ->
  account w (str (b_email b)) = None ->
  (forall i, db_fault (e i) = false) ->
  (forall i, mail_fault (e i) = false) ->
  (forall i, db_fault (e' i) = false) ->
  Js.truthy (penv !! "JWT_SECRET") = true ->
  let r := run e 0 w (signup rev penv b) in
  exists m code,
    last (outbox (final r)) = Some m /\
    mailed_code m = Some code /\
    let r' := run e' 0 (final r)
                (verify_email rev penv (code_request (str (b_email b)) code)) in
    status (reply r') = 200 /\
    exists u, account (final r') (str (b_email b)) = Some u /\
              is_active u = true /\
              u_name u = str (b_name b) /\
              digest_plain (u_password u) = str (b_password b).
Proof.
  intros Hval Hnone Hdb Hmail Hdb' Hkey r.
  destruct (signup_success_run rev penv e w b Hval Hnone Hdb Hmail)
    as (_ & code & salt1 & salt2 & id & m & _ & Hus & Hout & _ & Hm).
  fold r in Hus, Hout.
  exists m, (Js.toString code). repeat split.
  - rewrite Hout. apply last_snoc.
  - exact Hm.
  - eapply (verify_marks_verified rev penv e' (final r)
              (code_request (str (b_email b)) (Js.toString code))); eauto.
    + destruct Hval as (_ & He & _). destruct (b_email b) as [s|]; [exact He | discriminate].
    + apply toString_nonempty.
    + unfold account. rewrite Hus. apply find_app_fresh; [exact Hnone|].
      apply String.eqb_refl.
    + reflexivity.
    + reflexivity.
  - eexists. repeat split.
    + unfold account.
      destruct (verify_marks_verified rev penv e' (final r)
                  (code_request (str (b_email b)) (Js.toString code))
                  {| u_id := id;
                     u_name := str (b_name b); u_email := str (b_email b);
                     u_password := Bcrypt 10 salt1 (str (b_password b));
                     u_verification_code := Some (Bcrypt 10 salt2 (Js.toString code));
                     u_is_verified := false |}
                  (Bcrypt 10 salt2 (Js.toString code))) as [_ Hafter]; auto.
      * destruct Hval as (_ & He & _). destruct (b_email b) as [s|]; [exact He | discriminate].
      * apply toString_nonempty.
      * unfold account. rewrite Hus. apply find_app_fresh; [exact Hnone|].
        apply String.eqb_refl.
      * rewrite Hafter, Hus, map_app.
        change (str (b_email (code_request (str (b_email b)) (Js.toString code))))
          with (str (b_email b)).
        rewrite (map_untouched _ _ _ Hnone). cbn [List.map].
        unfold has_email at 2. cbn [u_email]. rewrite String.eqb_refl.
        apply find_app_fresh; [exact Hnone | apply String.eqb_refl].
    + reflexivity.
    + reflexivity.
    + reflexivity.
Qed.

Lemma mailed_code_verifies_witness :
  let r := run Demo.quiet 0 empty_world (signup Later Demo.penv Demo.ama) in
  exists m code,
    last (outbox (final r)) = Some m /\
    mailed_code m = Some code /\
    let r' := run Demo.quiet 0 (final r)
                (verify_email Later Demo.penv (code_request (str (b_email Demo.ama)) code)) in
    status (reply r') = 200 /\
    exists u, account (final r') (str (b_email Demo.ama)) = Some u /\
              is_active u = true /\
              u_name u = str (b_name Demo.ama) /\
              digest_plain (u_password u) = str (b_password Demo.ama).
Proof.
  apply (mailed_code_verifies Later Demo.penv Demo.quiet Demo.quiet empty_world Demo.ama);
    try reflexivity.
  repeat split; try reflexivity; vm_compute; discriminate.
Defined.

(** ** Verification and login, the remaining outcomes *)

(** X6: a verification request for a pending account with anything but
    the stored code is refused and changes nothing.  A wrong code sent as a
    string is answered 400 "Invalid verification code".  A code sent as a
    number, even one with the right digits, is not compared at all:
    [bcrypt.compare] rejects it and the answer is 500 "Failed to verify
    email". *)
Theorem wrong_code_is_refused (rev : revision) (penv : process_env) (e : env)
    (w : world) (email : string) (code : Resources.jsval) (u : user) (d : digest) :
  email <> "" ->
  Resources.truthy code = true ->
  (forall i, db_fault (e i) = false) ->
  account w email = Some u ->
  u_verification_code u = Some d ->
  code <> Resources.Text (digest_plain d) ->
  let r := run e 0 w (AnyJson.verify_email rev penv (Some email) code) in
  reply r =
    match code with
    | Resources.Text _ => res_json 400 [message "Invalid verification code"]
    | _ =>
        res_json 500
          [message "Failed to verify email";
           ("error", JStr ("Illegal arguments: " +:+ AnyJson.typeof code +:+ ", string"))]
    end /\
  final r = w.
Proof.
  intros He Hc Hdb Hacc Hcode Hne.
  destruct (find_filter _ _ _ Hacc) as [rest Hrest].
  apply truthy_text in He.
  destruct code as [ | | z | s]; try discriminate Hc.
  - destruct rev; unfold_any; rewrite He, Hc; cbn [negb orb];
      change (str (Some email)) with email; unfold_task;
      run_on Hdb; rewrite Hrest; run_on Hdb; rewrite Hcode; cbn;
      (split; [reflexivity | apply set_users_same]).
  - assert (Hneq : String.eqb s (digest_plain d) = false)
      by (apply String.eqb_neq; congruence).
    destruct rev; unfold_any; rewrite He, Hc; cbn [negb orb];
      change (str (Some email)) with email; unfold_task;
      run_on Hdb; rewrite Hrest; run_on Hdb; rewrite Hcode; cbn; rewrite Hneq;
      run_on Hdb; (split; [reflexivity | apply set_users_same]).
Qed.

Lemma wrong_code_is_refused_witness :
  let r := run Demo.quiet 0 (Demo.signed_up Later)
             (AnyJson.verify_email Later Demo.penv (Some "ama@x.com")
                (Resources.Number 100000)) in
  reply r =
    res_json 500
      [message "Failed to verify email";
       ("error", JStr ("Illegal arguments: " +:+
                       AnyJson.typeof (Resources.Number 100000) +:+ ", string"))] /\
  final r = Demo.signed_up Later.
Proof.
  apply (wrong_code_is_refused Later Demo.penv Demo.quiet (Demo.signed_up Later)
           "ama@x.com" (Resources.Number 100000) Cases.ama_row (Bcrypt 10 0 "100000"));
    try reflexivity; discriminate.
Defined.

(** X7: a verification request for an address no account has is answered
    404 "User not found" and changes nothing. *)
Theorem unknown_address_is_not_found (rev : revision) (penv : process_env) (e : env)
    (w : world) (b : req_body) :
  Js.truthy (b_email b) = true ->
  Js.truthy (b_code b) = true ->
  (forall i, db_fault (e i) = false) ->
  account w (str (b_email b)) = None ->
  let r := run e 0 w (verify_email rev penv b) in
  reply r = res_json 404 [message "User not found"] /\
  final r = w.
Proof.
  intros He Hc Hdb Hacc.
  pose proof (find_filter_none _ _ Hacc) as Hfil.
  destruct rev; unfold_handlers; rewrite He, Hc; cbn [negb orb]; unfold_task;
    run_on Hdb; rewrite Hfil; run_on Hdb; (split; [reflexivity | apply set_users_same]).
Qed.

Lemma unknown_address_is_not_found_witness :
  let r := run Demo.quiet 0 empty_world (verify_email Earlier Demo.penv Demo.ama_code) in
  reply r = res_json 404 [message "User not found"] /\
  final r = empty_world.
Proof.
  apply (unknown_address_is_not_found Earlier Demo.penv Demo.quiet empty_world Demo.ama_code);
    reflexivity.
Defined.

(** The token [jwt.sign] makes at clock [now] for an account with key [k]. *)
Lemma jwt_sign_token (now : N) (u : user) (secret : option string) :
  Js.truthy secret = true ->
  jwt_sign now (u_id u) (u_email u) secret =
    inl (VToken {| jwt_userId := u_id u; jwt_email := u_email u; jwt_iat := now / 1000;
                   jwt_exp := now / 1000 + 3600; jwt_key := str secret |}).
Proof.
  intros H. unfold jwt_sign. rewrite H.
  destruct secret as [s|]; [|discriminate]. unfold Js.truthy in H. cbn. unfold Js.or_else.
  destruct (String.eqb s ""); [discriminate | reflexivity].
Qed.

(** A login of a verified account with its password, the key configured. *)
Lemma login_success_run (rev : revision) (penv : process_env) (e : env) (w : world)
    (b : req_body) (u : user) :
  Js.truthy (b_email b) = true ->
  Js.truthy (b_password b) = true ->
  (forall i, db_fault (e i) = false) ->
  account w (str (b_email b)) = Some u ->
  u_is_verified u = true ->
  digest_plain (u_password u) = str (b_password b) ->
  Js.truthy (configured_key rev penv) = true ->
  let t := {| jwt_userId := u_id u; jwt_email := u_email u; jwt_iat := clock w / 1000;
              jwt_exp := clock w / 1000 + 3600; jwt_key := str (configured_key rev penv) |} in
  let r := run e 0 w (login rev penv b) in
  reply r =
    res_json 200
      (message "Login successful" :: ("token", JToken t)
       :: match rev with
          | Later => [("user", user_info u); ("redirect", JStr "/dashboard")]
          | Earlier => []
          end) /\
  final r = w.
Proof.
  intros He Hp Hdb Hacc Hv Hpw Hkey.
  destruct (find_filter _ _ _ Hacc) as [rest Hrest].
  destruct rev; unfold_handlers; rewrite He, Hp; cbn [negb orb]; unfold_task;
    run_on Hdb; rewrite Hrest, Hv; run_on Hdb; rewrite Hpw, String.eqb_refl; run_on Hdb;
    rewrite (jwt_sign_token _ _ _ Hkey); run_on Hdb;
    (split; [reflexivity | apply set_users_same]).
Qed.

(** X8: a login with the address and the password of a verified account is
    answered 200 with a token for that account, valid for 3600 seconds and
    signed with the configured key; the later revision adds the account's
    id, name and address.  No digest is in the response and the world is
    unchanged. *)
Theorem login_issues_token (rev : revision) (penv : process_env) (e : env) (w : world)
    (b : req_body) (u : user) :
  Js.truthy (b_email b) = true ->
  Js.truthy (b_password b) = true ->
  (forall i, db_fault (e i) = false) ->
  account w (str (b_email b)) = Some u ->
  u_is_verified u = true ->
  digest_plain (u_password u) = str (b_password b) ->
  Js.truthy (configured_key rev penv) = true ->
  let r := run e 0 w (login rev penv b) in
  status (reply r) = 200 /\
  token_of (reply r) =
    Some {| jwt_userId := u_id u; jwt_email := u_email u; jwt_iat := clock w / 1000;
            jwt_exp := clock w / 1000 + 3600; jwt_key := str (configured_key rev penv) |} /\
  json_field "user" (body (reply r)) =
    match rev with Later => Some (user_info u) | Earlier => None end /\
  mentions_digest (body (reply r)) = false /\
  final r = w.
Proof.
  intros He Hp Hdb Hacc Hv Hpw Hkey.
  destruct (login_success_run rev penv e w b u He Hp Hdb Hacc Hv Hpw Hkey) as [Hr Hw].
  cbv zeta in *. rewrite Hr, Hw. destruct rev; repeat split.
Qed.

Lemma login_issues_token_witness :
  let r := run Demo.quiet 0 (Demo.verified Later) (login Later Demo.penv Demo.ama_login) in
  let u := verified_row Cases.ama_row in
  status (reply r) = 200 /\
  token_of (reply r) =
    Some {| jwt_userId := u_id u; jwt_email := u_email u;
            jwt_iat := clock (Demo.verified Later) / 1000;
            jwt_exp := clock (Demo.verified Later) / 1000 + 3600;
            jwt_key := str (configured_key Later Demo.penv) |} /\
  json_field "user" (body (reply r)) = Some (user_info u) /\
  mentions_digest (body (reply r)) = false /\
  final r = Demo.verified Later.
Proof.
  apply (login_issues_token Later Demo.penv Demo.quiet (Demo.verified Later) Demo.ama_login
           (verified_row Cases.ama_row)); reflexivity.
Defined.

(** ** The gate *)

(** X9: the token a login hands out passes [authenticateToken] of the same
    revision, presented as [Bearer <token>], as long as fewer than 3600
    seconds have passed since the second it was issued in, and is answered
    403 "Invalid token" from then on. *)
Theorem session_lasts_an_hour (rev : revision) (penv : process_env) (e : env) (w : world)
    (b : req_body) (u : user) (now : N) :
  Js.truthy (b_email b) = true ->
  Js.truthy (b_password b) = true ->
  (forall i, db_fault (e i) = false) ->
  account w (str (b_email b)) = Some u ->
  u_is_verified u = true ->
  digest_plain (u_password u) = str (b_password b) ->
  Js.truthy (configured_key rev penv) = true ->
  exists t,
    token_of (reply (run e 0 w (login rev penv b))) = Some t /\
    jwt_userId t = u_id u /\
    gate rev penv now (Some [Word "Bearer"; Token t]) =
      if now / 1000 <? clock w / 1000 + 3600
      then inr t
      else inl (res_json 403 [message "Invalid token"]).
Proof.
  intros He Hp Hdb Hacc Hv Hpw Hkey.
  destruct (login_success_run rev penv e w b u He Hp Hdb Hacc Hv Hpw Hkey) as [Hr _].
  cbv zeta in Hr. rewrite Hr. eexists. split; [destruct rev; reflexivity|].
  split; [reflexivity|].
  destruct rev; cbn [gate configured_key] in *.
  - unfold Part000.authenticateToken. cbn [nth_error]. rewrite Hkey.
    unfold jwt_verify. cbn [jwt_key jwt_exp andb].
    destruct (String.eqb_spec (str (Part000.signing_key penv))
                (str (Part000.signing_key penv))); [reflexivity | congruence].
  - unfold ServerJs.authenticateToken. cbn [nth_error].
    unfold jwt_verify. cbn [jwt_key jwt_exp andb].
    change (str (ServerJs.signing_key penv)) with (ServerJs.JWT_SECRET penv).
    destruct (String.eqb_spec (ServerJs.JWT_SECRET penv) (ServerJs.JWT_SECRET penv));
      [reflexivity | congruence].
Qed.

Lemma session_lasts_an_hour_witness :
  exists t,
    token_of (reply (run Demo.quiet 0 (Demo.verified Later)
                       (login Later Demo.penv Demo.ama_login))) = Some t /\
    jwt_userId t = u_id (verified_row Cases.ama_row) /\
    gate Later Demo.penv (59 * 60 * 1000) (Some [Word "Bearer"; Token t]) =
      if 59 * 60 * 1000 / 1000 <? clock (Demo.verified Later) / 1000 + 3600
      then inr t
      else inl (res_json 403 [message "Invalid token"]).
Proof.
  apply (session_lasts_an_hour Later Demo.penv Demo.quiet (Demo.verified Later)
           Demo.ama_login (verified_row Cases.ama_row) (59 * 60 * 1000)); reflexivity.
Defined.

(** X10: [authenticateToken] lets a request through only on a token in the
    second field of the header that was signed with the configured,
    non-empty key and has not expired, and puts that token's claims in
    [req.user]; every other request is answered 401 "Access token required"
    when that field is missing or empty and 403 "Invalid token" otherwise. *)
Theorem gate_passes_only_valid_tokens (rev : revision) (penv : process_env) (now : N)
    (header : option (list field)) :
  let presented := match header with Some fields => nth_error fields 1 | None => None end in
  match gate rev penv now header with
  | inr t =>
      presented = Some (Token t) /\
      configured_key rev penv = Some (jwt_key t) /\
      jwt_key t <> "" /\
      now / 1000 < jwt_exp t
  | inl denied =>
      match presented with
      | None | Some (Word "") => denied = res_json 401 [message "Access token required"]
      | _ => denied = res_json 403 [message "Invalid token"]
      end
  end.
Proof.
  cbv zeta. destruct rev; cbn [gate configured_key];
    unfold Part000.authenticateToken, ServerJs.authenticateToken.
  - destruct (match header with Some fields => nth_error fields 1 | None => None end)
      as [[[|c s]|t]|]; try reflexivity.
    unfold Part000.signing_key, jwt_verify, Js.truthy, str.
    destruct (penv !! "JWT_SECRET") as [k|]; cbn; [|reflexivity].
    destruct (String.eqb_spec k ""); cbn; [reflexivity|].
    destruct (String.eqb_spec (jwt_key t) k); cbn; [|reflexivity].
    destruct (N.ltb_spec (now / 1000) (jwt_exp t)); [|reflexivity].
    subst k. auto.
  - destruct (match header with Some fields => nth_error fields 1 | None => None end)
      as [[[|c s]|t]|]; try reflexivity.
    unfold ServerJs.signing_key, jwt_verify.
    destruct (String.eqb_spec (jwt_key t) (ServerJs.JWT_SECRET penv)); cbn; [|reflexivity].
    destruct (N.ltb_spec (now / 1000) (jwt_exp t)); [|reflexivity].
    repeat split; [congruence | | assumption].
    rewrite e. unfold ServerJs.JWT_SECRET, Js.or_else.
    destruct (penv !! "JWT_SECRET") as [k|]; [|discriminate].
    destruct (String.eqb_spec k ""); [discriminate | assumption].
Qed.

(** ** What the handlers never do, whatever fails *)

Lemma ltb_of_nat_0 : (0 <? N.of_nat 0) = false.
Proof. reflexivity. Qed.

Lemma ltb_of_nat_S (n : nat) : (0 <? N.of_nat (S n)) = true.
Proof. apply N.ltb_lt. lia. Qed.

(** Follow a run along every outcome of its operations. *)
Ltac explore :=
  repeat first
         [ progress rewrite ?no_rows, ?some_rows, ?ltb_of_nat_0, ?ltb_of_nat_S, ?set_users_same
         | progress cbn
         | match goal with
          | |- context [if db_fault ?c then _ else _] => destruct (db_fault c)
          | |- context [if mail_fault ?c then _ else _] => destruct (mail_fault c)
          | |- context [List.length (List.filter ?f ?l)] =>
              let H := fresh "Hrows" in destruct (List.filter f l) as [|? ?] eqn:H
          | |- context [match List.filter ?f ?l with _ => _ end] =>
              let H := fresh "Hrows" in destruct (List.filter f l) as [|? ?] eqn:H
          | |- context [if negb (u_is_verified ?u) then _ else _] =>
              let H := fresh "Hver" in destruct (u_is_verified u) eqn:H
          | |- context [match u_verification_code ?u with _ => _ end] =>
              let H := fresh "Hcode" in destruct (u_verification_code u) as [?|] eqn:H
          | |- context [if negb (String.eqb ?a ?b) then _ else _] =>
              let H := fresh "Hsame" in destruct (String.eqb a b) eqn:H
          | |- context [match jwt_sign ?a ?b ?c ?d with _ => _ end] =>
              let H := fresh "Hsign" in destruct (jwt_sign a b c d) as [[]|] eqn:H
          | |- context [match insert_user ?a ?b ?c ?d ?e ?f with _ => _ end] =>
              let H := fresh "Hins" in destruct (insert_user a b c d e f) as [?|?] eqn:H
           end ].

(** X11: a login never writes: whatever the request and whatever fails on
    the way, the world after it is the world before it. *)
Theorem login_never_writes (rev : revision) (penv : process_env) (e : env) (w : world)
    (b : req_body) :
  final (run e 0 w (login rev penv b)) = w.
Proof.
  destruct rev; unfold_handlers;
    (destruct (Js.truthy (b_email b)); cbn [negb orb]; [|reflexivity]);
    (destruct (Js.truthy (b_password b)); cbn [negb orb]; [|reflexivity]);
    unfold_task; explore; reflexivity.
Qed.

Lemma filter_head_find {A} (f : A -> bool) (l : list A) (x : A) (rest : list A) :
  List.filter f l = x :: rest -> List.find f l = Some x.
Proof.
  induction l as [|a l IH]; cbn; [discriminate|].
  destruct (f a); [intros [= -> _]; reflexivity | exact IH].
Qed.

Lemma insert_user_inl (us us' : list user) (n e : string) (p c : digest) (v : bool) :
  insert_user us n e p c v = inl us' ->
  List.find (has_email e) us = None /\
  us' = us ++ [ {| u_id := N.of_nat (List.length us) + 1; u_name := n; u_email := e;
                   u_password := p; u_verification_code := Some c; u_is_verified := v |} ].
Proof.
  unfold insert_user. rewrite find_existsb.
  destruct (List.find (has_email e) us); [discriminate|].
  intros [= <-]. auto.
Qed.

(** X12: a verification request changes the table in one way only, by
    verifying the rows of its address, and only when the account of that
    address holds a code digest that the supplied code matches; no failure
    of the database, the mail transport or the signing changes that. *)
Theorem verification_needs_the_code (rev : revision) (penv : process_env) (e : env)
    (w : world) (b : req_body) :
  let r := run e 0 w (verify_email rev penv b) in
  users (final r) = users w \/
  exists u d,
    account w (str (b_email b)) = Some u /\
    u_verification_code u = Some d /\
    digest_plain d = str (b_code b) /\
    users (final r) =
      List.map (fun x => if has_email (str (b_email b)) x then verified_row x else x) (users w).
Proof.
  destruct rev; unfold_handlers;
    (destruct (Js.truthy (b_email b)); cbn [negb orb]; [|left; reflexivity]);
    (destruct (Js.truthy (b_code b)); cbn [negb orb]; [|left; reflexivity]);
    unfold_task; explore;
    first
      [ left; reflexivity
      | right; do 2 eexists;
        split; [eapply filter_head_find; eassumption|];
        split; [eassumption|];
        split; [symmetry; apply String.eqb_eq; eassumption | reflexivity] ].
Qed.

(** X13: a signup changes the table in one way only, by appending one
    unverified row for its own name, address and password, and only when
    the request passed validation and the address had no account. *)
Theorem signup_appends_one_pending_row (rev : revision) (penv : process_env) (e : env)
    (w : world) (b : req_body) :
  let r := run e 0 w (signup rev penv b) in
  users (final r) = users w \/
  signup_validated rev b /\
  account w (str (b_email b)) = None /\
  exists row,
    users (final r) = users w ++ [row] /\
    u_name row = str (b_name b) /\
    u_email row = str (b_email b) /\
    digest_plain (u_password row) = str (b_password b) /\
    is_pending row = true.
Proof.
  unfold signup_validated.
  destruct rev; unfold_handlers;
    (destruct (Js.truthy (b_name b)); cbn [negb orb]; [|left; reflexivity]);
    (destruct (Js.truthy (b_email b)); cbn [negb orb]; [|left; reflexivity]);
    (destruct (Js.truthy (b_password b)); cbn [negb orb]; [|left; reflexivity]);
    (destruct (Regex.test emailRegex (str (b_email b))); cbn [negb]; [|left; reflexivity]).
  - destruct (N.ltb_spec 255 (Js.length (str (b_name b)))); cbn [orb]; [left; reflexivity|].
    destruct (N.ltb_spec 255 (Js.length (str (b_email b)))); cbn [orb]; [left; reflexivity|].
    destruct (N.ltb_spec (Js.length (str (b_password b))) 8); cbn [orb]; [left; reflexivity|].
    unfold_task; explore;
      first
        [ left; reflexivity
        | right; apply insert_user_inl in Hins as [Hnone ->];
          split; [repeat (split; [reflexivity|]); intros _; repeat split; assumption|];
          split; [exact Hnone | eexists; repeat split] ].
  - unfold_task; explore;
      first
        [ left; reflexivity
        | right; apply insert_user_inl in Hins as [Hnone ->];
          split; [repeat (split; [reflexivity|]); discriminate|];
          split; [exact Hnone | eexists; repeat split] ].
Qed.

Lemma jwt_sign_key (now uid : N) (em : string) (secret : option string) (t : jwt) :
  jwt_sign now uid em secret = inl (VToken t) ->
  secret = Some (jwt_key t) /\ jwt_key t <> "".
Proof.
  unfold jwt_sign, Js.truthy, Js.or_else. destruct secret as [s|]; [|discriminate].
  destruct (String.eqb_spec s ""); cbn; [discriminate|].
  intros [= <-]. auto.
Qed.

(** X14: every token that a login or a verification puts in a response is
    signed with the revision's configured key, which is not empty. *)
Theorem tokens_carry_the_configured_key (rev : revision) (penv : process_env) (e : env)
    (w : world) (b : req_body) (t : jwt) :
  token_of (reply (run e 0 w (login rev penv b))) = Some t \/
  token_of (reply (run e 0 w (verify_email rev penv b))) = Some t ->
  configured_key rev penv = Some (jwt_key t) /\ jwt_key t <> "".
Proof.
  intros [H | H]; revert H.
  - destruct rev; unfold_handlers;
      (destruct (Js.truthy (b_email b)); cbn [negb orb]; [|discriminate]);
      (destruct (Js.truthy (b_password b)); cbn [negb orb]; [|discriminate]);
      unfold_task; explore; try discriminate;
      intros [= <-]; eapply jwt_sign_key; eassumption.
  - destruct rev; unfold_handlers;
      (destruct (Js.truthy (b_email b)); cbn [negb orb]; [|discriminate]);
      (destruct (Js.truthy (b_code b)); cbn [negb orb]; [|discriminate]);
      unfold_task; explore; try discriminate;
      intros [= <-]; eapply jwt_sign_key; eassumption.
Qed.

Lemma tokens_carry_the_configured_key_witness :
  configured_key Later Demo.penv = Some (jwt_key Demo.ama_token) /\
  jwt_key Demo.ama_token <> "".
Proof.
  apply (tokens_carry_the_configured_key Later Demo.penv Demo.quiet (Demo.verified Later)
           Demo.ama_login Demo.ama_token).
  left. reflexivity.
Defined.

(** ** Failures of the database and of the mail transport *)

(** X15: when the database cannot be reached, a request that passed
    validation is answered 500 with the route's own failure message and the
    driver's error text; nothing else is attempted and the world is as it
    was. *)
Theorem unreachable_database_is_an_internal_error (rev : revision) (penv : process_env)
    (e : env) (w : world) (b : req_body) :
  db_fault (e 0%nat) = true ->
  let outcome (p : prog) (text : string) :=
    (exists r, p = Ret r /\ status r = 400) \/
    (exists err,
       run e 0 w p =
         {| final := w;
            reply := res_json 500 [message text; ("error", JStr err)];
            trace := [CreateConnection] |}) in
  outcome (signup rev penv b) "Failed to register user" /\
  outcome (verify_email rev penv b) "Failed to verify email" /\
  outcome (login rev penv b) "Failed to login".
Proof.
  intros Hdb. cbv zeta.
  repeat split; destruct rev; unfold_handlers;
    repeat match goal with
      | |- context [if ?c then Ret _ else _] => destruct c; [left; eexists; split; reflexivity|]
      end;
    right; unfold_task; cbn; rewrite Hdb; cbn; eexists; reflexivity.
Qed.

Lemma unreachable_database_is_an_internal_error_witness :
  let outcome (p : prog) (text : string) :=
    (exists r, p = Ret r /\ status r = 400) \/
    (exists err,
       run Cases.db_down 0 empty_world p =
         {| final := empty_world;
            reply := res_json 500 [message text; ("error", JStr err)];
            trace := [CreateConnection] |}) in
  outcome (signup Later Demo.penv Demo.ama) "Failed to register user" /\
  outcome (verify_email Later Demo.penv Demo.ama) "Failed to verify email" /\
  outcome (login Later Demo.penv Demo.ama) "Failed to login".
Proof.
  apply (unreachable_database_is_an_internal_error Later Demo.penv Cases.db_down empty_world
           Demo.ama).
  reflexivity.
Defined.

(** X16: the handlers close the connection on the paths that answer from
    inside the [try] block, not in the [catch] block: whatever fails, a run
    of signup, verification or login that opened a connection either ends
    with [db.end()] as its last operation or is answered by the [catch]
    block's 500. *)
Theorem connection_is_closed_unless_caught (rev : revision) (penv : process_env) (e : env)
    (w : world) (b : req_body) :
  let closed (p : prog) (text : string) :=
    let r := run e 0 w p in
    trace r = [] \/ last (trace r) = Some DbEnd \/
    (status (reply r) = 500 /\ message_of (reply r) = Some text) in
  closed (signup rev penv b) "Failed to register user" /\
  closed (verify_email rev penv b) "Failed to verify email" /\
  closed (login rev penv b) "Failed to login".
Proof.
  cbv zeta.
  repeat split; destruct rev; unfold_handlers;
    repeat match goal with
      | |- context [if ?c then Ret _ else _] => destruct c; [left; reflexivity|]
      end;
    unfold_task; explore;
    first [ right; left; reflexivity | right; right; split; reflexivity ].
Qed.

(** ** The contact route *)

(** X17: a contact request that passes validation sends exactly one mail,
    to the service's own address with the sender as reply-to, and is
    answered 200; when the transport fails it is answered 500 "Failed to
    send email" and nothing is in the outbox.  Either way it opens no
    database connection and leaves the table alone. *)
Theorem contact_forwards_the_message (rev : revision) (penv : process_env) (e : env)
    (w : world) (b : req_body) :
  Js.truthy (b_name b) = true ->
  Js.truthy (b_email b) = true ->
  Js.truthy (b_message b) = true ->
  Regex.test emailRegex (str (b_email b)) = true ->
  (rev = Later ->
   Js.length (str (b_name b)) <= 255 /\ Js.length (str (b_message b)) <= 1000) ->
  let r := run e 0 w (contact rev penv b) in
  users (final r) = users w /\
  ~ In CreateConnection (trace r) /\
  if mail_fault (e 0%nat)
  then (exists err, reply r = res_json 500 [message "Failed to send email"; ("error", JStr err)]) /\
       outbox (final r) = outbox w
  else reply r = res_json 200 [message "Email sent successfully!"] /\
       exists m, outbox (final r) = outbox w ++ [m] /\
                 mail_to m = penv !! "EMAIL_USER" /\
                 mail_replyTo m = Some (str (b_email b)) /\
                 mail_html m = ContactHtml (str (b_name b)) (str (b_email b)) (str (b_message b)).
Proof.
  intros Hn He Hm Hre Hlen.
  destruct rev; unfold contact; unfold_handlers; rewrite Hn, He, Hm, Hre; cbn [negb orb].
  - destruct (Hlen eq_refl) as (H1 & H2).
    apply N.ltb_ge in H1, H2. rewrite H1, H2; cbn [orb].
    unfold_task; cbn. destruct (mail_fault (e 0%nat)); cbn.
    + repeat split; [intros [H|[]]; discriminate | eauto].
    + repeat split; [intros [H|[]]; discriminate | eexists; repeat split].
  - unfold_task; cbn. destruct (mail_fault (e 0%nat)); cbn.
    + repeat split; [intros [H|[]]; discriminate | eauto].
    + repeat split; [intros [H|[]]; discriminate | eexists; repeat split].
Qed.

Lemma contact_forwards_the_message_witness :
  let r := run Demo.quiet 0 empty_world (contact Later Demo.penv Cases.hello) in
  users (final r) = users empty_world /\
  ~ In CreateConnection (trace r) /\
  (reply r = res_json 200 [message "Email sent successfully!"] /\
   exists m, outbox (final r) = outbox empty_world ++ [m] /\
             mail_to m = Demo.penv !! "EMAIL_USER" /\
             mail_replyTo m = Some (str (b_email Cases.hello)) /\
             mail_html m = ContactHtml (str (b_name Cases.hello)) (str (b_email Cases.hello))
                             (str (b_message Cases.hello))).
Proof.
  apply (contact_forwards_the_message Later Demo.penv Demo.quiet empty_world Cases.hello);
    try reflexivity.
  intros _. vm_compute. split; discriminate.
Defined.

(** X18: a contact request with a field missing or empty, with an address
    that fails the e-mail test or, in the later revision, with a name over
    255 or a message over 1000 characters is answered 400 and sends
    nothing. *)
Theorem contact_rejects_bad_input (rev : revision) (penv : process_env) (e : env)
    (w : world) (b : req_body) :
  Js.truthy (b_name b) && Js.truthy (b_email b) && Js.truthy (b_message b) = false \/
  Regex.test emailRegex (str (b_email b)) = false \/
  (rev = Later /\
   (255 < Js.length (str (b_name b)) \/ 1000 < Js.length (str (b_message b)))) ->
  let r := run e 0 w (contact rev penv b) in
  status (reply r) = 400 /\ final r = w /\ trace r = [].
Proof.
  intros Hbad.
  destruct rev; unfold contact; unfold_handlers;
    (destruct (Js.truthy (b_name b)); cbn [negb orb andb] in *; [|repeat split]);
    (destruct (Js.truthy (b_email b)); cbn [negb orb andb] in *; [|repeat split]);
    (destruct (Js.truthy (b_message b)); cbn [negb orb andb] in *; [|repeat split]);
    (destruct (Regex.test emailRegex (str (b_email b))); cbn [negb] in *; [|repeat split]).
  - destruct (N.ltb_spec 255 (Js.length (str (b_name b)))); cbn [orb]; [repeat split|].
    destruct (N.ltb_spec 1000 (Js.length (str (b_message b)))); cbn [orb]; [repeat split|].
    exfalso. destruct Hbad as [H' | [H' | [_ [H' | H']]]]; try discriminate; lia.
  - exfalso. destruct Hbad as [H' | [H' | [H' _]]]; discriminate.
Qed.

Lemma contact_rejects_bad_input_witness :
  let r := run Demo.quiet 0 empty_world (contact Later Demo.penv Demo.ama) in
  status (reply r) = 400 /\ final r = empty_world /\ trace r = [].
Proof.
  apply (contact_rejects_bad_input Later Demo.penv Demo.quiet empty_world Demo.ama).
  left. reflexivity.
Defined.

(** ** The later revision's general statements *)

(** X19: the later revision's signup answers 400 to a name or an address of
    more than 255 characters and to a password of fewer than 8, before it
    awaits anything: nothing is written and nothing is mailed. *)
Theorem later_revision_checks_lengths (penv : process_env) (e : env) (w : world)
    (b : req_body) :
  255 < Js.length (str (b_name b)) \/ 255 < Js.length (str (b_email b)) \/
  Js.length (str (b_password b)) < 8 ->
  let r := run e 0 w (Part000.post_api_signup penv b) in
  status (reply r) = 400 /\ final r = w /\ trace r = [].
Proof. exact (later_signup_rejects_bad_lengths penv e w b). Qed.

Lemma later_revision_checks_lengths_witness :
  let r := run Demo.quiet 0 empty_world (Part000.post_api_signup Demo.penv Demo.ama_short) in
  status (reply r) = 400 /\ final r = empty_world /\ trace r = [].
Proof.
  apply (later_revision_checks_lengths Demo.penv Demo.quiet empty_world Demo.ama_short).
  right. right. vm_compute. reflexivity.
Defined.

(** X20: the later revision's verification of a pending account with its
    code verifies the rows of that address and is answered 200 with a token
    for the account, signed for one hour with the configured key, and the
    account's id, name and address, without any digest; whether the
    confirmation mail can be delivered changes nothing of this. *)
Theorem later_revision_logs_in_on_verification (penv : process_env) (e : env) (w : world)
    (b : req_body) (u : user) (d : digest) (secret : string) :
  Js.truthy (b_email b) = true ->
  Js.truthy (b_code b) = true ->
  (forall i, db_fault (e i) = false) ->
  account w (str (b_email b)) = Some u ->
  u_verification_code u = Some d ->
  digest_plain d = str (b_code b) ->
  Part000.signing_key penv = Some secret -> secret <> "" ->
  let r := run e 0 w (Part000.post_api_verify_email penv b) in
  exists t,
    reply r = res_json 200 [message "Email verified successfully! You're now logged in.";
                            ("token", JToken t); ("user", user_info u);
                            ("redirect", JStr "/dashboard")] /\
    jwt_userId t = u_id u /\ jwt_email t = u_email u /\
    jwt_exp t = jwt_iat t + 3600 /\ jwt_key t = secret /\
    users (final r) =
      List.map (fun x => if has_email (str (b_email b)) x then verified_row x else x) (users w) /\
    mentions_digest (body (reply r)) = false.
Proof. exact (later_verify_logs_in penv e w b u d secret). Qed.

Lemma later_revision_logs_in_on_verification_witness :
  let r := run Demo.mail_down 0 (Demo.signed_up Later)
             (Part000.post_api_verify_email Demo.penv Demo.ama_code) in
  exists t,
    reply r = res_json 200 [message "Email verified successfully! You're now logged in.";
                            ("token", JToken t); ("user", user_info Cases.ama_row);
                            ("redirect", JStr "/dashboard")] /\
    jwt_userId t = u_id Cases.ama_row /\ jwt_email t = u_email Cases.ama_row /\
    jwt_exp t = jwt_iat t + 3600 /\ jwt_key t = "s3cr3t-from-dotenv" /\
    users (final r) =
      List.map (fun x => if has_email (str (b_email Demo.ama_code)) x then verified_row x else x)
        (users (Demo.signed_up Later)) /\
    mentions_digest (body (reply r)) = false.
Proof.
  apply (later_revision_logs_in_on_verification Demo.penv Demo.mail_down
           (Demo.signed_up Later) Demo.ama_code
           Cases.ama_row (Bcrypt 10 0 "100000") "s3cr3t-from-dotenv"); try reflexivity.
  discriminate.
Defined.

(** X21: in both revisions a verification request for an account whose code
    has been cleared is answered 500 "Failed to verify email" with the text
    of the exception [bcrypt.compare] throws on the NULL column, and changes
    nothing. *)
Theorem cleared_code_is_an_internal_error (rev : revision) (penv : process_env) (e : env)
    (w : world) (b : req_body) (u : user) :
  Js.truthy (b_email b) = true ->
  Js.truthy (b_code b) = true ->
  (forall i, db_fault (e i) = false) ->
  account w (str (b_email b)) = Some u ->
  u_verification_code u = None ->
  let r := run e 0 w (verify_email rev penv b) in
  reply r = res_json 500 [message "Failed to verify email";
                          ("error", JStr "Illegal arguments: string, object")] /\
  final r = w.
Proof. exact (verify_without_stored_code rev penv e w b u). Qed.

Lemma cleared_code_is_an_internal_error_witness :
  let r := run Demo.quiet 0 (Demo.verified Earlier)
             (verify_email Earlier Demo.penv Demo.ama_code) in
  reply r = res_json 500 [message "Failed to verify email";
                          ("error", JStr "Illegal arguments: string, object")] /\
  final r = Demo.verified Earlier.
Proof.
  apply (cleared_code_is_an_internal_error Earlier Demo.penv Demo.quiet
           (Demo.verified Earlier) Demo.ama_code (verified_row Cases.ama_row)); reflexivity.
Defined.

(** ** The resource routes *)

Import Resources.

Ltac unfold_resources :=
  cbv [post_api_babies post_api_babies_earlier get_api_babies post_api_schedules
       get_api_schedules post_api_expenses get_api_expenses post_api_milestones
       get_api_milestones post_api_daily_reads get_api_daily_reads
       get_api_daily_reads_earlier post_api_scriptures get_api_scriptures get_api_user
       insert_then select_then try_or_500 wait respond mbind rtask_bind mret rtask_ret].

(** Every route to a resource handler is declared with the gate alone
    before it, in both revisions. *)
Lemma resource_routes (rev : revision) (req : request) :
  let '(ms, ep) := dispatch (stack_of rev) req in
  resource ep = true -> ms = [AuthenticateToken] /\ exists h, handler_of rev ep = Some h.
Proof.
  unfold dispatch. destruct req as [m p ip auth b]. cbn [req_method req_path].
  case_bool_decide as Hopt; [discriminate|]. clear Hopt.
  destruct rev; cbn [stack_of]; unfold Part000Routes.stack, ServerJsRoutes.stack;
    cbn [pipeline req_method req_path];
    unfold under, at_route, same_path, serves;
    literal_paths;
    generalize (List.map canonicalize p); clear p; intros q;
    destruct m;
    repeat route_case;
    cbn; try discriminate; intros _; split; try reflexivity; eexists; reflexivity.
Qed.

(** X22: a request routed to a resource handler meets [authenticateToken]
    first and nothing else: without a token that passes it gets the gate's
    401 or 403 and the handler issues nothing; with one, the handler runs
    on the claims of that token. *)
Theorem gate_decides_before_any_handler (rev : revision) (penv : process_env) (now : N)
    (r : rrequest) (ms : list middleware) (ep : endpoint) :
  dispatch (stack_of rev) (route_of r) = (ms, ep) ->
  resource ep = true ->
  ms = [AuthenticateToken] /\
  exists h,
    handler_of rev ep = Some h /\
    serve rev penv now r =
      Some match gate rev penv now (rr_authorization r) with
           | inl denied => Sent (denied_reply denied)
           | inr user => h user (rr_body r)
           end.
Proof.
  intros Hd Hres. pose proof (resource_routes rev (route_of r)) as H.
  rewrite Hd in H. destruct (H Hres) as [-> [h Hh]].
  split; [reflexivity|]. exists h. split; [exact Hh|].
  unfold serve. rewrite Hd, Hh. cbn [behind].
  destruct (gate rev penv now (rr_authorization r)); reflexivity.
Qed.

Lemma gate_decides_before_any_handler_witness :
  [AuthenticateToken] = [AuthenticateToken] /\
  exists h,
    handler_of Later GetBabies = Some h /\
    serve Later Demo.penv 0 (Cases.get_babies None) =
      Some match gate Later Demo.penv 0 (rr_authorization (Cases.get_babies None)) with
           | inl denied => Sent (denied_reply denied)
           | inr user => h user (rr_body (Cases.get_babies None))
           end.
Proof.
  apply (gate_decides_before_any_handler Later Demo.penv 0 (Cases.get_babies None)
           [AuthenticateToken] GetBabies); reflexivity.
Defined.

(** X23: a route that inserts answers 400 "Missing required fields: ..."
    with its fields listed, and issues nothing, as soon as one of them is
    missing, null, an empty string or the number 0. *)
Theorem resource_routes_require_their_fields (rev : revision) (ep : endpoint) (h : handler)
    (user : jwt) (body : string -> jsval) (db : database) (k : string) :
  handler_of rev ep = Some h ->
  In k (required ep) ->
  truthy (body k) = false ->
  rrun db 0 (h user body) =
    {| answer := inl (say 400 ("Missing required fields: " +:+ join ", " (required ep)));
       ops := [] |}.
Proof.
  intros Hh Hk Hfalse.
  destruct rev, ep; cbn in Hh, Hk; try discriminate; try contradiction;
    injection Hh as <-;
    repeat (destruct Hk as [<- | Hk]; [|]); try contradiction;
    unfold_resources; rewrite Hfalse; cbn [negb orb];
    rewrite ?orb_true_r; reflexivity.
Qed.

Lemma resource_routes_require_their_fields_witness :
  rrun Cases.db_ok 0 (post_api_expenses Demo.ama_token Cases.free_expense) =
    {| answer := inl (say 400 ("Missing required fields: " +:+ join ", " (required AddExpense)));
       ops := [] |}.
Proof.
  apply (resource_routes_require_their_fields Later AddExpense post_api_expenses
           Demo.ama_token Cases.free_expense Cases.db_ok "amount");
    [reflexivity | right; left; reflexivity | reflexivity].
Defined.

(** Follow a resource handler along every answer of the database. *)
Ltac explore_db db :=
  repeat first
    [ progress cbn
    | match goal with
      | |- context [db ?i] => destruct (db i) as [[|? ?]|?]
      | H : context [db ?i] |- _ => destruct (db i) as [[|? ?]|?]
      | |- context [if ?c then _ else _] => destruct c
      | H : context [if ?c then _ else _] |- _ => destruct c
      | |- context [match ?v with Undefined => _ | _ => _ end] => destruct v
      | H : context [match ?v with Undefined => _ | _ => _ end] |- _ => destruct v
      end ].

(** X24: the caller's identity in a statement is the token's, never the
    request's: every statement a listing route or the user route issues has
    the token's user id as its only parameter, and every insert into
    babies, expenses or scriptures has it as the owner column.  (Daily
    reads belong to no one.) *)
Theorem statements_are_scoped_by_the_token (rev : revision) (ep : endpoint) (h : handler)
    (user : jwt) (body : string -> jsval) (db : database)
    (statement : string) (params : list jsval) :
  handler_of rev ep = Some h ->
  In (Query statement params) (ops (rrun db 0 (h user body))) ->
  match ep with
  | GetBabies | GetSchedules | GetExpenses | GetMilestones | GetScriptures | GetUser =>
      params = [userId user]
  | AddBaby | AddExpense | AddScripture => nth_error params 0 = Some (userId user)
  | _ => True
  end.
Proof.
  intros Hh Hin.
  destruct rev, ep; cbn in Hh; try discriminate; try exact I;
    injection Hh as <-; revert Hin; unfold_resources; explore_db db;
    intros Hin; repeat (destruct Hin as [Hin | Hin]; try discriminate);
    try contradiction; injection Hin as <- <-; reflexivity.
Qed.

Lemma statements_are_scoped_by_the_token_witness :
  [userId Demo.ama_token] = [userId Demo.ama_token].
Proof.
  apply (statements_are_scoped_by_the_token Later GetBabies get_api_babies Demo.ama_token
           (fun _ => Undefined) Cases.db_ok
           "SELECT id, name, birth_date, gender FROM babies WHERE user_id = ?"
           [userId Demo.ama_token]);
    [reflexivity | right; left; reflexivity].
Defined.

(** X25: the routes that add a schedule or a milestone issue one statement
    only, the insert, with the [baby_id] of the request as it came: no
    statement asks whose baby that is. *)
Theorem baby_id_is_taken_on_trust (rev : revision) (ep : endpoint) (h : handler)
    (user : jwt) (body : string -> jsval) (db : database)
    (statement : string) (params : list jsval) :
  handler_of rev ep = Some h ->
  ep = AddSchedule \/ ep = AddMilestone ->
  In (Query statement params) (ops (rrun db 0 (h user body))) ->
  nth_error params 0 = Some (body "baby_id") /\
  statement =
    match ep with
    | AddSchedule =>
        "INSERT INTO schedules (baby_id, type, scheduled_time, notes) VALUES (?, ?, ?, ?)"
    | _ =>
        "INSERT INTO milestones (baby_id, title, description, milestone_date, photo_url) VALUES (?, ?, ?, ?, ?)"
    end.
Proof.
  intros Hh [-> | ->] Hin;
    (destruct rev; cbn in Hh; injection Hh as <-; revert Hin; unfold_resources;
     repeat match goal with
       | |- context [if ?c then _ else _] => destruct c
       end; cbn;
     repeat match goal with
       | |- context [db ?i] => destruct (db i) as [?|?]; cbn
       end;
     intros Hin; repeat (destruct Hin as [Hin | Hin]; try discriminate);
     try contradiction; injection Hin as <- <-; split; reflexivity).
Qed.

Lemma baby_id_is_taken_on_trust_witness :
  nth_error [Cases.schedule "baby_id"; Cases.schedule "type"; Cases.schedule "scheduled_time";
             or_null (Cases.schedule "notes")] 0 = Some (Cases.schedule "baby_id") /\
  "INSERT INTO schedules (baby_id, type, scheduled_time, notes) VALUES (?, ?, ?, ?)" =
  "INSERT INTO schedules (baby_id, type, scheduled_time, notes) VALUES (?, ?, ?, ?)".
Proof.
  apply (baby_id_is_taken_on_trust Later AddSchedule post_api_schedules Demo.ama_token
           Cases.schedule Cases.db_ok
           "INSERT INTO schedules (baby_id, type, scheduled_time, notes) VALUES (?, ?, ?, ?)"
           [Cases.schedule "baby_id"; Cases.schedule "type"; Cases.schedule "scheduled_time";
            or_null (Cases.schedule "notes")]);
    [reflexivity | left; reflexivity | right; left; reflexivity].
Defined.

(** X26: when the connection opens and the statement then fails, a
    resource route that got past its validation answers 500 with the
    message of its own [catch] block and the driver's error text, and
    [db.end()] is not called: the run stops at the failed statement. *)
Theorem failed_statement_leaves_the_connection_open (rev : revision) (ep : endpoint)
    (h : handler) (user : jwt) (body : string -> jsval) (db : database)
    (rows : list row) (err : error) :
  handler_of rev ep = Some h ->
  db 0%nat = inl rows ->
  db 1%nat = inr err ->
  let r := rrun db 0 (h user body) in
  ops r = [] \/
  exists statement params,
    ops r = [Connect; Query statement params] /\
    answer r = inl (fail (failure_text ep) err).
Proof.
  intros Hh H0 H1.
  destruct rev, ep; cbn in Hh; try discriminate; injection Hh as <-;
    unfold_resources;
    repeat match goal with
      | |- context [if ?c then _ else _] => destruct c; cbn
      | |- context [match ?v with Undefined => _ | _ => _ end] => destruct v; cbn
      end;
    cbn; rewrite ?H0; cbn; rewrite ?H1; cbn;
    first [ left; reflexivity | right; do 2 eexists; split; reflexivity ].
Qed.

Lemma failed_statement_leaves_the_connection_open_witness :
  let r := rrun Cases.db_refuses 0 (post_api_schedules Demo.ama_token Cases.schedule) in
  ops r = [] \/
  exists statement params,
    ops r = [Connect; Query statement params] /\
    answer r = inl (fail (failure_text AddSchedule) "ER_NO_SUCH_TABLE").
Proof.
  apply (failed_statement_leaves_the_connection_open Later AddSchedule post_api_schedules
           Demo.ama_token Cases.schedule Cases.db_refuses []); reflexivity.
Defined.

(** X27: with the database answering, a listing route returns 200 and the
    rows exactly as the database gave them, and the user route returns the
    first row, or 404 "User not found" when there is none; each closes its
    connection after the one statement. *)
Theorem reads_return_what_the_database_answers (rev : revision) (ep : endpoint) (h : handler)
    (user : jwt) (body : string -> jsval) (db : database) (r0 rows r2 : list row) :
  handler_of rev ep = Some h ->
  reads ep = true ->
  db 0%nat = inl r0 -> db 1%nat = inl rows -> db 2%nat = inl r2 ->
  let r := rrun db 0 (h user body) in
  answer r =
    inl match ep, rows with
        | GetUser, [] => say 404 "User not found"
        | GetUser, first :: _ => {| code := 200; content_of := Row first |}
        | _, _ => {| code := 200; content_of := Rows rows |}
        end /\
  exists statement params, ops r = [Connect; Query statement params; End].
Proof.
  intros Hh Hreq H0 H1 H2.
  destruct rev, ep; cbn in Hh, Hreq; try discriminate; injection Hh as <-;
    unfold_resources; cbn; rewrite H0; cbn; rewrite H1; cbn;
    try (destruct rows; cbn); rewrite H2; cbn;
    (split; [reflexivity | do 2 eexists; reflexivity]).
Qed.

Lemma reads_return_what_the_database_answers_witness :
  let r := rrun Cases.one_user 0 (get_api_user Demo.ama_token (fun _ => Undefined)) in
  answer r =
    inl {| code := 200;
           content_of := Row [("id", Number 1); ("name", Text "Ama");
                              ("email", Text "ama@x.com")] |} /\
  exists statement params, ops r = [Connect; Query statement params; End].
Proof.
  apply (reads_return_what_the_database_answers Later GetUser get_api_user Demo.ama_token
           (fun _ => Undefined) Cases.one_user []
           [[("id", Number 1); ("name", Text "Ama"); ("email", Text "ama@x.com")]] []);
    reflexivity.
Defined.

Lemma dateRegex_accepts (s : string) :
  Regex.test dateRegex s = true <-> date_shaped s.
Proof.
  rewrite test_matches. unfold dateRegex, date_shaped.
  generalize (Js.units s). intros l. split.
  - intros H.
    repeat match goal with
      | H : matches (Regex.Seq _ _) _ |- _ => apply seq_inv in H as (? & ? & -> & ? & ?)
      end.
    repeat match goal with
      | H : matches (Regex.Class (Regex.char _)) _ |- _ => apply char_class in H as ->
      | H : matches (Regex.Class digit) _ |- _ => apply class_inv in H as (? & -> & ?)
      end.
    do 8 eexists. split; [reflexivity|].
    cbn [forallb].
    repeat match goal with H : digit _ = true |- _ => rewrite H; clear H end.
    reflexivity.
  - intros (y1 & y2 & y3 & y4 & m1 & m2 & d1 & d2 & -> & H).
    cbn [forallb] in H. repeat (apply andb_true_iff in H as [? H]).
    repeat match goal with
      | |- matches (Regex.Seq _ _) (?c :: ?l) =>
          change (c :: l) with ([c] ++ l); apply matches_seq
      end;
      first [ constructor; assumption | apply char_class; reflexivity ].
Qed.

(** X28: the later revision's baby route goes on to the database exactly
    when the name has at most 255 characters, the birth date is four
    digits, two digits and two digits joined by hyphens, and the gender is
    "male" or "female" in any letter case; otherwise it answers 400
    "Invalid input format" and issues nothing.  The date is not checked
    against a calendar. *)
Theorem baby_profiles_are_validated (user : jwt) (body : string -> jsval) (db : database)
    (n d g : string) :
  body "name" = Text n -> body "birth_date" = Text d -> body "gender" = Text g ->
  n <> "" -> d <> "" -> g <> "" ->
  let r := rrun db 0 (post_api_babies user body) in
  let valid :=
    Js.length n <= 255 /\ date_shaped d /\
    (toLowerCase g = "male" \/ toLowerCase g = "female") in
  (valid <-> hd_error (ops r) = Some Connect) /\
  (~ valid <-> r = {| answer := inl (say 400 "Invalid input format"); ops := [] |}).
Proof.
  intros Hn Hd Hg Hn0 Hd0 Hg0. cbv zeta.
  rewrite <- dateRegex_accepts.
  unfold post_api_babies. rewrite Hn, Hd, Hg.
  assert (Ht : forall s, s <> "" -> truthy (Text s) = true).
  { intros s Hs. cbn. apply String.eqb_neq in Hs. rewrite Hs. reflexivity. }
  rewrite !Ht by assumption. cbn [negb orb to_string].
  assert (Hyes : forall (V : Prop) (r : outcome), V -> hd_error (ops r) = Some Connect ->
            (V <-> hd_error (ops r) = Some Connect) /\
            (~ V <-> r = {| answer := inl (say 400 "Invalid input format"); ops := [] |})).
  { intros V r HV Hr. split; split; auto; [contradiction|].
    intros -> _. discriminate Hr. }
  assert (Hno : forall (V : Prop), ~ V ->
            let r := {| answer := inl (say 400 "Invalid input format"); ops := [] |} in
            (V <-> hd_error (ops r) = Some Connect) /\ (~ V <-> r = r)).
  { intros V HV. cbn. split; split; auto; [contradiction | discriminate]. }
  destruct (N.ltb_spec 255 (Js.length n)) as [Hlong | Hshort]; cbn [orb].
  { apply Hno. intros (H & _). lia. }
  destruct (Regex.test dateRegex d) eqn:Hdate; cbn [negb].
  2: { apply Hno. intros (_ & H & _). discriminate. }
  cbn [existsb].
  destruct (String.eqb_spec (toLowerCase g) "male") as [Hm | Hm];
    [|destruct (String.eqb_spec (toLowerCase g) "female") as [Hf | Hf]]; cbn [orb negb].
  - apply Hyes; [auto | reflexivity].
  - apply Hyes; [auto | reflexivity].
  - apply Hno. intros (_ & _ & [H | H]); contradiction.
Qed.

Lemma baby_profiles_are_validated_witness :
  let r := rrun Cases.db_ok 0 (post_api_babies Demo.ama_token Cases.baby) in
  let valid :=
    Js.length "Esi" <= 255 /\ date_shaped "2024-02-30" /\
    (toLowerCase "Female" = "male" \/ toLowerCase "Female" = "female") in
  (valid <-> hd_error (ops r) = Some Connect) /\
  (~ valid <-> r = {| answer := inl (say 400 "Invalid input format"); ops := [] |}).
Proof.
  apply (baby_profiles_are_validated Demo.ama_token Cases.baby Cases.db_ok
           "Esi" "2024-02-30" "Female"); try reflexivity; discriminate.
Defined.

(** X29: the later revision's baby route calls [toLowerCase] on the gender
    before its [try] block: when the gender is a number and the name and
    the date pass, the handler's promise rejects; it sends no response and
    issues nothing. *)
Theorem numeric_gender_rejects_the_handler (user : jwt) (body : string -> jsval)
    (db : database) (z : Z) :
  body "gender" = Number z ->
  z <> 0%Z ->
  truthy (body "name") = true ->
  truthy (body "birth_date") = true ->
  match body "name" with Text s => Js.length s <= 255 | _ => True end ->
  Regex.test dateRegex (to_string (body "birth_date")) = true ->
  rrun db 0 (post_api_babies user body) =
    {| answer := inr "gender.toLowerCase is not a function"; ops := [] |}.
Proof.
  intros Hg Hz Hn Hd Hlen Hdate.
  unfold post_api_babies. rewrite Hg, Hn, Hd, Hdate.
  assert (Hgt : truthy (Number z) = true).
  { cbn. apply Z.eqb_neq in Hz. rewrite Hz. reflexivity. }
  rewrite Hgt. cbn [negb orb].
  destruct (body "name") as [| |zn|s]; cbn [orb]; try reflexivity.
  apply N.ltb_ge in Hlen. rewrite Hlen. reflexivity.
Qed.

Lemma numeric_gender_rejects_the_handler_witness :
  rrun Cases.db_ok 0 (post_api_babies Demo.ama_token Cases.baby_numeric_gender) =
    {| answer := inr "gender.toLowerCase is not a function"; ops := [] |}.
Proof.
  apply (numeric_gender_rejects_the_handler Demo.ama_token Cases.baby_numeric_gender
           Cases.db_ok 1); try reflexivity.
  - discriminate.
  - vm_compute. discriminate.
Defined.
